(** * EarthML tutorial 03: Alignment and Preprocessing

    A shallow embedding of the code cells of
    [examples/tutorial/03_Alignment_and_Preprocessing.ipynb].

    The notebook is client code of numpy, xarray, intake, cartopy and
    holoviews.  Its own arithmetic (NDVI, the bounding box, the grids) is
    embedded as written.  Of the libraries, the behaviour the cells rely on
    is modelled from their documented semantics (label alignment, [arange],
    in-place [load], binned group-by); what no cell depends on (the catalog
    contents, the map projection, the interpolation kernel, rendering) is a
    field of the record [Library].

    Numbers: in the cells a Python float is an exact rational, and an array
    cell is an [npfloat], a rational extended with the IEEE special values
    that numpy division produces; the cells compute without rounding.  What
    the same arithmetic gives in binary64 is stated apart, for the box and
    the grid, in [Binary64]: each operation there returns the exact result
    rounded to the nearest double.  Signed zeros are not told apart. *)

From Stdlib Require Import ZArith QArith Qround Qabs Qpower Lia Lra Lqa List Bool String.
From stdpp Require Import gmap strings.

Import ListNotations.
Local Open Scope Q_scope.

(** ** Cells of a numpy float array *)

Inductive npfloat : Type :=
| Fin (q : Q)
| PInf
| NInf
| NaN.

Definition fneg (a : npfloat) : npfloat :=
  match a with
  | Fin q => Fin (- q)
  | PInf => NInf
  | NInf => PInf
  | NaN => NaN
  end.

Definition fadd (a b : npfloat) : npfloat :=
  match a, b with
  | NaN, _ | _, NaN => NaN
  | PInf, NInf | NInf, PInf => NaN
  | PInf, _ | _, PInf => PInf
  | NInf, _ | _, NInf => NInf
  | Fin p, Fin q => Fin (p + q)
  end.

Definition fsub (a b : npfloat) : npfloat := fadd a (fneg b).

(** Sign of a rational as numpy's division by zero sees it. *)
Definition signed_inf (q : Q) : npfloat :=
  if Qle_bool 0 q then PInf else NInf.

(** numpy true division: a zero divisor raises nothing, it yields [nan]
    for [0/0] and a signed infinity otherwise. *)
Definition fdiv (a b : npfloat) : npfloat :=
  match a, b with
  | NaN, _ | _, NaN => NaN
  | (PInf | NInf), (PInf | NInf) => NaN
  | PInf, Fin q => signed_inf q
  | NInf, Fin q => fneg (signed_inf q)
  | Fin _, (PInf | NInf) => Fin 0
  | Fin p, Fin q =>
      if Qeq_bool q 0
      then (if Qeq_bool p 0 then NaN else signed_inf p)
      else Fin (p / q)
  end.

Definition is_finite (a : npfloat) : bool :=
  match a with Fin _ => true | _ => false end.

Definition is_nan (a : npfloat) : bool :=
  match a with NaN => true | _ => false end.

(** ** Exceptions *)

Inductive exn : Type :=
| KeyError (key : string)
| NameError (name : string)
| TypeError (what : string)
| ValueError (what : string)
| IndexError
| ZeroDivisionError
| OverflowError (what : string)
| NotImplementedError (what : string)
| FileNotFoundError (path : string)
| LibraryError (what : string).

Inductive result (A : Type) : Type :=
| Ok (a : A)
| Raise (e : exn).
Arguments Ok {A} a.
Arguments Raise {A} e.

(** A raised exception skips the rest of the computation: the only way an
    exception is ever handled here is by being passed on. *)
#[global] Instance result_ret : MRet result := fun A a => Ok a.
#[global] Instance result_bind : MBind result := fun A B k r =>
  match r with
  | Ok a => k a
  | Raise e => Raise e
  end.

(** ** numpy.arange *)

(** [np.arange(start, stop, step)]: [ceil((stop - start) / step)] values
    [start + i * step]; a zero step raises. *)
Definition arange_len (start stop step : Q) : nat :=
  Z.to_nat (Qceiling ((stop - start) / step)).

Definition arange_at (start step : Q) (i : nat) : Q :=
  start + inject_Z (Z.of_nat i) * step.

Definition arange (start stop step : Q) : result (list Q) :=
  if Qeq_bool step 0 then Raise ZeroDivisionError
  else Ok (map (arange_at start step) (seq 0 (arange_len start stop step))).

(** ** Labelled arrays (xarray.DataArray) *)

(** A two-dimensional [DataArray] with dimensions [(y, x)]: one label per
    row, one per column, the rows of cells, and whether the cells are still
    a deferred dask graph ([chunked]) or in memory. *)
Record DataArray : Type := {
  coord_y : list Q;
  coord_x : list Q;
  values : list (list npfloat);
  chunked : bool
}.

(** A raster as read from the catalog: dimensions [(band, y, x)] and the
    [crs] attribute. *)
Record BandArray : Type := {
  coord_band : list Z;
  band_y : list Q;
  band_x : list Q;
  planes : list (list (list npfloat));
  band_chunked : bool;
  crs_attr : string
}.

Definition shape (a : DataArray) : nat * nat :=
  (length (coord_y a), length (coord_x a)).

Definition well_shaped (a : DataArray) : bool :=
  (length (values a) =? length (coord_y a))%nat
  && forallb (fun row => (length row =? length (coord_x a))%nat) (values a).

Definition pixel (a : DataArray) (i j : nat) : option npfloat :=
  row ← values a !! i; row !! j.

Fixpoint labels_equal (l1 l2 : list Q) : bool :=
  match l1, l2 with
  | [], [] => true
  | p :: l1', q :: l2' => Qeq_bool p q && labels_equal l1' l2'
  | _, _ => false
  end.

Definition has_label (q : Q) (l : list Q) : bool :=
  existsb (Qeq_bool q) l.

Fixpoint has_dup (l : list Q) : bool :=
  match l with
  | [] => false
  | q :: l' => has_label q l' || has_dup l'
  end.

Fixpoint index_of (q : Q) (l : list Q) : option nat :=
  match l with
  | [] => None
  | p :: l' => if Qeq_bool p q then Some 0%nat else S <$> index_of q l'
  end.

Fixpoint band_index (b : Z) (l : list Z) : option nat :=
  match l with
  | [] => None
  | c :: l' => if (c =? b)%Z then Some 0%nat else S <$> band_index b l'
  end.

(** [da.sel(band=b)]: the plane labelled [b]; an absent label is a
    [KeyError]. *)
Definition sel (a : BandArray) (b : Z) : result DataArray :=
  match band_index b (coord_band a) with
  | None => Raise (KeyError "band")
  | Some k =>
      Ok {| coord_y := band_y a;
            coord_x := band_x a;
            values := nth k (planes a) [];
            chunked := band_chunked a |}
  end.

(** *** Alignment

    Binary arithmetic first aligns its operands on their labels.  Along a
    dimension whose two indexes are equal nothing is done; otherwise both
    operands are reindexed to the joined labels, cells without a source
    becoming [nan], and duplicate labels are refused. *)

Definition inner_join (l1 l2 : list Q) : list Q :=
  List.filter (fun q => has_label q l2) l1.

Fixpoint insert_sorted (q : Q) (l : list Q) : list Q :=
  match l with
  | [] => [q]
  | p :: l' => if Qle_bool q p then q :: l else p :: insert_sorted q l'
  end.

Definition outer_join (l1 l2 : list Q) : list Q :=
  fold_right insert_sorted []
    (l1 ++ List.filter (fun q => negb (has_label q l1)) l2).

Definition join_labels (join : list Q -> list Q -> list Q)
    (l1 l2 : list Q) : result (list Q) :=
  if labels_equal l1 l2 then Ok l1
  else if has_dup l1 || has_dup l2
  then Raise (ValueError "cannot reindex or align along dimension with duplicate values")
  else Ok (join l1 l2).

Definition reindex_y (a : DataArray) (ys : list Q) : DataArray :=
  if labels_equal (coord_y a) ys then a
  else
    {| coord_y := ys;
       coord_x := coord_x a;
       values :=
         map (fun q =>
                match index_of q (coord_y a) with
                | Some i => nth i (values a) (repeat NaN (length (coord_x a)))
                | None => repeat NaN (length (coord_x a))
                end) ys;
       chunked := chunked a |}.

Definition reindex_x (a : DataArray) (xs : list Q) : DataArray :=
  if labels_equal (coord_x a) xs then a
  else
    {| coord_y := coord_y a;
       coord_x := xs;
       values :=
         map (fun row =>
                map (fun q =>
                       match index_of q (coord_x a) with
                       | Some j => nth j row NaN
                       | None => NaN
                       end) xs) (values a);
       chunked := chunked a |}.

Definition align (join : list Q -> list Q -> list Q)
    (a b : DataArray) : result (DataArray * DataArray) :=
  ys ← join_labels join (coord_y a) (coord_y b);
  xs ← join_labels join (coord_x a) (coord_x b);
  Ok (reindex_x (reindex_y a ys) xs, reindex_x (reindex_y b ys) xs).

(** Cell-wise arithmetic of two arrays: inner-join alignment, then the
    operation cell by cell.  A deferred operand makes the result deferred. *)
Definition binop (f : npfloat -> npfloat -> npfloat)
    (a b : DataArray) : result DataArray :=
  ab ← align inner_join a b;
  Ok {| coord_y := coord_y ab.1;
        coord_x := coord_x ab.1;
        values := zip_with (zip_with f) (values ab.1) (values ab.2);
        chunked := chunked ab.1 || chunked ab.2 |}.

Definition da_sub := binop fsub.
Definition da_add := binop fadd.
Definition da_div := binop fdiv.

(** ** Deferred evaluation *)

(** [entry.read_chunked()]: the raster of a catalog entry as a dask-backed
    array; nothing is computed yet. *)
Definition read_chunked (entry : result BandArray) : result BandArray :=
  a ← entry;
  Ok {| coord_band := coord_band a;
        band_y := band_y a;
        band_x := band_x a;
        planes := planes a;
        band_chunked := true;
        crs_attr := crs_attr a |}.

(** [da.load()]: computes the cells and keeps them in the array object
    itself. *)
Definition load (a : DataArray) : DataArray :=
  {| coord_y := coord_y a;
     coord_x := coord_x a;
     values := values a;
     chunked := false |}.

(** ** What the notebook leaves to the libraries *)

Record Catalog : Type := {
  landsat_5_small : result BandArray;
  landsat_8_small : result BandArray
}.

Record Crs : Type := { proj4 : string }.

Record Library : Type := {
  (** [intake.open_catalog(path)] *)
  open_catalog : string -> result Catalog;
  (** [gv.util.proj_to_cartopy(proj4 string)] *)
  proj_to_cartopy : string -> result Crs;
  (** [crs.transform_point(lon, lat, ccrs.PlateCarree())] *)
  transform_point : Crs -> Q -> Q -> result (Q * Q);
  (** the value [interp] gives at a point [(x, y)] of the new grid *)
  interp_kernel : DataArray -> Q -> Q -> npfloat;
  (** rendering of a plot or of a cell's last expression *)
  render : string -> result unit
}.

(** [da.interp(x=xs, y=ys)]: an in-memory array on the requested labels.
    As the notebook says, the operation is not supported for dask arrays;
    and it raises when a target axis is empty. *)
Definition interp (lib : Library) (a : DataArray) (xs ys : list Q)
    : result DataArray :=
  if chunked a
  then Raise (NotImplementedError "interp is not supported for dask arrays")
  else if (length xs =? 0)%nat || (length ys =? 0)%nat
  then Raise (ValueError "interp on an empty axis")
  else
    Ok {| coord_y := ys;
          coord_x := xs;
          values := map (fun qy => map (fun qx => interp_kernel lib a qx qy) xs) ys;
          chunked := false |}.

(** ** xarray.Dataset *)

Record DataVariable : Type := {
  var_values : list (list npfloat);
  var_chunked : bool
}.

(** Named variables under one set of coordinates. *)
Record Dataset : Type := {
  ds_y : list Q;
  ds_x : list Q;
  data_vars : gmap string DataVariable
}.

Definition as_variable (a : DataArray) : DataVariable :=
  {| var_values := values a; var_chunked := chunked a |}.

(** [xr.Dataset({n1: a, n2: b})]: the two arrays are aligned (outer join)
    and stored under the joined coordinates. *)
Definition xr_Dataset (n1 : string) (a : DataArray) (n2 : string) (b : DataArray)
    : result Dataset :=
  ab ← align outer_join a b;
  Ok {| ds_y := coord_y ab.1;
        ds_x := coord_x ab.1;
        data_vars := <[n2 := as_variable ab.2]> (<[n1 := as_variable ab.1]> ∅) |}.

(** [ds[name]] *)
Definition getitem (ds : Dataset) (name : string) : result DataArray :=
  match data_vars ds !! name with
  | Some v =>
      Ok {| coord_y := ds_y ds;
            coord_x := ds_x ds;
            values := var_values v;
            chunked := var_chunked v |}
  | None => Raise (KeyError name)
  end.

(** ** Binned group-by and mean *)

(** The bins [pandas.cut] forms from a list of edges: consecutive pairs,
    each open on the left and closed on the right. *)
Fixpoint bins_of (edges : list Q) : list (Q * Q) :=
  match edges with
  | [] => []
  | lo :: rest =>
      match rest with
      | [] => []
      | hi :: _ => (lo, hi) :: bins_of rest
      end
  end.

Definition in_bin (b : Q * Q) (q : Q) : bool :=
  negb (Qle_bool q b.1) && Qle_bool q b.2.

Fixpoint increasing (l : list Q) : bool :=
  match l with
  | [] => true
  | p :: rest =>
      match rest with
      | [] => true
      | q :: _ => negb (Qle_bool q p) && increasing rest
      end
  end.

(** Positions of the labels that fall in a bin. *)
Definition members (b : Q * Q) (labels : list Q) : list nat :=
  List.filter (fun j => in_bin b (nth j labels 0)) (seq 0 (length labels)).

(** Mean that skips [nan] cells; [nan] when nothing is left. *)
Definition nanmean (l : list npfloat) : npfloat :=
  let kept := List.filter (fun v => negb (is_nan v)) l in
  match kept with
  | [] => NaN
  | _ => fdiv (fold_right fadd (Fin 0) kept) (Fin (inject_Z (Z.of_nat (length kept))))
  end.

(** [da.groupby_bins('x', edges, labels=labels).mean(dim='x')]: one column
    per bin, named by the bin's entry in [labels]; a bin that holds no x
    label is a column of [nan], x labels in no bin are dropped, and when
    no x label falls in any bin the call raises. *)
Definition groupby_bins_mean_x (a : DataArray) (edges labels : list Q)
    : result DataArray :=
  if negb (increasing edges)
  then Raise (ValueError "bins must increase monotonically")
  else if negb (length labels =? length (bins_of edges))%nat
  then Raise (ValueError "Bin labels must be one fewer than the number of bin edges")
  else
    let groups :=
      map (fun bl => (snd bl, members (fst bl) (coord_x a)))
          (combine (bins_of edges) labels) in
    if forallb (fun g => (length (snd g) =? 0)%nat) groups
    then Raise (ValueError "None of the data falls within bins with edges")
    else
      Ok {| coord_y := coord_y a;
            coord_x := map fst groups;
            values :=
              map (fun row =>
                     map (fun g => nanmean (map (fun j => nth j row NaN) (snd g)))
                         groups)
                  (values a);
            chunked := chunked a |}.

Definition transpose (a : DataArray) : DataArray :=
  {| coord_y := coord_x a;
     coord_x := coord_y a;
     values :=
       map (fun j => map (fun row => nth j row NaN) (values a))
           (seq 0 (length (coord_x a)));
     chunked := chunked a |}.

Definition groupby_bins_mean_y (a : DataArray) (edges labels : list Q)
    : result DataArray :=
  t ← groupby_bins_mean_x (transpose a) edges labels;
  Ok (transpose t).

(** [a[:-1]] *)
Definition but_last (l : list Q) : list Q := firstn (length l - 1) l.

(** ** The notebook's expressions

    One definition per assigned name, a function of the names its right
    hand side reads. *)
Module Notebook.

Definition NDVI_1988 (landsat_5_da : BandArray) : result DataArray :=
  nir ← sel landsat_5_da 4;
  red ← sel landsat_5_da 3;
  num ← da_sub nir red;
  nir' ← sel landsat_5_da 4;
  red' ← sel landsat_5_da 3;
  den ← da_add nir' red';
  da_div num den.

Definition NDVI_2017 (landsat_8_da : BandArray) : result DataArray :=
  nir ← sel landsat_8_da 5;
  red ← sel landsat_8_da 4;
  num ← da_sub nir red;
  nir' ← sel landsat_8_da 5;
  red' ← sel landsat_8_da 4;
  den ← da_add nir' red';
  da_div num den.

Definition diff (NDVI_2017 NDVI_1988 : DataArray) : result DataArray :=
  da_sub NDVI_2017 NDVI_1988.

Definition lon : Q := - (1187081 # 10000).
Definition lat : Q := 386942 # 10000.

Definition buffer : Q := 15000.

Definition xmin (x_center : Q) : Q := x_center - buffer.
Definition xmax (x_center : Q) : Q := x_center + buffer.
Definition ymin (y_center : Q) : Q := y_center - buffer.
Definition ymax (y_center : Q) : Q := y_center + buffer.

Definition bounding_box (x_center y_center : Q) : list (list (list Q)) :=
  [[[xmin x_center; ymin y_center];
    [xmin x_center; ymax y_center];
    [xmax x_center; ymax y_center];
    [xmax x_center; ymin y_center]]].

Definition res : Q := 200.

Definition x (xmin xmax res : Q) : result (list Q) := arange xmin xmax res.
Definition y (ymin ymax res : Q) : result (list Q) := arange ymin ymax res.

Definition NDVI_2017_regridded (lib : Library) (NDVI_2017 : DataArray)
    (x y : list Q) : result DataArray :=
  interp lib NDVI_2017 x y.

Definition NDVI_1988_regridded (lib : Library) (NDVI_1988 : DataArray)
    (x y : list Q) : result DataArray :=
  interp lib NDVI_1988 x y.

Definition ds_regridded (NDVI_1988_regridded NDVI_2017_regridded : DataArray)
    : result Dataset :=
  xr_Dataset "NDVI_1988" NDVI_1988_regridded "NDVI_2017" NDVI_2017_regridded.

Definition diff_regridded (ds_regridded : Dataset) : result DataArray :=
  a ← getitem ds_regridded "NDVI_2017";
  b ← getitem ds_regridded "NDVI_1988";
  da_sub a b.

Definition res_1000 : Q := 1000.

(** The step both calls read is [res], as in the cell; [res_1000] is
    assigned just above and read nowhere. *)
Definition x_1000 (xmin xmax res : Q) : result (list Q) := arange xmin xmax res.
Definition y_1000 (ymin ymax res : Q) : result (list Q) := arange ymin ymax res.

(** [x[:-1]] and [y[:-1]] are the labels: the grid of the regridding step
    without its last coordinate. *)
Definition diff_res_1000 (diff_regridded : DataArray)
    (x y x_1000 y_1000 : list Q) : result DataArray :=
  gx ← groupby_bins_mean_x diff_regridded x_1000 (but_last x);
  groupby_bins_mean_y gx y_1000 (but_last y).

End Notebook.

(** ** Double precision

    The cells above compute with exact rationals.  The kernel computes
    with binary64: every operation returns the exact result rounded to the
    nearest double, ties to the even mantissa.  This section gives the
    rounding and, in [Binary64], the box and the grid under it. *)

Definition pow2 (e : Z) : Q := 2 ^ e.

(** The binade of a non-zero rational: the [e] with [2^e <= |q| < 2^(e+1)]. *)
Definition binade (q : Q) : Z :=
  let d := (Z.log2 (Z.abs (Qnum q)) - Z.log2 (Zpos (Qden q)))%Z in
  if Qle_bool (pow2 d) (Qabs q) then d else (d - 1)%Z.

(** The weight of the last bit of a double near [q]: 52 bits below the
    binade, and never below the weight of the least subnormal. *)
Definition ulp_exponent (q : Q) : Z := Z.max (binade q - 52) (- 1074).

(** The nearest integer, a tie going to the even one. *)
Definition round_even (x : Q) : Z :=
  let f := Qfloor x in
  match Qcompare (x - inject_Z f) (1 # 2) with
  | Lt => f
  | Gt => (f + 1)%Z
  | Eq => if Z.even f then f else (f + 1)%Z
  end.

(** The multiple of the last-bit weight nearest to [q]. *)
Definition rounded (q : Q) : Q :=
  inject_Z (round_even (q / pow2 (ulp_exponent q))) * pow2 (ulp_exponent q).

(** The double nearest to [q]; beyond the largest double, an infinity. *)
Definition round64 (q : Q) : npfloat :=
  if Qeq_bool q 0 then Fin 0
  else if Qle_bool (pow2 1024) (Qabs (rounded q)) then signed_inf q
  else Fin (Qred (rounded q)).

Definition round_cell (v : npfloat) : npfloat :=
  match v with Fin q => round64 q | _ => v end.

Definition fmul (a b : npfloat) : npfloat :=
  match a, b with
  | NaN, _ | _, NaN => NaN
  | Fin p, Fin q => Fin (p * q)
  | Fin p, (PInf | NInf) =>
      if Qeq_bool p 0 then NaN else if Qle_bool 0 p then b else fneg b
  | (PInf | NInf), Fin q =>
      if Qeq_bool q 0 then NaN else if Qle_bool 0 q then a else fneg a
  | PInf, PInf | NInf, NInf => PInf
  | PInf, NInf | NInf, PInf => NInf
  end.

Definition is_zero (v : npfloat) : bool :=
  match v with Fin q => Qeq_bool q 0 | _ => false end.

Definition negative (v : npfloat) : bool :=
  match v with
  | Fin q => negb (Qle_bool 0 q)
  | NInf => true
  | PInf | NaN => false
  end.

Module Binary64.

Definition add (a b : npfloat) : npfloat := round_cell (fadd a b).
Definition sub (a b : npfloat) : npfloat := round_cell (fsub a b).
Definition mul (a b : npfloat) : npfloat := round_cell (fmul a b).
Definition div (a b : npfloat) : npfloat := round_cell (fdiv a b).

(** [1.5e4] *)
Definition buffer : npfloat := Fin 15000.

Definition xmin (x_center : npfloat) : npfloat := sub x_center buffer.
Definition xmax (x_center : npfloat) : npfloat := add x_center buffer.
Definition ymin (y_center : npfloat) : npfloat := sub y_center buffer.
Definition ymax (y_center : npfloat) : npfloat := add y_center buffer.

Definition bounding_box (x_center y_center : npfloat)
    : list (list (list npfloat)) :=
  [[[xmin x_center; ymin y_center];
    [xmin x_center; ymax y_center];
    [xmax x_center; ymax y_center];
    [xmax x_center; ymin y_center]]].

(** [200], converted to a double where it meets one. *)
Definition res : npfloat := Fin 200.

(** The largest array length, [2^63 - 1]. *)
Definition max_intp : Z := (2 ^ 63 - 1)%Z.

(** [np.arange(start, stop, step)] on doubles.  The length is the ceiling
    of the rounded quotient [(stop - start) / step]; when that quotient
    rounds to zero though the span is not zero, the length is 1, or 0 if
    the quotient is negative.  The first two values are [start] and
    [start + step], and the value at a later position [i] is
    [start + i * delta], where [delta] is the difference of the first two
    as computed.  A zero step raises in the division; a length that is not
    a number, does not fit an index, or makes an array of more bytes than
    an index can count, raises.  Memory is not modelled beyond that: any
    smaller array is granted. *)
Definition arange_length (span step quotient : npfloat) : result Z :=
  match quotient with
  | NaN => Raise (ValueError "arange: cannot compute length")
  | PInf | NInf =>
      Raise (OverflowError "arange: overflow while computing length")
  | Fin v =>
      if Qeq_bool v 0 && negb (is_zero span)
      then Ok (if xorb (negative span) (negative step) then 0 else 1)%Z
      else
        let len := Qceiling v in
        if (max_intp <? len)%Z || (len <? - max_intp - 1)%Z
        then Raise (OverflowError "arange: overflow while computing length")
        else Ok len
  end.

Definition arange (start stop step : npfloat) : result (list npfloat) :=
  if is_zero step then Raise ZeroDivisionError
  else
    let span := sub stop start in
    len ← arange_length span step (div span step);
    if (max_intp <? 8 * len)%Z
    then Raise (ValueError "Maximum allowed size exceeded")
    else
      let next := add start step in
      let delta := sub next start in
      Ok (map (fun i =>
                 match i with
                 | O => start
                 | S O => next
                 | _ => add start (mul (Fin (inject_Z (Z.of_nat i))) delta)
                 end)
            (seq 0 (Z.to_nat len))).

Definition x (xmin xmax res : npfloat) : result (list npfloat) :=
  arange xmin xmax res.
Definition y (ymin ymax res : npfloat) : result (list npfloat) :=
  arange ymin ymax res.

End Binary64.

(** ** The kernel's namespace and the cells *)

Inductive pyobj : Type :=
| PInt (z : Z)
| PFloat (q : Q)
| PNdarray (l : list Q)
| PBoxes (l : list (list (list Q)))
| PBands (a : BandArray)
| PArray (a : DataArray)
| PDataset (d : Dataset)
| PCatalog (c : Catalog)
| PCrs (c : Crs).

(** What a run leaves behind besides its variables, in order of
    occurrence. *)
Inductive event : Type :=
| EvOpen (path : string)
| EvLoad (name : string)
| EvInterp (name : string) (deferred : bool)
| EvRender (what : string).

Record state : Type := {
  globals : gmap string pyobj;
  trace : list event
}.

Definition initial : state := {| globals := ∅; trace := [] |}.

Definition assign (name : string) (o : pyobj) (st : state) : state :=
  {| globals := <[name := o]> (globals st); trace := trace st |}.

Definition emit (ev : event) (st : state) : state :=
  {| globals := globals st; trace := trace st ++ [ev] |}.

Definition lookup_var (st : state) (name : string) : result pyobj :=
  match globals st !! name with
  | Some o => Ok o
  | None => Raise (NameError name)
  end.

Definition get_number (st : state) (name : string) : result Q :=
  o ← lookup_var st name;
  match o with
  | PInt z => Ok (inject_Z z)
  | PFloat q => Ok q
  | _ => Raise (TypeError name)
  end.

Definition get_ndarray (st : state) (name : string) : result (list Q) :=
  o ← lookup_var st name;
  match o with PNdarray l => Ok l | _ => Raise (TypeError name) end.

Definition get_boxes (st : state) (name : string) : result (list (list (list Q))) :=
  o ← lookup_var st name;
  match o with PBoxes l => Ok l | _ => Raise (TypeError name) end.

Definition get_bands (st : state) (name : string) : result BandArray :=
  o ← lookup_var st name;
  match o with PBands a => Ok a | _ => Raise (TypeError name) end.

Definition get_array (st : state) (name : string) : result DataArray :=
  o ← lookup_var st name;
  match o with PArray a => Ok a | _ => Raise (TypeError name) end.

Definition get_dataset (st : state) (name : string) : result Dataset :=
  o ← lookup_var st name;
  match o with PDataset d => Ok d | _ => Raise (TypeError name) end.

Definition get_crs (st : state) (name : string) : result Crs :=
  o ← lookup_var st name;
  match o with PCrs c => Ok c | _ => Raise (TypeError name) end.

(** [a[i]] on a coordinate *)
Definition item (l : list Q) (i : nat) : result Q :=
  match l !! i with
  | Some q => Ok q
  | None => Raise IndexError
  end.

Definition cell := state -> result state.

Section Cells.

Variable lib : Library.

(** The imports and [hv.extension('bokeh', width=80)]: no name of the
    notebook's own is bound. *)
Definition cell_imports : cell := fun st => Ok st.

(** [cat = intake.open_catalog('../catalog.yml')] and the two
    [read_chunked()] calls. *)
Definition cell_load_data : cell := fun st =>
  cat ← open_catalog lib "../catalog.yml";
  let st := emit (EvOpen "../catalog.yml") (assign "cat" (PCatalog cat) st) in
  l5 ← read_chunked (landsat_5_small cat);
  let st := assign "landsat_5_da" (PBands l5) st in
  l8 ← read_chunked (landsat_8_small cat);
  Ok (assign "landsat_8_da" (PBands l8) st).

Definition cell_show_landsat_8 : cell := fun st =>
  _ ← get_bands st "landsat_8_da";
  Ok st.

Definition cell_NDVI_1988 : cell := fun st =>
  l5 ← get_bands st "landsat_5_da";
  v ← Notebook.NDVI_1988 l5;
  Ok (assign "NDVI_1988" (PArray v) st).

Definition cell_NDVI_2017 : cell := fun st =>
  l8 ← get_bands st "landsat_8_da";
  v ← Notebook.NDVI_2017 l8;
  Ok (assign "NDVI_2017" (PArray v) st).

Definition cell_diff : cell := fun st =>
  a ← get_array st "NDVI_2017";
  b ← get_array st "NDVI_1988";
  d ← Notebook.diff a b;
  let st := assign "diff" (PArray d) st in
  _ ← render lib "diff";
  Ok (emit (EvRender "diff") st).

Definition cell_diff_shape : cell := fun st =>
  _ ← get_array st "diff";
  Ok st.

(** [print(NDVI_1988.x[0].values)], [print(NDVI_2017.x[0].values)] *)
Definition cell_first_x : cell := fun st =>
  a ← get_array st "NDVI_1988";
  _ ← item (coord_x a) 0;
  b ← get_array st "NDVI_2017";
  _ ← item (coord_x b) 0;
  Ok st.

(** [print((NDVI_1988.x[1] - NDVI_1988.x[0]).values)], likewise for 2017 *)
Definition cell_resolution : cell := fun st =>
  a ← get_array st "NDVI_1988";
  _ ← item (coord_x a) 1;
  _ ← item (coord_x a) 0;
  b ← get_array st "NDVI_2017";
  _ ← item (coord_x b) 1;
  _ ← item (coord_x b) 0;
  Ok st.

Definition cell_show_crs : cell := fun st =>
  _ ← get_bands st "landsat_8_da";
  Ok st.

Definition cell_crs : cell := fun st =>
  l8 ← get_bands st "landsat_8_da";
  c ← proj_to_cartopy lib (crs_attr l8);
  Ok (assign "crs" (PCrs c) st).

Definition cell_center : cell := fun st =>
  c ← get_crs st "crs";
  p ← transform_point lib c Notebook.lon Notebook.lat;
  Ok (assign "y_center" (PFloat p.2) (assign "x_center" (PFloat p.1) st)).

Definition cell_bounding_box : cell := fun st =>
  let st := assign "buffer" (PFloat Notebook.buffer) st in
  xc ← get_number st "x_center";
  let st := assign "xmin" (PFloat (Notebook.xmin xc)) st in
  xc ← get_number st "x_center";
  let st := assign "xmax" (PFloat (Notebook.xmax xc)) st in
  yc ← get_number st "y_center";
  let st := assign "ymin" (PFloat (Notebook.ymin yc)) st in
  yc ← get_number st "y_center";
  let st := assign "ymax" (PFloat (Notebook.ymax yc)) st in
  x0 ← get_number st "xmin";
  y0 ← get_number st "ymin";
  x1 ← get_number st "xmax";
  y1 ← get_number st "ymax";
  Ok (assign "bounding_box"
        (PBoxes [[[x0; y0]; [x0; y1]; [x1; y1]; [x1; y0]]]) st).

Definition cell_show_box : cell := fun st =>
  _ ← get_boxes st "bounding_box";
  _ ← get_crs st "crs";
  _ ← render lib "bounding_box";
  Ok (emit (EvRender "bounding_box") st).

Definition cell_grid : cell := fun st =>
  let st := assign "res" (PInt 200) st in
  x0 ← get_number st "xmin";
  x1 ← get_number st "xmax";
  r ← get_number st "res";
  xs ← Notebook.x x0 x1 r;
  let st := assign "x" (PNdarray xs) st in
  y0 ← get_number st "ymin";
  y1 ← get_number st "ymax";
  r ← get_number st "res";
  ys ← Notebook.y y0 y1 r;
  Ok (assign "y" (PNdarray ys) st).

(** [NDVI_1988.load()], [NDVI_2017.load()]: the object each name is bound
    to is updated in place; the value the call returns is dropped. *)
Definition cell_load : cell := fun st =>
  a ← get_array st "NDVI_1988";
  let st := emit (EvLoad "NDVI_1988") (assign "NDVI_1988" (PArray (load a)) st) in
  b ← get_array st "NDVI_2017";
  Ok (emit (EvLoad "NDVI_2017") (assign "NDVI_2017" (PArray (load b)) st)).

Definition cell_interp : cell := fun st =>
  b ← get_array st "NDVI_2017";
  xs ← get_ndarray st "x";
  ys ← get_ndarray st "y";
  let st := emit (EvInterp "NDVI_2017" (chunked b)) st in
  rb ← Notebook.NDVI_2017_regridded lib b xs ys;
  let st := assign "NDVI_2017_regridded" (PArray rb) st in
  a ← get_array st "NDVI_1988";
  xs ← get_ndarray st "x";
  ys ← get_ndarray st "y";
  let st := emit (EvInterp "NDVI_1988" (chunked a)) st in
  ra ← Notebook.NDVI_1988_regridded lib a xs ys;
  Ok (assign "NDVI_1988_regridded" (PArray ra) st).

Definition cell_ds_regridded : cell := fun st =>
  a ← get_array st "NDVI_1988_regridded";
  b ← get_array st "NDVI_2017_regridded";
  ds ← Notebook.ds_regridded a b;
  Ok (assign "ds_regridded" (PDataset ds) st).

Definition cell_show_both : cell := fun st =>
  ds ← get_dataset st "ds_regridded";
  _ ← getitem ds "NDVI_1988";
  _ ← get_crs st "crs";
  _ ← render lib "1988";
  let st := emit (EvRender "1988") st in
  ds ← get_dataset st "ds_regridded";
  _ ← getitem ds "NDVI_2017";
  _ ← get_crs st "crs";
  _ ← render lib "2017";
  Ok (emit (EvRender "2017") st).

Definition cell_diff_regridded : cell := fun st =>
  ds ← get_dataset st "ds_regridded";
  d ← Notebook.diff_regridded ds;
  Ok (assign "diff_regridded" (PArray d) st).

Definition cell_show_diff_regridded : cell := fun st =>
  _ ← get_array st "diff_regridded";
  _ ← get_crs st "crs";
  _ ← render lib "diff_regridded";
  Ok (emit (EvRender "diff_regridded") st).

Definition cell_grid_1000 : cell := fun st =>
  let st := assign "res_1000" (PFloat Notebook.res_1000) st in
  x0 ← get_number st "xmin";
  x1 ← get_number st "xmax";
  r ← get_number st "res";
  xs ← Notebook.x_1000 x0 x1 r;
  let st := assign "x_1000" (PNdarray xs) st in
  y0 ← get_number st "ymin";
  y1 ← get_number st "ymax";
  r ← get_number st "res";
  ys ← Notebook.y_1000 y0 y1 r;
  Ok (assign "y_1000" (PNdarray ys) st).

Definition cell_resample : cell := fun st =>
  d ← get_array st "diff_regridded";
  xe ← get_ndarray st "x_1000";
  xs ← get_ndarray st "x";
  ye ← get_ndarray st "y_1000";
  ys ← get_ndarray st "y";
  r ← Notebook.diff_res_1000 d xs ys xe ye;
  Ok (assign "diff_res_1000" (PArray r) st).

(** The last code cell holds a comment only. *)
Definition cell_exercise : cell := fun st => Ok st.

(** The code cells in notebook order. *)
Definition cells : list cell :=
  [ cell_imports; cell_load_data; cell_show_landsat_8; cell_NDVI_1988;
    cell_NDVI_2017; cell_diff; cell_diff_shape; cell_first_x;
    cell_resolution; cell_show_crs; cell_crs; cell_center;
    cell_bounding_box; cell_show_box; cell_grid; cell_load; cell_interp;
    cell_ds_regridded; cell_show_both; cell_diff_regridded;
    cell_show_diff_regridded; cell_grid_1000; cell_resample; cell_exercise ].

End Cells.

(** Running cells top to bottom: the first exception ends the run and is
    its outcome. *)
Fixpoint run_cells (cs : list cell) (st : state) : result state :=
  match cs with
  | [] => Ok st
  | c :: rest => st' ← c st; run_cells rest st'
  end.

Definition run (lib : Library) : result state := run_cells (cells lib) initial.

(** ** A sample catalog and library

    Two small rasters on different grids around the lake, and a library
    whose [interp] is piecewise linear.  They serve to run the cells on
    concrete data. *)
Module Sample.

(** [q * v] for a finite weight [q]. *)
Definition fscale (q : Q) (v : npfloat) : npfloat :=
  match v with
  | Fin p => Fin (q * p)
  | PInf => if Qeq_bool q 0 then NaN else signed_inf q
  | NInf => if Qeq_bool q 0 then NaN else fneg (signed_inf q)
  | NaN => NaN
  end.

(** Linear interpolation along one ascending axis; [nan] outside it. *)
Fixpoint lin1d (labels : list Q) (vs : list npfloat) (q : Q) : npfloat :=
  match labels, vs with
  | l0 :: labels', v0 :: vs' =>
      match labels', vs' with
      | l1 :: _, v1 :: _ =>
          if Qle_bool l0 q && Qle_bool q l1
          then
            let t := (q - l0) / (l1 - l0) in
            fadd (fscale (1 - t) v0) (fscale t v1)
          else lin1d labels' vs' q
      | _, _ => if Qeq_bool l0 q then v0 else NaN
      end
  | _, _ => NaN
  end.

Definition linear_kernel (a : DataArray) (qx qy : Q) : npfloat :=
  lin1d (coord_y a) (map (fun row => lin1d (coord_x a) row qx) (values a)) qy.

Definition axis (start step : Q) (n : nat) : list Q :=
  map (fun i => start + inject_Z (Z.of_nat i) * step) (seq 0 n).

(** Band [b] holds [(b - 2)^2 * i + b * j] at row [i], column [j]: all
    bands are zero at the first pixel and positive elsewhere. *)
Definition plane (b : Z) (rows cols : nat) : list (list npfloat) :=
  map (fun i =>
         map (fun j =>
                Fin (inject_Z ((b - 2) * (b - 2) * Z.of_nat i + b * Z.of_nat j)))
             (seq 0 cols))
      (seq 0 rows).

Definition raster (bands : list Z) (y0 dy : Q) (rows : nat)
    (x0 dx : Q) (cols : nat) : BandArray :=
  {| coord_band := bands;
     band_y := axis y0 dy rows;
     band_x := axis x0 dx cols;
     planes := map (fun b => plane b rows cols) bands;
     band_chunked := false;
     crs_attr := "+init=epsg:32611" |}.

Definition landsat_5 : BandArray :=
  raster [1; 2; 3; 4; 5; 7]%Z 4260000 10000 6 330000 10000 5.

Definition landsat_8 : BandArray :=
  raster [1; 2; 3; 4; 5; 6; 7; 9]%Z 4260000 8000 7 330000 8000 6.

Definition catalog : Catalog :=
  {| landsat_5_small := Ok landsat_5; landsat_8_small := Ok landsat_8 |}.

Definition library : Library :=
  {| open_catalog := fun path =>
       if String.eqb path "../catalog.yml" then Ok catalog
       else Raise (FileNotFoundError path);
     proj_to_cartopy := fun s => Ok {| proj4 := s |};
     transform_point := fun _ _ _ => Ok (351453, 4284177);
     interp_kernel := linear_kernel;
     render := fun _ => Ok tt |}.

(** The same library without the catalog file. *)
Definition library_without_catalog : Library :=
  {| open_catalog := fun path => Raise (FileNotFoundError path);
     proj_to_cartopy := proj_to_cartopy library;
     transform_point := transform_point library;
     interp_kernel := interp_kernel library;
     render := render library |}.

(** Two small in-memory index arrays on different grids, and a namespace
    that holds them with a three by two grid. *)
Definition ndvi_88 : DataArray :=
  {| coord_y := [0; 10];
     coord_x := [0; 10; 20];
     values := [[Fin (1 # 2); Fin (1 # 4); NaN];
                [Fin (1 # 8); Fin 0; Fin (- (1 # 2))]];
     chunked := false |}.

Definition ndvi_17 : DataArray :=
  {| coord_y := [0; 8; 16];
     coord_x := [0; 8; 16];
     values := [[Fin (1 # 4); Fin (1 # 4); Fin (1 # 3)];
                [Fin (1 # 5); Fin (1 # 8); Fin 0];
                [Fin 0; Fin (- (1 # 4)); Fin (1 # 2)]];
     chunked := false |}.

Definition loaded : state :=
  assign "y" (PNdarray [0; 5])
    (assign "x" (PNdarray [0; 5; 10])
       (assign "NDVI_2017" (PArray ndvi_17)
          (assign "NDVI_1988" (PArray ndvi_88) initial))).

(** Two regridded arrays on one grid, and a namespace that holds them. *)
Definition regridded_88 : DataArray :=
  {| coord_y := [0; 5];
     coord_x := [0; 5; 10];
     values := [[Fin (1 # 2); Fin (3 # 8); Fin (1 # 4)];
                [Fin (5 # 16); Fin (7 # 32); Fin (1 # 8)]];
     chunked := false |}.

Definition regridded_17 : DataArray :=
  {| coord_y := [0; 5];
     coord_x := [0; 5; 10];
     values := [[Fin (1 # 4); Fin (1 # 4); Fin (13 # 48)];
                [Fin (7 # 32); Fin (1 # 5); NaN]];
     chunked := false |}.

Definition regridded : state :=
  assign "NDVI_1988_regridded" (PArray regridded_88)
    (assign "NDVI_2017_regridded" (PArray regridded_17) initial).

(** An array with a single row. *)
Definition one_row : DataArray :=
  {| coord_y := [0];
     coord_x := [0; 5; 10];
     values := [[Fin (1 # 4); Fin (1 # 4); Fin (13 # 48)]];
     chunked := false |}.

End Sample.

(** ** The code cells as syntax

    The statements of the notebook as Python's [ast] module parses them,
    for the properties that are about the shape of the code. *)
Module Syntax.

#[local] Set Warnings "-register-all".

Inductive operator : Type := Add | Sub | Mult | Div.

Inductive expr : Type :=
| Name (id : string)
| IntLit (z : Z)
| FloatLit (q : Q)
| Str (s : string)
| Attribute (value : expr) (attr : string)
| Call (func : expr) (args : list expr) (keywords : list (string * expr))
| BinOp (left : expr) (op : operator) (right : expr)
| USub (operand : expr)
| Subscript (value : expr) (index : expr)
| Slice (lower upper : option expr)
| ListLit (elts : list expr)
| TupleLit (elts : list expr)
| DictLit (items : list (expr * expr))
| IfExp (test body orelse : expr)
| BoolOp (values : list expr)
| Lambda (body : expr)
| Comprehension (elt iter : expr)
| Await (value : expr).

Inductive stmt : Type :=
| Import (module : string) (asname : option string)
| Assign (targets : list expr) (value : expr)
| Expr (value : expr)
| If (test : expr) (body orelse : list stmt)
| For (target iter : expr) (body : list stmt)
| While (test : expr) (body : list stmt)
| Try (body : list stmt) (handlers : list (list stmt)) (finalbody : list stmt)
| With (item : expr) (body : list stmt)
| RaiseStmt (exc : expr)
| FunctionDef (name : string) (body : list stmt)
| ClassDef (name : string) (body : list stmt)
| Global (names : list string).

Definition attr2 (a b : string) : expr := Attribute (Name a) b.

(** [da.sel(band=b)] *)
Definition sel_band (da : string) (b : Z) : expr :=
  Call (attr2 da "sel") [] [("band", IntLit b)].

(** [(da.sel(band=nir) - da.sel(band=red)) / (da.sel(band=nir) + da.sel(band=red))] *)
Definition ndvi_expr (da : string) (nir red : Z) : expr :=
  BinOp (BinOp (sel_band da nir) Sub (sel_band da red)) Div
        (BinOp (sel_band da nir) Add (sel_band da red)).

(** [e.hvplot.image(x='x', y='y', ...)] *)
Definition hvplot_image (e : expr) (keywords : list (string * expr)) : expr :=
  Call (Attribute (Attribute e "hvplot") "image") []
       ([("x", Str "x"); ("y", Str "y")] ++ keywords).

Definition clim (lo hi : expr) : string * expr := ("clim", TupleLit [lo; hi]).

Definition arange_call (lo hi step : string) : expr :=
  Call (attr2 "np" "arange") [Name lo; Name hi; Name step] [].

Definition notebook : list (list stmt) :=
  [ [ Import "intake" None;
      Import "numpy" (Some "np");
      Import "xarray" (Some "xr");
      Import "holoviews" (Some "hv");
      Import "cartopy.crs" (Some "ccrs");
      Import "geoviews" (Some "gv");
      Import "hvplot.xarray" None;
      Expr (Call (attr2 "hv" "extension") [Str "bokeh"] [("width", IntLit 80)]) ];
    [ Assign [Name "cat"]
        (Call (attr2 "intake" "open_catalog") [Str "../catalog.yml"] []);
      Assign [Name "landsat_5_da"]
        (Call (Attribute (attr2 "cat" "landsat_5_small") "read_chunked") [] []);
      Assign [Name "landsat_8_da"]
        (Call (Attribute (attr2 "cat" "landsat_8_small") "read_chunked") [] []) ];
    [ Expr (Name "landsat_8_da") ];
    [ Assign [Name "NDVI_1988"] (ndvi_expr "landsat_5_da" 4 3);
      Expr (Name "NDVI_1988") ];
    [ Assign [Name "NDVI_2017"] (ndvi_expr "landsat_8_da" 5 4);
      Expr (Name "NDVI_2017") ];
    [ Assign [Name "diff"] (BinOp (Name "NDVI_2017") Sub (Name "NDVI_1988"));
      Expr (hvplot_image (Name "diff")
              [("width", IntLit 400); ("cmap", Str "coolwarm");
               clim (USub (IntLit 1)) (IntLit 1)]) ];
    [ Expr (attr2 "diff" "shape") ];
    [ Expr (Call (Name "print")
              [Attribute (Subscript (attr2 "NDVI_1988" "x") (IntLit 0)) "values"] []);
      Expr (Call (Name "print")
              [Attribute (Subscript (attr2 "NDVI_2017" "x") (IntLit 0)) "values"] []) ];
    [ Expr (Call (Name "print")
              [Attribute
                 (BinOp (Subscript (attr2 "NDVI_1988" "x") (IntLit 1)) Sub
                        (Subscript (attr2 "NDVI_1988" "x") (IntLit 0))) "values"] []);
      Expr (Call (Name "print")
              [Attribute
                 (BinOp (Subscript (attr2 "NDVI_2017" "x") (IntLit 1)) Sub
                        (Subscript (attr2 "NDVI_2017" "x") (IntLit 0))) "values"] []) ];
    [ Expr (attr2 "landsat_8_da" "crs") ];
    [ Assign [Name "crs"]
        (Call (Attribute (attr2 "gv" "util") "proj_to_cartopy")
              [attr2 "landsat_8_da" "crs"] []) ];
    [ Assign [TupleLit [Name "x_center"; Name "y_center"]]
        (Call (attr2 "crs" "transform_point")
              [USub (FloatLit (1187081 # 10000)); FloatLit (386942 # 10000);
               Call (attr2 "ccrs" "PlateCarree") [] []] []) ];
    [ Assign [Name "buffer"] (FloatLit 15000);
      Assign [Name "xmin"] (BinOp (Name "x_center") Sub (Name "buffer"));
      Assign [Name "xmax"] (BinOp (Name "x_center") Add (Name "buffer"));
      Assign [Name "ymin"] (BinOp (Name "y_center") Sub (Name "buffer"));
      Assign [Name "ymax"] (BinOp (Name "y_center") Add (Name "buffer"));
      Assign [Name "bounding_box"]
        (ListLit [ListLit [ListLit [Name "xmin"; Name "ymin"];
                           ListLit [Name "xmin"; Name "ymax"];
                           ListLit [Name "xmax"; Name "ymax"];
                           ListLit [Name "xmax"; Name "ymin"]]]) ];
    [ Expr (BinOp (Attribute (attr2 "gv" "tile_sources") "EsriImagery") Mult
              (Call (Attribute
                       (Call (attr2 "gv" "Polygons") [Name "bounding_box"]
                             [("crs", Name "crs")]) "options")
                    [] [("alpha", FloatLit (4 # 10))])) ];
    [ Assign [Name "res"] (IntLit 200);
      Assign [Name "x"] (arange_call "xmin" "xmax" "res");
      Assign [Name "y"] (arange_call "ymin" "ymax" "res") ];
    [ Expr (Call (attr2 "NDVI_1988" "load") [] []);
      Expr (Call (attr2 "NDVI_2017" "load") [] []) ];
    [ Assign [Name "NDVI_2017_regridded"]
        (Call (attr2 "NDVI_2017" "interp") [] [("x", Name "x"); ("y", Name "y")]);
      Assign [Name "NDVI_1988_regridded"]
        (Call (attr2 "NDVI_1988" "interp") [] [("x", Name "x"); ("y", Name "y")]) ];
    [ Assign [Name "ds_regridded"]
        (Call (attr2 "xr" "Dataset")
              [DictLit [(Str "NDVI_1988", Name "NDVI_1988_regridded");
                        (Str "NDVI_2017", Name "NDVI_2017_regridded")]] []);
      Expr (Name "ds_regridded") ];
    [ Expr (BinOp
              (Call (Attribute
                       (hvplot_image (attr2 "ds_regridded" "NDVI_1988")
                          [("crs", Name "crs"); ("width", IntLit 350);
                           clim (USub (IntLit 3)) (IntLit 1)]) "relabel")
                    [Str "1988"] [])
              Add
              (Call (Attribute
                       (hvplot_image (attr2 "ds_regridded" "NDVI_2017")
                          [("crs", Name "crs"); ("width", IntLit 350);
                           clim (USub (IntLit 3)) (IntLit 1)]) "relabel")
                    [Str "2017"] [])) ];
    [ Assign [Name "diff_regridded"]
        (BinOp (Subscript (Name "ds_regridded") (Str "NDVI_2017")) Sub
               (Subscript (Name "ds_regridded") (Str "NDVI_1988")));
      Expr (Name "diff_regridded") ];
    [ Expr (hvplot_image (Name "diff_regridded")
              [("crs", Name "crs"); ("width", IntLit 400);
               ("cmap", Str "coolwarm"); clim (USub (IntLit 1)) (IntLit 1)]) ];
    [ Assign [Name "res_1000"] (FloatLit 1000);
      Assign [Name "x_1000"] (arange_call "xmin" "xmax" "res");
      Assign [Name "y_1000"] (arange_call "ymin" "ymax" "res") ];
    [ Assign [Name "diff_res_1000"]
        (Call (Attribute
           (Call (Attribute
              (Call (Attribute
                 (Call (Attribute
                    (Call (Attribute
                       (Name "diff_regridded") "groupby_bins")
                       [Str "x"; Name "x_1000"]
                       [("labels", Subscript (Name "x") (Slice None (Some (USub (IntLit 1)))))])
                    "mean") [] [("dim", Str "x")])
                 "groupby_bins")
                 [Str "y"; Name "y_1000"]
                 [("labels", Subscript (Name "y") (Slice None (Some (USub (IntLit 1)))))])
              "mean") [] [("dim", Str "y")])
           "rename") [] [("x_bins", Str "x"); ("y_bins", Str "y")]);
      Expr (Name "diff_res_1000") ];
    [ ] ].

(** Expressions without a conditional, a short-circuit operator, a
    lambda, a comprehension or an await. *)
Fixpoint plain (e : expr) : bool :=
  match e with
  | Name _ | IntLit _ | FloatLit _ | Str _ => true
  | Attribute v _ => plain v
  | Call f args keywords =>
      plain f && forallb plain args && forallb (fun kw => plain (snd kw)) keywords
  | BinOp l _ r => plain l && plain r
  | USub v => plain v
  | Subscript v i => plain v && plain i
  | Slice lo hi =>
      match lo with Some v => plain v | None => true end
      && match hi with Some v => plain v | None => true end
  | ListLit elts | TupleLit elts => forallb plain elts
  | DictLit items => forallb (fun kv => plain (fst kv) && plain (snd kv)) items
  | IfExp _ _ _ | BoolOp _ | Lambda _ | Comprehension _ _ | Await _ => false
  end.

(** A simple statement: an import, an assignment or an expression
    statement, over plain expressions. *)
Definition straight_line (s : stmt) : bool :=
  match s with
  | Import _ _ => true
  | Assign targets value => forallb plain targets && plain value
  | Expr value => plain value
  | _ => false
  end.

(** Statements that catch, translate or raise an exception, at any
    depth: [try] (with its handlers and [finally]), [with] (a context
    manager may swallow an exception) and [raise]. *)
Fixpoint handles (s : stmt) : bool :=
  match s with
  | Try _ _ _ | With _ _ | RaiseStmt _ => true
  | If _ body orelse => existsb handles body || existsb handles orelse
  | For _ _ body | While _ body | FunctionDef _ body | ClassDef _ body =>
      existsb handles body
  | Import _ _ | Assign _ _ | Expr _ | Global _ => false
  end.

(** Names bound at the top level of a cell. *)
Fixpoint target_names (e : expr) : list string :=
  match e with
  | Name id => [id]
  | TupleLit elts | ListLit elts => flat_map target_names elts
  | _ => []
  end.

Definition bound_names (s : stmt) : list string :=
  match s with
  | Assign targets _ => flat_map target_names targets
  | _ => []
  end.

(** Names whose object a statement updates in place: the receiver of a
    [load()] call. *)
Definition loaded_names (s : stmt) : list string :=
  match s with
  | Expr (Call (Attribute (Name id) "load") _ _) => [id]
  | _ => []
  end.

Definition touched_names (s : stmt) : list string :=
  bound_names s ++ loaded_names s.

Definition imported (s : stmt) : list string :=
  match s with
  | Import module _ => [module]
  | _ => []
  end.

(** The name under which each call reaches its callee: the function name
    or the last attribute. *)
Fixpoint callees (e : expr) : list string :=
  match e with
  | Name _ | IntLit _ | FloatLit _ | Str _ => []
  | Attribute v _ => callees v
  | Call f args keywords =>
      match f with
      | Name id => [id]
      | Attribute v a => callees v ++ [a]
      | _ => callees f
      end
      ++ flat_map callees args
      ++ flat_map (fun kw => callees (snd kw)) keywords
  | BinOp l _ r => callees l ++ callees r
  | USub v => callees v
  | Subscript v i => callees v ++ callees i
  | Slice lo hi =>
      match lo with Some v => callees v | None => [] end
      ++ match hi with Some v => callees v | None => [] end
  | ListLit elts | TupleLit elts | BoolOp elts => flat_map callees elts
  | DictLit items => flat_map (fun kv => callees (fst kv) ++ callees (snd kv)) items
  | IfExp a b c => callees a ++ callees b ++ callees c
  | Lambda v | Await v => callees v
  | Comprehension a b => callees a ++ callees b
  end.

Definition stmt_callees (s : stmt) : list string :=
  match s with
  | Assign _ value | Expr value => callees value
  | _ => []
  end.

(** Modules of threads, processes, event loops and task schedulers. *)
Definition concurrency_modules : list string :=
  ["threading"; "multiprocessing"; "asyncio"; "concurrent.futures";
   "subprocess"; "queue"; "dask.distributed"; "distributed"].

(** Calls that write a file or other state that outlives the kernel, in
    Python and in the libraries the notebook imports. *)
Definition persisting_calls : list string :=
  ["open"; "write"; "writelines"; "save"; "savefig"; "dump"; "to_netcdf";
   "to_zarr"; "to_csv"; "to_file"; "to_pickle"; "mkdir"; "makedirs"].

Definition mentions (names : list string) (n : string) : bool :=
  existsb (String.eqb n) names.

End Syntax.

(** ** Vocabulary of the properties *)


(** The reference definition: NDVI = (NIR - Red) / (NIR + Red), on one
    pixel. *)
Definition ndvi_pixel (nir red : npfloat) : npfloat :=
  fdiv (fsub nir red) (fadd nir red).

(** [out] is the index array of the planes [nir] and [red]: it has a pixel
    exactly where both planes have one, and there it holds their NDVI. *)
Definition is_ndvi_of (out nir red : DataArray) : Prop :=
  forall i j : nat,
    pixel out i j
    = (n ← pixel nir i j; r ← pixel red i j; Some (ndvi_pixel n r)).

(** The division behind an index array [out] over the planes [nir] and
    [red]: a zero band sum yields a pixel that is not a finite number
    ([nan] when both bands are zero), and non-negative bands with a
    positive sum yield a pixel in [[-1, 1]]. *)
Definition unguarded_and_bounded (out nir red : DataArray) : Prop :=
  forall (i j : nat) (n r : Q),
    pixel nir i j = Some (Fin n) ->
    pixel red i j = Some (Fin r) ->
    (n + r == 0 ->
       exists v, pixel out i j = Some v
                 /\ is_finite v = false /\ (n == 0 -> v = NaN))
    /\ (0 <= n -> 0 <= r -> 0 < n + r ->
          exists q, pixel out i j = Some (Fin q) /\ - (1) <= q /\ q <= 1).

(** The index expression of the two NDVI cells, for any pair of bands. *)
Definition normalized_difference (da : BandArray) (b_nir b_red : Z)
    : result DataArray :=
  nir ← sel da b_nir;
  red ← sel da b_red;
  num ← da_sub nir red;
  nir' ← sel da b_nir;
  red' ← sel da b_red;
  den ← da_add nir' red';
  da_div num den.

(** Every name outside [names] is bound in [st'] as it was in [st]. *)
Definition only_binds (names : list string) (st st' : state) : Prop :=
  forall n : string, n ∉ names -> globals st' !! n = globals st !! n.

(** The names each code cell assigns or loads, read off the syntax. *)
Definition cell_names : list (list string) :=
  map (flat_map Syntax.touched_names) Syntax.notebook.

(** The events of each code cell when it returns. *)
Definition cell_events : list (list event) :=
  [ []; [EvOpen "../catalog.yml"]; []; []; []; [EvRender "diff"]; []; []; [];
    []; []; []; []; [EvRender "bounding_box"]; [];
    [EvLoad "NDVI_1988"; EvLoad "NDVI_2017"];
    [EvInterp "NDVI_2017" false; EvInterp "NDVI_1988" false];
    []; [EvRender "1988"; EvRender "2017"]; []; [EvRender "diff_regridded"];
    []; []; [] ].

Definition cell_effect (names : list string) (evs : list event) (c : cell) : Prop :=
  forall st st', c st = Ok st' ->
    only_binds names st st' /\ trace st' = trace st ++ evs.

(** The labels an axis of the result keeps are those both operands
    have. *)
Definition common_labels (la lb ld : list Q) : Prop :=
  (forall q, In q ld -> has_label q la = true /\ has_label q lb = true)
  /\ (forall q, In q la -> has_label q lb = true -> In q ld).

(** Names an expression reads, in Python's order of evaluation. *)
Fixpoint names_read (e : Syntax.expr) : list string :=
  match e with
  | Syntax.Name id => [id]
  | Syntax.IntLit _ | Syntax.FloatLit _ | Syntax.Str _ => []
  | Syntax.Attribute v _ => names_read v
  | Syntax.Call f args keywords =>
      names_read f ++ flat_map names_read args
      ++ flat_map (fun kw => names_read (snd kw)) keywords
  | Syntax.BinOp l _ r => names_read l ++ names_read r
  | Syntax.USub v => names_read v
  | Syntax.Subscript v i => names_read v ++ names_read i
  | Syntax.Slice lo hi =>
      match lo with Some v => names_read v | None => [] end
      ++ match hi with Some v => names_read v | None => [] end
  | Syntax.ListLit elts | Syntax.TupleLit elts | Syntax.BoolOp elts =>
      flat_map names_read elts
  | Syntax.DictLit items =>
      flat_map (fun kv => names_read (fst kv) ++ names_read (snd kv)) items
  | Syntax.IfExp a b c => names_read a ++ names_read b ++ names_read c
  | Syntax.Lambda v | Syntax.Await v => names_read v
  | Syntax.Comprehension a b => names_read b ++ names_read a
  end.

(** Names that are bound without any cell of the notebook assigning
    them: the import aliases and the built-in [print]. *)
Definition ambient_names : list string :=
  ["intake"; "np"; "xr"; "hv"; "ccrs"; "gv"; "hvplot"; "print"].

(** The first name a cell reads that neither the cell itself has assigned
    by then nor the imports provide: what the cell needs from the cells
    before it. *)
Fixpoint first_need (bound : list string) (body : list Syntax.stmt) : option string :=
  match body with
  | [] => None
  | s :: rest =>
      let reads :=
        match s with
        | Syntax.Assign _ value | Syntax.Expr value => names_read value
        | _ => []
        end in
      match List.filter (fun n => negb (Syntax.mentions bound n)) reads with
      | n :: _ => Some n
      | [] => first_need (Syntax.bound_names s ++ bound) rest
      end
  end.

Definition cell_needs : list (option string) :=
  map (first_need ambient_names) Syntax.notebook.

(** The position of the first cell that assigns [n]. *)
Fixpoint first_binder (n : string) (names : list (list string)) : option nat :=
  match names with
  | [] => None
  | ns :: rest =>
      if Syntax.mentions ns n then Some 0%nat else S <$> first_binder n rest
  end.

(** Equality of array cells: finite values as rationals, the special
    values as themselves. *)
Definition same_value (a b : npfloat) : Prop :=
  match a, b with
  | Fin p, Fin q => p == q
  | PInf, PInf | NInf, NInf | NaN, NaN => True
  | _, _ => False
  end.

(** The value of an array at a pair of labels. *)
Definition at_label (a : DataArray) (qy qx : Q) : option npfloat :=
  i ← index_of qy (coord_y a); j ← index_of qx (coord_x a); pixel a i j.

(** How an index pixel [q] reads the two bands [n] (NIR) and [r] (Red):
    zero when they are equal, 1 when Red is zero, -1 when NIR is zero,
    positive only when NIR exceeds Red and negative only when Red exceeds
    NIR. *)
Definition reads_bands (q n r : Q) : Prop :=
  (n == r -> q == 0) /\ (r == 0 -> q == 1) /\ (n == 0 -> q == - (1))
  /\ (0 < q -> r < n) /\ (q < 0 -> n < r).

(** An index array [out] over the planes [nir] and [red] reads the bands
    at every pixel whose bands are non-negative with a positive sum. *)
Definition index_reads_bands (out nir red : DataArray) : Prop :=
  forall (i j : nat) (n r : Q),
    pixel nir i j = Some (Fin n) -> pixel red i j = Some (Fin r) ->
    0 <= n -> 0 <= r -> 0 < n + r ->
    exists q, pixel out i j = Some (Fin q) /\ reads_bands q n r.

(** An axis as the interpolation is used on it: at least two labels, in
    strictly increasing or strictly decreasing order. *)
Definition monotonic_axis (l : list Q) : bool :=
  (2 <=? length l)%nat && (increasing l || increasing (rev l)).

(** The numbers binary64 holds: a mantissa below [2^53] at an exponent
    between those of the least subnormal and of the largest double. *)
Definition representable (q : Q) : Prop :=
  exists m e : Z,
    q == inject_Z m * pow2 e
    /\ (Z.abs m < 2 ^ 53)%Z /\ (- 1074 <= e <= 971)%Z.

(** A side of the box centred on [c]: the two bounds are finite, their
    midpoint is [c] and they are 3e4 apart. *)
Definition centered_side (lo hi : npfloat) (c : Q) : Prop :=
  exists a b : Q,
    lo = Fin a /\ hi = Fin b /\ (a + b) / 2 == c /\ b - a == 30000.

(** A bound of the box as computed is the exact bound [q] up to one
    rounding: within 2^-53 of it, relatively. *)
Definition rounds (v : npfloat) (q : Q) : Prop :=
  forall a : Q, v = Fin a -> pow2 (- 1022) <= Qabs q ->
    Qabs (a - q) <= Qabs q * pow2 (- 53).

(** A grid as C4 describes it: the coordinate at position [i] is the
    finite number [lo + 200 i], and lies in [[lo, hi)]. *)
Definition on_grid (lo hi : Q) (xs : list npfloat) : Prop :=
  forall (i : nat) (v : npfloat),
    xs !! i = Some v ->
    exists q : Q,
      v = Fin q /\ q == lo + inject_Z (Z.of_nat i) * 200 /\ lo <= q /\ q < hi.

(** Two bounds between which the arithmetic of the grid rounds nothing:
    both are doubles with one last-bit weight [2^e], at most 8, and they
    are less than [2^53] such weights apart. *)
Definition exact_span (lo hi : Q) : Prop :=
  exists a b e : Z,
    lo == inject_Z a * pow2 e /\ hi == inject_Z b * pow2 e
    /\ (Z.abs a < 2 ^ 53)%Z /\ (Z.abs b < 2 ^ 53)%Z /\ (b - a < 2 ^ 53)%Z
    /\ (- 1074 <= e <= 3)%Z.

(** The double nearest to 116542.2. *)
Definition center_116542_2 : Q := 8008719001662259 # 68719476736.

(** * Properties *)

(** ** Helper facts *)

Lemma lookup_assign_same (name : string) (o : pyobj) (st : state) :
  lookup_var (assign name o st) name = Ok o.
Proof. unfold lookup_var, assign; simpl. by rewrite lookup_insert_eq. Qed.

Lemma lookup_assign_other (name other : string) (o : pyobj) (st : state) :
  name ≠ other ->
  lookup_var (assign name o st) other = lookup_var st other.
Proof.
  intros Hne. unfold lookup_var, assign; simpl.
  by rewrite lookup_insert_ne.
Qed.

Lemma lookup_emit (ev : event) (st : state) (name : string) :
  lookup_var (emit ev st) name = lookup_var st name.
Proof. reflexivity. Qed.

Lemma lookup_var_Some (st : state) (name : string) (o : pyobj) :
  globals st !! name = Some o -> lookup_var st name = Ok o.
Proof. intros H. unfold lookup_var. by rewrite H. Qed.

(** Reads a variable back through the assignments made since. *)
Ltac read_vars :=
  repeat first
    [ rewrite lookup_emit
    | rewrite lookup_assign_same
    | rewrite lookup_assign_other by (intro; discriminate) ].

(** ** The regular grid *)

Lemma lookup_map {A B} (f : A -> B) (l : list A) (i : nat) :
  map f l !! i = f <$> (l !! i).
Proof.
  revert i. induction l as [|a l IH]; intros [|i]; simpl; try reflexivity.
  apply IH.
Qed.

Lemma lookup_seq_0 (n i : nat) :
  seq 0 n !! i = if decide (i < n)%nat then Some i else None.
Proof.
  case_decide as Hi.
  - by rewrite lookup_seq_lt.
  - apply lookup_seq_ge. lia.
Qed.








(** ** Rounding to double precision *)

Lemma pow2_pos (e : Z) : 0 < pow2 e.
Proof. apply Qpower_0_lt. reflexivity. Qed.

Lemma pow2_add (a b : Z) : pow2 (a + b) == pow2 a * pow2 b.
Proof. apply Qpower_plus. discriminate. Qed.

Lemma pow2_le (a b : Z) : (a <= b)%Z -> pow2 a <= pow2 b.
Proof. intros H. apply Qpower_le_compat_l; [exact H | discriminate]. Qed.

Lemma pow2_lt (a b : Z) : (a < b)%Z -> pow2 a < pow2 b.
Proof. intros H. apply Qpower_lt_compat_l; [exact H | reflexivity]. Qed.

Lemma pow2_lt_inv (a b : Z) : pow2 a < pow2 b -> (a < b)%Z.
Proof. intros H. apply (Qpower_lt_compat_l_inv 2); [exact H | reflexivity]. Qed.

Lemma pow2_Z (n : Z) : (0 <= n)%Z -> pow2 n == inject_Z (2 ^ n).
Proof. intros H. unfold pow2. by rewrite (Zpower_Qpower 2 n H). Qed.

Lemma pow2_sub (a b : Z) : pow2 (a - b) == pow2 a / pow2 b.
Proof.
  pose proof (pow2_pos b) as Hb.
  assert (E : pow2 a == pow2 (a - b) * pow2 b).
  { rewrite <- pow2_add. by replace (a - b + b)%Z with a by lia. }
  rewrite E. field. lra.
Qed.

Lemma inject_Z_lt (a b : Z) : (a < b)%Z -> inject_Z a < inject_Z b.
Proof. intros H. by rewrite <- Zlt_Qlt. Qed.

Lemma inject_Z_le (a b : Z) : (a <= b)%Z -> inject_Z a <= inject_Z b.
Proof. intros H. by rewrite <- Zle_Qle. Qed.

Lemma Qabs_frac (q : Q) :
  Qabs q == inject_Z (Z.abs (Qnum q)) / inject_Z (Zpos (Qden q)).
Proof. destruct q as [n d]. unfold Qabs. cbn [Qnum Qden]. apply Qmake_Qdiv. Qed.

(** A non-zero rational lies in its binade. *)
Lemma binade_spec (q : Q) :
  ~ q == 0 -> pow2 (binade q) <= Qabs q /\ Qabs q < pow2 (binade q + 1).
Proof.
  intros Hq.
  set (a := Z.abs (Qnum q)). set (b := Zpos (Qden q)).
  assert (Ha : (0 < a)%Z).
  { subst a. destruct q as [n d]. cbn [Qnum].
    assert (n <> 0)%Z; [|lia].
    intros ->. apply Hq. reflexivity. }
  assert (Hb : (0 < b)%Z) by (subst b; lia).
  destruct (Z.log2_spec a Ha) as [Ha1 Ha2].
  destruct (Z.log2_spec b Hb) as [Hb1 Hb2].
  pose proof (Z.log2_nonneg a) as Hla. pose proof (Z.log2_nonneg b) as Hlb.
  assert (Eabs : Qabs q == inject_Z a / inject_Z b) by apply Qabs_frac.
  assert (HbQ : 0 < inject_Z b) by (apply (inject_Z_lt 0); exact Hb).
  assert (Qa1 : pow2 (Z.log2 a) <= inject_Z a).
  { rewrite pow2_Z by assumption. by apply inject_Z_le. }
  assert (Qa2 : inject_Z a < pow2 (Z.log2 a + 1)).
  { rewrite pow2_Z by lia. apply inject_Z_lt.
    by replace (Z.log2 a + 1)%Z with (Z.succ (Z.log2 a)) by lia. }
  assert (Qb1 : pow2 (Z.log2 b) <= inject_Z b).
  { rewrite pow2_Z by assumption. by apply inject_Z_le. }
  assert (Qb2 : inject_Z b < pow2 (Z.log2 b + 1)).
  { rewrite pow2_Z by lia. apply inject_Z_lt.
    by replace (Z.log2 b + 1)%Z with (Z.succ (Z.log2 b)) by lia. }
  unfold binade. fold a b. set (d := (Z.log2 a - Z.log2 b)%Z).
  assert (Hup : Qabs q < pow2 (d + 1)).
  { rewrite Eabs. apply Qlt_shift_div_r; [exact HbQ|].
    apply Qlt_le_trans with (pow2 (Z.log2 a + 1)); [exact Qa2|].
    assert (E : pow2 (Z.log2 a + 1) == pow2 (d + 1) * pow2 (Z.log2 b)).
    { rewrite <- pow2_add. by replace (d + 1 + Z.log2 b)%Z with (Z.log2 a + 1)%Z
        by (subst d; lia). }
    rewrite E. apply Qmult_le_l; [apply pow2_pos | exact Qb1]. }
  assert (Hlo : pow2 (d - 1) <= Qabs q).
  { rewrite Eabs. apply Qle_shift_div_l; [exact HbQ|].
    apply Qle_trans with (pow2 (Z.log2 a)); [|exact Qa1].
    assert (E : pow2 (Z.log2 a) == pow2 (d - 1) * pow2 (Z.log2 b + 1)).
    { rewrite <- pow2_add. by replace (d - 1 + (Z.log2 b + 1))%Z with (Z.log2 a)
        by (subst d; lia). }
    rewrite E. apply Qmult_le_l; [apply pow2_pos|]. by apply Qlt_le_weak. }
  destruct (Qle_bool (pow2 d) (Qabs q)) eqn:E.
  - apply Qle_bool_iff in E. by split.
  - split; [exact Hlo|].
    replace (d - 1 + 1)%Z with d by lia.
    apply Qnot_le_lt. intros H. apply Qle_bool_iff in H. congruence.
Qed.

Lemma binade_lt (q : Q) (k : Z) : ~ q == 0 -> Qabs q < pow2 k -> (binade q < k)%Z.
Proof.
  intros Hq H. destruct (binade_spec q Hq) as [H1 _].
  apply pow2_lt_inv. by apply Qle_lt_trans with (Qabs q).
Qed.

Lemma binade_ge (q : Q) (k : Z) : ~ q == 0 -> pow2 k <= Qabs q -> (k <= binade q)%Z.
Proof.
  intros Hq H. destruct (binade_spec q Hq) as [_ H2].
  assert (k < binade q + 1)%Z; [|lia].
  apply pow2_lt_inv. by apply Qle_lt_trans with (Qabs q).
Qed.

Lemma ulp_exponent_le (q : Q) (e : Z) :
  ~ q == 0 -> Qabs q < pow2 (53 + e) -> (- 1074 <= e)%Z ->
  (ulp_exponent q <= e)%Z.
Proof.
  intros Hq H He. pose proof (binade_lt q _ Hq H). unfold ulp_exponent. lia.
Qed.

Lemma ulp_exponent_min (q : Q) : (- 1074 <= ulp_exponent q)%Z.
Proof. unfold ulp_exponent. lia. Qed.

(** The scaled value a rounding works on has at most 53 bits before the
    point. *)
Lemma scaled_lt (q : Q) :
  ~ q == 0 -> Qabs (q / pow2 (ulp_exponent q)) < inject_Z (2 ^ 53).
Proof.
  intros Hq. destruct (binade_spec q Hq) as [_ H].
  pose proof (pow2_pos (ulp_exponent q)) as Hp.
  unfold Qdiv. rewrite Qabs_Qmult, Qabs_Qinv, (Qabs_pos (pow2 _)) by lra.
  apply Qlt_shift_div_r; [exact Hp|].
  rewrite <- pow2_Z by lia. rewrite <- pow2_add.
  apply Qlt_le_trans with (pow2 (binade q + 1)); [exact H|].
  apply pow2_le. unfold ulp_exponent. lia.
Qed.

Lemma round_even_Z (x : Q) (m : Z) : x == inject_Z m -> round_even x = m.
Proof.
  intros E. unfold round_even.
  assert (Hf : Qfloor x = m) by (rewrite E; apply Qfloor_Z).
  rewrite Hf.
  assert (Hc : Qcompare (x - inject_Z m) (1 # 2) = Lt).
  { rewrite <- Qlt_alt. rewrite E. lra. }
  by rewrite Hc.
Qed.

Lemma round_even_floor (x : Q) :
  round_even x = Qfloor x \/ round_even x = (Qfloor x + 1)%Z.
Proof.
  unfold round_even.
  destruct (Qcompare _ _); [destruct (Z.even _)|..]; auto.
Qed.

Lemma round_even_le (x : Q) (m : Z) : x <= inject_Z m -> (round_even x <= m)%Z.
Proof.
  intros H. destruct (Qlt_le_dec x (inject_Z m)) as [Hlt | Hge].
  - assert (Qfloor x < m)%Z.
    { rewrite Zlt_Qlt. apply Qle_lt_trans with x; [apply Qfloor_le | exact Hlt]. }
    destruct (round_even_floor x); lia.
  - rewrite (round_even_Z x m); [lia|]. by apply Qle_antisym.
Qed.

Lemma round_even_ge (x : Q) (m : Z) : inject_Z m <= x -> (m <= round_even x)%Z.
Proof.
  intros H. assert (m <= Qfloor x)%Z.
  { rewrite <- (Qfloor_Z m). by apply Qfloor_resp_le. }
  destruct (round_even_floor x); lia.
Qed.

Lemma round_even_near (x : Q) : Qabs (inject_Z (round_even x) - x) <= 1 # 2.
Proof.
  pose proof (Qfloor_le x) as H1. pose proof (Qlt_floor x) as H2.
  rewrite inject_Z_plus in H2. change (inject_Z 1) with 1 in H2.
  apply Qabs_Qle_condition. unfold round_even. cbv zeta.
  destruct (Qcompare (x - inject_Z (Qfloor x)) (1 # 2)) eqn:E.
  - apply Qeq_alt in E.
    destruct (Z.even (Qfloor x)); rewrite ?inject_Z_plus;
      change (inject_Z 1) with 1; split; lra.
  - apply Qlt_alt in E. split; lra.
  - apply Qgt_alt in E. rewrite inject_Z_plus. change (inject_Z 1) with 1.
    split; lra.
Qed.

Lemma round64_unfold (q : Q) :
  ~ q == 0 ->
  round64 q
  = if Qle_bool (pow2 1024) (Qabs (rounded q)) then signed_inf q
    else Fin (Qred (rounded q)).
Proof.
  intros Hq. unfold round64.
  destruct (Qeq_bool q 0) eqn:E; [|reflexivity].
  apply Qeq_bool_iff in E. contradiction.
Qed.

Lemma round64_finite (q : Q) :
  ~ q == 0 -> Qabs (rounded q) < pow2 1024 ->
  round64 q = Fin (Qred (rounded q)).
Proof.
  intros Hq H. rewrite (round64_unfold q Hq).
  destruct (Qle_bool _ _) eqn:E; [|reflexivity].
  apply Qle_bool_iff in E. lra.
Qed.

(** Rounding returns a representable rational unchanged. *)
Lemma round64_exact (q : Q) (m e : Z) :
  q == inject_Z m * pow2 e ->
  (Z.abs m < 2 ^ 53)%Z -> (- 1074 <= e <= 971)%Z ->
  exists r, round64 q = Fin r /\ r == q.
Proof.
  intros Eq Hm He.
  destruct (Qeq_dec q 0) as [H0 | Hq].
  { exists 0. split; [|by rewrite H0].
    unfold round64. destruct (Qeq_bool q 0) eqn:E; [reflexivity|].
    apply Qeq_bool_neq in E. contradiction. }
  pose proof (pow2_pos e) as Hpe.
  assert (Habs : Qabs q < pow2 (53 + e)).
  { rewrite Eq, Qabs_Qmult, (Qabs_pos (pow2 e)) by lra.
    rewrite pow2_add. apply Qmult_lt_r; [exact Hpe|].
    rewrite pow2_Z by lia. change (Qabs (inject_Z m)) with (inject_Z (Z.abs m)).
    by apply inject_Z_lt. }
  pose proof (ulp_exponent_le q e Hq Habs ltac:(lia)) as Hu.
  set (u := ulp_exponent q) in *.
  pose proof (pow2_pos u) as Hpu.
  assert (Es : q / pow2 u == inject_Z (m * 2 ^ (e - u))).
  { rewrite inject_Z_mult, <- pow2_Z by lia. rewrite pow2_sub, Eq.
    field. lra. }
  assert (Er : rounded q == q).
  { unfold rounded. fold u. rewrite (round_even_Z _ _ Es), <- Es.
    field. lra. }
  exists (Qred (rounded q)). split; [|by rewrite Qred_correct].
  apply round64_finite; [exact Hq|]. rewrite Er.
  apply Qlt_le_trans with (pow2 (53 + e)); [exact Habs|].
  apply pow2_le. lia.
Qed.

(** Rounding keeps a rational between the integers around it. *)
Lemma round64_between (q : Q) (n1 n2 : Z) :
  inject_Z n1 <= q -> q <= inject_Z n2 ->
  (- 2 ^ 53 < n1)%Z -> (n2 < 2 ^ 53)%Z ->
  exists r, round64 q = Fin r /\ inject_Z n1 <= r /\ r <= inject_Z n2.
Proof.
  intros H1 H2 Hn1 Hn2.
  destruct (Qeq_dec q 0) as [H0 | Hq].
  { exists 0. split; [|by rewrite <- H0].
    unfold round64. destruct (Qeq_bool q 0) eqn:E; [reflexivity|].
    apply Qeq_bool_neq in E. contradiction. }
  assert (B1 : - inject_Z (2 ^ 53) < inject_Z n1).
  { rewrite <- inject_Z_opp. by apply inject_Z_lt. }
  assert (B2 : inject_Z n2 < inject_Z (2 ^ 53)) by (by apply inject_Z_lt).
  assert (Hu : (ulp_exponent q <= 0)%Z).
  { apply ulp_exponent_le; [exact Hq | | lia].
    rewrite pow2_Z by lia. apply Qabs_Qlt_condition.
    change (2 ^ (53 + 0))%Z with (2 ^ 53)%Z.
    set (T := inject_Z (2 ^ 53)) in *. clearbody T. split; lra. }
  set (u := ulp_exponent q) in *.
  pose proof (pow2_pos u) as Hpu.
  assert (Ek : forall n : Z, inject_Z n / pow2 u == inject_Z (n * 2 ^ (- u))).
  { intros n. rewrite inject_Z_mult, <- pow2_Z by lia.
    replace (- u)%Z with (0 - u)%Z by lia. rewrite pow2_sub.
    change (pow2 0) with 1. field. lra. }
  assert (Hk : forall n : Z, inject_Z (n * 2 ^ (- u)) * pow2 u == inject_Z n).
  { intros n. rewrite <- Ek. field. lra. }
  assert (Hlo : (n1 * 2 ^ (- u) <= round_even (q / pow2 u))%Z).
  { apply round_even_ge. rewrite <- Ek.
    unfold Qdiv. apply Qmult_le_compat_r; [exact H1|].
    apply Qlt_le_weak, Qinv_lt_0_compat, Hpu. }
  assert (Hhi : (round_even (q / pow2 u) <= n2 * 2 ^ (- u))%Z).
  { apply round_even_le. rewrite <- Ek.
    unfold Qdiv. apply Qmult_le_compat_r; [exact H2|].
    apply Qlt_le_weak, Qinv_lt_0_compat, Hpu. }
  assert (Rlo : inject_Z n1 <= rounded q).
  { rewrite <- (Hk n1). unfold rounded. fold u.
    apply Qmult_le_compat_r; [by apply inject_Z_le | lra]. }
  assert (Rhi : rounded q <= inject_Z n2).
  { rewrite <- (Hk n2). unfold rounded. fold u.
    apply Qmult_le_compat_r; [by apply inject_Z_le | lra]. }
  exists (Qred (rounded q)).
  split; [|by rewrite Qred_correct].
  apply round64_finite; [exact Hq|].
  apply Qlt_le_trans with (inject_Z (2 ^ 53)).
  - apply Qabs_Qlt_condition.
    set (T := inject_Z (2 ^ 53)) in *. clearbody T. split; lra.
  - rewrite <- pow2_Z by lia. apply pow2_le. lia.
Qed.

Lemma pow2_half (u : Z) : pow2 (u - 1) == (1 # 2) * pow2 u.
Proof.
  rewrite pow2_sub. change (pow2 1) with 2. field.
Qed.

(** The rounding error is at most half the weight of the last bit. *)
Lemma round64_near (q r : Q) :
  round64 q = Fin r ->
  Qabs (r - q) <= pow2 (ulp_exponent q - 1).
Proof.
  intros H. pose proof (pow2_pos (ulp_exponent q - 1)) as Hp.
  destruct (Qeq_dec q 0) as [H0 | Hq].
  { unfold round64 in H. destruct (Qeq_bool q 0) eqn:E.
    - injection H as <-.
      assert (E0 : Qabs (0 - q) == 0) by (rewrite H0; reflexivity).
      rewrite E0. lra.
    - apply Qeq_bool_neq in E. contradiction. }
  rewrite (round64_unfold q Hq) in H.
  destruct (Qle_bool _ _);
    [unfold signed_inf in H; destruct (Qle_bool 0 q); discriminate|].
  injection H as <-. rewrite Qred_correct. unfold rounded.
  set (u := ulp_exponent q) in *.
  pose proof (pow2_pos u) as Hpu.
  pose proof (round_even_near (q / pow2 u)) as Hn.
  assert (E : inject_Z (round_even (q / pow2 u)) * pow2 u - q
              == (inject_Z (round_even (q / pow2 u)) - q / pow2 u) * pow2 u).
  { field. lra. }
  rewrite E, Qabs_Qmult, (Qabs_pos (pow2 u)), pow2_half by lra.
  apply Qmult_le_compat_r; [exact Hn | lra].
Qed.

Lemma round_even_abs_le (x : Q) (n : Z) :
  Qabs x <= inject_Z n -> (Z.abs (round_even x) <= n)%Z.
Proof.
  intros H. apply Qabs_Qle_condition in H as [H1 H2].
  rewrite <- inject_Z_opp in H1.
  pose proof (round_even_le x n H2). pose proof (round_even_ge x (- n) H1). lia.
Qed.

Lemma round_even_abs_ge (x : Q) (n : Z) :
  inject_Z n <= Qabs x -> (n <= Z.abs (round_even x))%Z.
Proof.
  intros H. destruct (Qlt_le_dec x 0) as [Hneg | Hpos].
  - rewrite Qabs_neg in H by lra.
    assert (H' : x <= inject_Z (- n)) by (rewrite inject_Z_opp; lra).
    pose proof (round_even_le x (- n) H'). lia.
  - rewrite Qabs_pos in H by lra.
    pose proof (round_even_ge x n H). lia.
Qed.

(** What rounding returns is a double. *)
Lemma round64_representable (q r : Q) : round64 q = Fin r -> representable r.
Proof.
  intros H.
  destruct (Qeq_dec q 0) as [H0 | Hq].
  { unfold round64 in H. destruct (Qeq_bool q 0) eqn:E.
    - injection H as <-. exists 0%Z, 0%Z. split; [reflexivity|]. split; lia.
    - apply Qeq_bool_neq in E. contradiction. }
  rewrite (round64_unfold q Hq) in H.
  destruct (Qle_bool _ _) eqn:Ho;
    [unfold signed_inf in H; destruct (Qle_bool 0 q); discriminate|].
  injection H as <-.
  assert (Hfin : Qabs (rounded q) < pow2 1024).
  { apply Qnot_le_lt. intros Hle. apply Qle_bool_iff in Hle. congruence. }
  clear Ho. unfold rounded in *.
  set (u := ulp_exponent q) in *. set (m := round_even (q / pow2 u)) in *.
  pose proof (pow2_pos u) as Hpu.
  assert (Hm : (Z.abs m <= 2 ^ 53)%Z).
  { apply round_even_abs_le. apply Qlt_le_weak. by apply scaled_lt. }
  assert (Habs : Qabs (inject_Z m * pow2 u) == inject_Z (Z.abs m) * pow2 u).
  { rewrite Qabs_Qmult, (Qabs_pos (pow2 u)) by lra. reflexivity. }
  rewrite Habs in Hfin.
  assert (Hu : (- 1074 <= u)%Z) by apply ulp_exponent_min.
  destruct (Z.eq_dec (Z.abs m) (2 ^ 53)%Z) as [Etop | Hlt].
  - (* the mantissa reached the next binade *)
    assert (Hu' : (53 + u < 1024)%Z).
    { apply pow2_lt_inv. rewrite pow2_add, pow2_Z by lia. by rewrite <- Etop. }
    exists (Z.sgn m * 2 ^ 52)%Z, (u + 1)%Z. split; [|split; lia].
    rewrite Qred_correct, pow2_add. change (pow2 1) with 2.
    assert (Em : inject_Z m == inject_Z (Z.sgn m * 2 ^ 52) * 2).
    { rewrite <- (inject_Z_mult _ 2). apply inject_Z_injective. lia. }
    rewrite Em. ring.
  - exists m, u. split; [apply Qred_correct|]. split; [lia|].
    split; [exact Hu|].
    destruct (Z.eq_dec u (- 1074)%Z) as [E74 | Hnorm]; [lia|].
    assert (Eu : u = (binade q - 52)%Z) by (unfold u, ulp_exponent in *; lia).
    assert (H52 : (2 ^ 52 <= Z.abs m)%Z).
    { apply round_even_abs_ge.
      destruct (binade_spec q Hq) as [Hb _].
      unfold Qdiv. rewrite Qabs_Qmult, Qabs_Qinv, (Qabs_pos (pow2 u)) by lra.
      apply Qle_shift_div_l; [exact Hpu|].
      rewrite <- pow2_Z by lia. rewrite <- pow2_add.
      by replace (52 + u)%Z with (binade q) by lia. }
    assert (Hu' : (52 + u < 1024)%Z); [|lia].
    apply pow2_lt_inv. apply Qle_lt_trans with (inject_Z (Z.abs m) * pow2 u);
      [|exact Hfin].
    rewrite pow2_add, pow2_Z by lia.
    apply Qmult_le_compat_r; [by apply inject_Z_le | lra].
Qed.

Lemma representable_round64 (q : Q) :
  representable q -> exists r, round64 q = Fin r /\ r == q.
Proof. intros (m & e & E & Hm & He). by apply (round64_exact q m e). Qed.

Lemma representable_congr (p q : Q) : p == q -> representable p -> representable q.
Proof.
  intros E (m & e & Ep & H). exists m, e. split; [by rewrite <- E | exact H].
Qed.

(** ** The region of interest in double precision *)

Lemma bound_exact (c b : Q) (r : Q) :
  round64 (c + b) = Fin r -> (r == c + b <-> representable (c + b)).
Proof.
  intros H. split.
  - intros E. apply (representable_congr r); [exact E|].
    by apply (round64_representable (c + b)).
  - intros Hr. destruct (representable_round64 _ Hr) as (r' & H' & E).
    rewrite H in H'. by injection H' as ->.
Qed.

Lemma round64_relative (q r : Q) :
  round64 q = Fin r -> pow2 (- 1022) <= Qabs q ->
  Qabs (r - q) <= Qabs q * pow2 (- 53).
Proof.
  intros H Hn.
  assert (Hq : ~ q == 0).
  { intros E. rewrite E in Hn. pose proof (pow2_pos (- 1022)).
    change (Qabs 0) with 0 in Hn. lra. }
  pose proof (binade_ge q _ Hq Hn) as Hb.
  destruct (binade_spec q Hq) as [Hlo _].
  apply Qle_trans with (pow2 (ulp_exponent q - 1)); [by apply round64_near|].
  replace (ulp_exponent q - 1)%Z with (binade q + - 53)%Z
    by (unfold ulp_exponent; lia).
  rewrite pow2_add. apply Qmult_le_compat_r; [exact Hlo|].
  apply Qlt_le_weak, pow2_pos.
Qed.

Lemma centered_side_exact (c : Q) :
  centered_side (Binary64.xmin (Fin c)) (Binary64.xmax (Fin c)) c
  <-> representable (Notebook.xmin c) /\ representable (Notebook.xmax c).
Proof.
  change (Binary64.xmin (Fin c)) with (round64 (c + - 15000)).
  change (Binary64.xmax (Fin c)) with (round64 (c + 15000)).
  change (Notebook.xmin c) with (c + - 15000).
  change (Notebook.xmax c) with (c + 15000).
  split.
  - intros (a & b & Ha & Hb & Hmid & Hside).
    assert (Hsum : a + b == 2 * c) by (rewrite <- Hmid; field).
    assert (Ea : a == c + - 15000) by lra.
    assert (Eb : b == c + 15000) by lra.
    split.
    + by apply (bound_exact c (- 15000) a Ha).
    + by apply (bound_exact c 15000 b Hb).
  - intros [Hlo Hhi].
    destruct (representable_round64 _ Hlo) as (a & Ha & Ea).
    destruct (representable_round64 _ Hhi) as (b & Hb & Eb).
    exists a, b. split; [exact Ha|]. split; [exact Hb|].
    split; [rewrite Ea, Eb; field | lra].
Qed.

(** C3 (amended): the four bounds are the center moved by [buffer] = 1.5e4
    each way as binary64 computes it, and the corners are listed as
    (xmin,ymin), (xmin,ymax), (xmax,ymax), (xmax,ymin).  The box is
    centered on the point with sides of exactly 3e4 when, and only when,
    the four exact bounds are doubles; in any case each bound as computed
    is within one rounding of the exact one. *)
Theorem bounding_box_square_iff_exact (x_center y_center : Q) :
  Binary64.bounding_box (Fin x_center) (Fin y_center)
  = [[[Binary64.xmin (Fin x_center); Binary64.ymin (Fin y_center)];
      [Binary64.xmin (Fin x_center); Binary64.ymax (Fin y_center)];
      [Binary64.xmax (Fin x_center); Binary64.ymax (Fin y_center)];
      [Binary64.xmax (Fin x_center); Binary64.ymin (Fin y_center)]]]
  /\ (centered_side (Binary64.xmin (Fin x_center)) (Binary64.xmax (Fin x_center))
        x_center
      <-> representable (Notebook.xmin x_center)
          /\ representable (Notebook.xmax x_center))
  /\ (centered_side (Binary64.ymin (Fin y_center)) (Binary64.ymax (Fin y_center))
        y_center
      <-> representable (Notebook.ymin y_center)
          /\ representable (Notebook.ymax y_center))
  /\ rounds (Binary64.xmin (Fin x_center)) (Notebook.xmin x_center)
  /\ rounds (Binary64.xmax (Fin x_center)) (Notebook.xmax x_center)
  /\ rounds (Binary64.ymin (Fin y_center)) (Notebook.ymin y_center)
  /\ rounds (Binary64.ymax (Fin y_center)) (Notebook.ymax y_center).
Proof.
  split; [reflexivity|].
  split; [apply centered_side_exact|].
  split; [apply (centered_side_exact y_center)|].
  repeat split; intros a Ha Hn; by apply round64_relative.
Qed.

(** ** The grid in double precision *)

Lemma Qeq_bool_false (p q : Q) : ~ p == q <-> Qeq_bool p q = false.
Proof.
  split.
  - intros H. destruct (Qeq_bool p q) eqn:E; [|reflexivity].
    apply Qeq_bool_iff in E. contradiction.
  - apply Qeq_bool_neq.
Qed.

Lemma step_on_grid (e : Z) :
  (- 1074 <= e <= 3)%Z -> inject_Z (25 * 2 ^ (3 - e)) * pow2 e == 200.
Proof.
  intros He. rewrite inject_Z_mult, <- pow2_Z by lia.
  rewrite <- Qmult_assoc, <- pow2_add.
  replace (3 - e + e)%Z with 3%Z by lia. reflexivity.
Qed.

Lemma arange_exact (lo hi : Q) :
  exact_span lo hi -> lo < hi ->
  exists xs,
    Binary64.arange (Fin lo) (Fin hi) (Fin 200) = Ok xs
    /\ (Qfloor ((hi - lo) / 200) <= Z.of_nat (length xs)
        <= Qceiling ((hi - lo) / 200))%Z
    /\ (representable ((hi - lo) / 200) ->
          Z.of_nat (length xs) = Qceiling ((hi - lo) / 200))
    /\ on_grid lo hi xs.
Proof.
  intros (a & b & e & Ea & Eb & Ha & Hb & Hab & He) Hlt.
  pose proof (pow2_pos e) as Hpe.
  pose proof (step_on_grid e He) as Hstep.
  set (s := (25 * 2 ^ (3 - e))%Z) in *.
  assert (Hs : (0 < s)%Z) by (subst s; apply Z.mul_pos_pos; [lia | apply Z.pow_pos_nonneg; lia]).
  assert (Hab' : (a < b)%Z).
  { rewrite Zlt_Qlt. apply (Qmult_lt_r _ _ (pow2 e) Hpe). by rewrite <- Ea, <- Eb. }
  (* the span *)
  destruct (round64_exact (hi + - lo) (b - a) e) as (rd & Hrd & Erd);
    [rewrite Ea, Eb; unfold Zminus; rewrite inject_Z_plus, inject_Z_opp; ring
    | lia | lia |].
  assert (Hd56 : hi - lo < inject_Z (2 ^ 56)).
  { rewrite Ea, Eb.
    apply Qlt_le_trans with (inject_Z (2 ^ 53) * pow2 e).
    - assert (E : inject_Z b * pow2 e - inject_Z a * pow2 e
                  == inject_Z (b - a) * pow2 e)
        by (unfold Zminus; rewrite inject_Z_plus, inject_Z_opp; ring).
      rewrite E. apply Qmult_lt_r; [exact Hpe | by apply inject_Z_lt].
    - change (2 ^ 56)%Z with (2 ^ 53 * 2 ^ 3)%Z. rewrite inject_Z_mult.
      apply Qmult_le_l; [reflexivity|].
      rewrite <- pow2_Z by lia. apply pow2_le. lia. }
  (* the quotient and the length *)
  set (x := rd / 200).
  assert (Ex : x == (hi - lo) / 200) by (unfold x; rewrite Erd; field).
  assert (Hx0 : 0 < x) by (rewrite Ex; apply Qlt_shift_div_l; lra).
  assert (Hx52 : x <= inject_Z (2 ^ 52)).
  { rewrite Ex. apply Qle_shift_div_r; [reflexivity|].
    apply Qlt_le_weak, Qlt_le_trans with (inject_Z (2 ^ 56)); [exact Hd56|].
    vm_compute. discriminate. }
  assert (Hfl0 : (0 <= Qfloor x)%Z).
  { rewrite <- (Qfloor_Z 0). apply Qfloor_resp_le, Qlt_le_weak. exact Hx0. }
  assert (Hce52 : (Qceiling x <= 2 ^ 52)%Z).
  { rewrite <- (Qceiling_Z (2 ^ 52)). by apply Qceiling_resp_le. }
  pose proof (Qfloor_le x) as Hfl. pose proof (Qle_ceiling x) as Hce.
  destruct (round64_between x (Qfloor x) (Qceiling x) Hfl Hce ltac:(lia) ltac:(lia))
    as (v & Hv & Hv1 & Hv2).
  set (len := if Qeq_bool v 0 then 1%Z else Qceiling v).
  assert (Hc1 : (1 <= Qceiling x)%Z).
  { assert (0 < Qceiling x)%Z; [|lia]. rewrite Zlt_Qlt.
    apply Qlt_le_trans with x; [exact Hx0 | exact Hce]. }
  assert (Hlen1 : (Qfloor x <= len)%Z).
  { subst len. destruct (Qeq_bool v 0) eqn:Ev.
    - apply Qeq_bool_iff in Ev. rewrite Ev in Hv1.
      assert (Qfloor x <= 0)%Z; [|lia]. by rewrite Zle_Qle.
    - rewrite <- (Qceiling_Z (Qfloor x)). by apply Qceiling_resp_le. }
  assert (Hlen2 : (len <= Qceiling x)%Z).
  { subst len. destruct (Qeq_bool v 0); [exact Hc1|].
    rewrite <- (Qceiling_Z (Qceiling x)). by apply Qceiling_resp_le. }
  (* below the length, below the bound *)
  assert (K : forall i : nat, (Z.of_nat i < len)%Z -> inject_Z (Z.of_nat i) < x).
  { intros i Hi. subst len. destruct (Qeq_bool v 0) eqn:Ev.
    { replace i with 0%nat by lia. exact Hx0. }
    apply Qnot_le_lt. intros Hxi.
    destruct (round64_between x (Qfloor x) (Z.of_nat i) Hfl Hxi ltac:(lia) ltac:(lia))
      as (v' & Hv' & _ & Hv'2).
    rewrite Hv in Hv'. injection Hv' as <-.
    pose proof (Qceiling_lt v) as Hc.
    assert (inject_Z (Z.of_nat i) <= inject_Z (Qceiling v - 1))
      by (apply inject_Z_le; lia).
    lra. }
  assert (Kq : forall i : nat, (Z.of_nat i < len)%Z ->
                 lo + inject_Z (Z.of_nat i) * 200 < hi).
  { intros i Hi. pose proof (K i Hi) as Hk. rewrite Ex in Hk.
    assert (H200 : inject_Z (Z.of_nat i) * 200 < (hi - lo) / 200 * 200)
      by (apply Qmult_lt_r; [reflexivity | exact Hk]).
    assert (E : (hi - lo) / 200 * 200 == hi - lo) by field.
    rewrite E in H200. lra. }
  (* the coordinates are doubles *)
  assert (Egrid : forall i : nat,
            lo + inject_Z (Z.of_nat i) * 200
            == inject_Z (a + Z.of_nat i * s) * pow2 e).
  { intros i. rewrite inject_Z_plus, inject_Z_mult, Ea, <- Hstep. ring. }
  assert (Hman : forall i : nat, (Z.of_nat i < len)%Z ->
            (Z.abs (a + Z.of_nat i * s) < 2 ^ 53)%Z
            /\ (Z.of_nat i * s < 2 ^ 53)%Z).
  { intros i Hi. pose proof (Kq i Hi) as Hk. rewrite Egrid, Eb in Hk.
    apply Qmult_lt_r in Hk; [|exact Hpe]. rewrite <- Zlt_Qlt in Hk.
    assert (0 <= Z.of_nat i * s)%Z by (apply Z.mul_nonneg_nonneg; lia).
    lia. }
  exists (map (fun i : nat =>
                 match i with
                 | O => Fin lo
                 | S O => Binary64.add (Fin lo) (Fin 200)
                 | _ => Binary64.add (Fin lo)
                          (Binary64.mul (Fin (inject_Z (Z.of_nat i)))
                             (Binary64.sub (Binary64.add (Fin lo) (Fin 200)) (Fin lo)))
                 end) (seq 0 (Z.to_nat len))).
  split; [|split; [|split]].
  - assert (Hrd0 : 0 < rd) by (rewrite Erd; lra).
    assert (Hlen : Binary64.arange_length (Fin rd) (Fin 200) (Fin v) = Ok len).
    { unfold Binary64.arange_length, is_zero, negative. subst len.
      assert (Z1 : Qeq_bool rd 0 = false) by (apply Qeq_bool_false; lra).
      assert (Z2 : Qle_bool 0 rd = true) by (apply Qle_bool_iff; lra).
      rewrite Z1, Z2. change (Qle_bool 0 200) with true. cbn [negb xorb andb].
      destruct (Qeq_bool v 0) eqn:Ev; [reflexivity|]. cbn [andb].
      assert (T1 : (Binary64.max_intp <? Qceiling v)%Z = false).
      { apply Z.ltb_ge. unfold Binary64.max_intp. lia. }
      assert (T2 : (Qceiling v <? - Binary64.max_intp - 1)%Z = false).
      { apply Z.ltb_ge. unfold Binary64.max_intp. lia. }
      by rewrite T1, T2. }
    unfold Binary64.arange. change (is_zero (Fin 200)) with false. cbv zeta.
    change (Binary64.sub (Fin hi) (Fin lo)) with (round64 (hi + - lo)).
    rewrite Hrd.
    change (Binary64.div (Fin rd) (Fin 200)) with (round64 x).
    rewrite Hv, Hlen. cbn [mbind result_bind].
    assert (T3 : (Binary64.max_intp <? 8 * len)%Z = false).
    { apply Z.ltb_ge. unfold Binary64.max_intp. lia. }
    rewrite T3. reflexivity.
  - rewrite length_map, length_seq, Z2Nat.id by lia.
    rewrite <- Ex. lia.
  - intros Hrep. rewrite length_map, length_seq, Z2Nat.id by lia.
    assert (Hrx : representable x).
    { apply (representable_congr ((hi - lo) / 200)); [by rewrite Ex | exact Hrep]. }
    destruct (representable_round64 x Hrx) as (r & Hr & Er).
    rewrite Hv in Hr. injection Hr as <-.
    assert (Ev : Qeq_bool v 0 = false) by (apply Qeq_bool_false; lra).
    subst len. rewrite Ev. by rewrite Er, Ex.
  - intros i w Hw. rewrite lookup_map, lookup_seq_0 in Hw.
    case_decide as Hi; [|discriminate]. cbn [fmap option_fmap option_map] in Hw.
    injection Hw as <-.
    assert (Hi' : (Z.of_nat i < len)%Z) by lia.
    pose proof (Kq i Hi') as Hq.
    assert (Hnn : 0 <= inject_Z (Z.of_nat i) * 200).
    { apply Qmult_le_0_compat; [apply (inject_Z_le 0); lia | discriminate]. }
    destruct i as [|[|k]].
    + exists lo. split; [reflexivity|].
      assert (E : lo == lo + inject_Z (Z.of_nat 0) * 200)
        by (change (inject_Z (Z.of_nat 0)) with 0; ring).
      split; [exact E|]. split; lra.
    + destruct (Hman 1%nat Hi') as [Hm1 _].
      destruct (round64_exact (lo + 200) _ e (Egrid 1%nat) Hm1 ltac:(lia))
        as (r & Hr & Er).
      exists r. split; [exact Hr|].
      assert (E : r == lo + inject_Z (Z.of_nat 1) * 200)
        by (rewrite Er; change (inject_Z (Z.of_nat 1)) with 1; ring).
      split; [exact E|]. rewrite E. split; lra.
    + set (i := S (S k)) in *.
      assert (H1 : (Z.of_nat 1 < len)%Z) by lia.
      destruct (Hman 1%nat H1) as [Hm1 _].
      destruct (round64_exact (lo + 200) _ e (Egrid 1%nat) Hm1 ltac:(lia))
        as (rn & Hrn & Ern).
      change (Binary64.add (Fin lo) (Fin 200)) with (round64 (lo + 200)).
      rewrite Hrn.
      change (Binary64.sub (Fin rn) (Fin lo)) with (round64 (rn + - lo)).
      destruct (round64_exact (rn + - lo) 200 0) as (rs & Hrs & Ers);
        [rewrite Ern; change (pow2 0) with 1; ring | lia | lia |].
      rewrite Hrs.
      change (Binary64.mul (Fin (inject_Z (Z.of_nat i))) (Fin rs))
        with (round64 (inject_Z (Z.of_nat i) * rs)).
      destruct (Hman i Hi') as [Hmi Hsi].
      destruct (round64_exact (inject_Z (Z.of_nat i) * rs) (Z.of_nat i * s) e)
        as (rm & Hrm & Erm);
        [rewrite Ers, Ern, inject_Z_mult, <- Hstep; ring | lia | lia |].
      rewrite Hrm.
      change (Binary64.add (Fin lo) (Fin rm)) with (round64 (lo + rm)).
      destruct (round64_exact (lo + rm) (a + Z.of_nat i * s) e)
        as (r & Hr & Er);
        [rewrite Erm, Ers, Ern, <- Egrid; ring | exact Hmi | lia |].
      exists r. split; [exact Hr|].
      assert (E : r == lo + inject_Z (Z.of_nat i) * 200).
      { rewrite Er, Erm, Ers, Ern. ring. }
      split; [exact E|]. rewrite E. split; lra.
Qed.

(** C4 (amended): between bounds whose span is exact the grid is regular.
    When [xmin], [xmax] are doubles with one last-bit weight, at most 8,
    and less than [2^53] such weights apart (likewise [ymin], [ymax]), both
    [arange] calls return; [x] starts at [xmin] and [y] at [ymin], the
    coordinate at position [i] is the bound plus exactly [200 i], every
    coordinate lies in [[xmin, xmax)] (resp. [[ymin, ymax)]), and the
    number of coordinates is the quotient of the span by 200 rounded down
    or up: up, when the quotient is itself a double. *)
Theorem grid_regular_when_exact (xmin xmax ymin ymax : Q) :
  exact_span xmin xmax -> exact_span ymin ymax ->
  xmin < xmax -> ymin < ymax ->
  exists xs ys : list npfloat,
    Binary64.x (Fin xmin) (Fin xmax) Binary64.res = Ok xs
    /\ Binary64.y (Fin ymin) (Fin ymax) Binary64.res = Ok ys
    /\ on_grid xmin xmax xs
    /\ on_grid ymin ymax ys
    /\ (Qfloor ((xmax - xmin) / 200) <= Z.of_nat (length xs)
        <= Qceiling ((xmax - xmin) / 200))%Z
    /\ (Qfloor ((ymax - ymin) / 200) <= Z.of_nat (length ys)
        <= Qceiling ((ymax - ymin) / 200))%Z
    /\ (representable ((xmax - xmin) / 200) ->
          Z.of_nat (length xs) = Qceiling ((xmax - xmin) / 200))
    /\ (representable ((ymax - ymin) / 200) ->
          Z.of_nat (length ys) = Qceiling ((ymax - ymin) / 200)).
Proof.
  intros Hx Hy Hxlt Hylt.
  destruct (arange_exact xmin xmax Hx Hxlt) as (xs & Hxs & Hxl & Hxc & Hxg).
  destruct (arange_exact ymin ymax Hy Hylt) as (ys & Hys & Hyl & Hyc & Hyg).
  by exists xs, ys.
Qed.

(** ** The grid of the box *)

Lemma exact_center_box (c : Q) (m e : Z) :
  c == inject_Z m * pow2 e -> (- 1074 <= e <= 3)%Z ->
  (Z.abs m + 3750 * 2 ^ (3 - e) <= 2 ^ 53)%Z ->
  exists lo hi : Q,
    Binary64.xmin (Fin c) = Fin lo /\ Binary64.xmax (Fin c) = Fin hi
    /\ lo == c - 15000 /\ hi == c + 15000
    /\ exact_span lo hi.
Proof.
  intros Ec He Hm.
  set (k := (2 ^ (3 - e))%Z) in *.
  assert (Hk : (0 < k)%Z) by (subst k; apply Z.pow_pos_nonneg; lia).
  assert (Ek : inject_Z (1875 * k) * pow2 e == 15000).
  { subst k. rewrite inject_Z_mult, <- pow2_Z by lia.
    rewrite <- Qmult_assoc, <- pow2_add.
    replace (3 - e + e)%Z with 3%Z by lia. reflexivity. }
  assert (Elo : c - 15000 == inject_Z (m - 1875 * k) * pow2 e).
  { unfold Zminus. rewrite inject_Z_plus, inject_Z_opp, Ec, <- Ek. ring. }
  assert (Ehi : c + 15000 == inject_Z (m + 1875 * k) * pow2 e).
  { rewrite inject_Z_plus, Ec, <- Ek. ring. }
  destruct (round64_exact _ _ e Elo) as (lo & Hlo & Elo'); [lia | lia |].
  destruct (round64_exact _ _ e Ehi) as (hi & Hhi & Ehi'); [lia | lia |].
  exists lo, hi. split; [exact Hlo|]. split; [exact Hhi|].
  split; [exact Elo'|]. split; [exact Ehi'|].
  exists (m - 1875 * k)%Z, (m + 1875 * k)%Z, e.
  split; [by rewrite Elo'|]. split; [by rewrite Ehi'|]. lia.
Qed.

(** X5: the grid of the box at a center where nothing rounds.  When the
    center is a double with last-bit weight [2^e], at most 8, and
    magnitude at least 3e4 below [2^(53+e)] (as easting and northing of
    the lake are), the bounds of the box are exact and the grid between
    them is regular with exactly 150 coordinates. *)
Theorem grid_of_exact_center (x_center : Q) (m e : Z) :
  x_center == inject_Z m * pow2 e -> (- 1074 <= e <= 3)%Z ->
  (Z.abs m + 3750 * 2 ^ (3 - e) <= 2 ^ 53)%Z ->
  exists xs : list npfloat,
    Binary64.x (Binary64.xmin (Fin x_center)) (Binary64.xmax (Fin x_center))
      Binary64.res
    = Ok xs
    /\ length xs = 150%nat
    /\ on_grid (Notebook.xmin x_center) (Notebook.xmax x_center) xs.
Proof.
  intros Ec He Hm.
  destruct (exact_center_box x_center m e Ec He Hm)
    as (lo & hi & Hlo & Hhi & Elo & Ehi & Hspan).
  rewrite Hlo, Hhi.
  destruct (arange_exact lo hi Hspan) as (xs & Hxs & Hlen & _ & Hgrid); [lra|].
  exists xs. split; [exact Hxs|]. split.
  - assert (E : (hi - lo) / 200 == inject_Z 150) by (rewrite Elo, Ehi; field).
    rewrite E, Qfloor_Z, Qceiling_Z in Hlen. lia.
  - intros i v Hv. destruct (Hgrid i v Hv) as (q & -> & Eq & H1 & H2).
    exists q. unfold Notebook.xmin, Notebook.xmax, Notebook.buffer.
    split; [reflexivity|]. split; [by rewrite Eq, Elo|]. split; lra.
Qed.

(** X12: an empty or inverted box gives an empty grid.  When the upper
    bound is at or below the lower one, and not more than [2^52] below,
    [arange] returns the empty array. *)
Theorem grid_of_empty_box (xmin xmax : Q) :
  xmax <= xmin -> xmin - xmax <= inject_Z (2 ^ 52) ->
  Binary64.x (Fin xmin) (Fin xmax) Binary64.res = Ok []
  /\ Binary64.y (Fin xmin) (Fin xmax) Binary64.res = Ok [].
Proof.
  intros Hle Hspan.
  assert (H : Binary64.arange (Fin xmin) (Fin xmax) (Fin 200) = Ok []);
    [|by split].
  set (T := inject_Z (2 ^ 52)) in *.
  assert (HT : - T == inject_Z (- 2 ^ 52)) by (subst T; by rewrite inject_Z_opp).
  destruct (round64_between (xmax + - xmin) (- 2 ^ 52) 0) as (rd & Hrd & Hd1 & Hd2);
    [rewrite <- HT; clearbody T; lra | change (inject_Z 0) with 0; lra | lia | lia |].
  change (inject_Z 0) with 0 in Hd2. rewrite <- HT in Hd1.
  destruct (round64_between (rd / 200) (- 2 ^ 52) 0) as (v & Hv & Hv1 & Hv2);
    [ rewrite <- HT; apply Qle_shift_div_l; [reflexivity|];
      assert (0 <= T) by (subst T; apply (inject_Z_le 0); lia);
      clearbody T; lra
    | change (inject_Z 0) with 0; apply Qle_shift_div_r; [reflexivity | lra]
    | lia | lia |].
  assert (Hlen1 : (- 2 ^ 52 <= Qceiling v)%Z).
  { rewrite <- (Qceiling_Z (- 2 ^ 52)). by apply Qceiling_resp_le. }
  assert (Hlen2 : (Qceiling v <= 0)%Z).
  { rewrite <- (Qceiling_Z 0). by apply Qceiling_resp_le. }
  assert (Hlen : exists len : Z,
            Binary64.arange_length (Fin rd) (Fin 200) (Fin v) = Ok len
            /\ (- 2 ^ 52 <= len <= 0)%Z).
  { unfold Binary64.arange_length, is_zero, negative.
    change (Qle_bool 0 200) with true. cbn [negb xorb].
    destruct (Qeq_bool v 0 && negb (Qeq_bool rd 0)) eqn:Eu.
    - apply andb_true_iff in Eu as [_ Eu]. apply negb_true_iff in Eu.
      apply Qeq_bool_false in Eu.
      assert (Z2 : Qle_bool 0 rd = false).
      { destruct (Qle_bool 0 rd) eqn:E; [|reflexivity].
        apply Qle_bool_iff in E. exfalso. apply Eu. by apply Qle_antisym. }
      rewrite Z2. cbn [negb xorb]. exists 0%Z. split; [reflexivity | lia].
    - assert (T1 : (Binary64.max_intp <? Qceiling v)%Z = false).
      { apply Z.ltb_ge. unfold Binary64.max_intp. lia. }
      assert (T2 : (Qceiling v <? - Binary64.max_intp - 1)%Z = false).
      { apply Z.ltb_ge. unfold Binary64.max_intp. lia. }
      rewrite T1, T2. exists (Qceiling v). split; [reflexivity | lia]. }
  destruct Hlen as (len & Hlen & Hl).
  unfold Binary64.arange. change (is_zero (Fin 200)) with false. cbv zeta.
  change (Binary64.sub (Fin xmax) (Fin xmin)) with (round64 (xmax + - xmin)).
  rewrite Hrd.
  change (Binary64.div (Fin rd) (Fin 200)) with (round64 (rd / 200)).
  rewrite Hv, Hlen. cbn [mbind result_bind].
  assert (T3 : (Binary64.max_intp <? 8 * len)%Z = false).
  { apply Z.ltb_ge. unfold Binary64.max_intp. lia. }
  rewrite T3.
  replace (Z.to_nat len) with 0%nat by lia. reflexivity.
Qed.

(** ** The vegetation index *)

Lemma labels_equal_refl (l : list Q) : labels_equal l l = true.
Proof.
  induction l as [|q l IH]; simpl; [reflexivity|].
  rewrite IH, andb_true_r. apply Qeq_bool_iff. reflexivity.
Qed.

Lemma band_index_In (b : Z) (l : list Z) :
  In b l -> exists k, band_index b l = Some k.
Proof.
  induction l as [|c l IH]; simpl; [intros []|].
  intros [-> | Hin].
  - rewrite Z.eqb_refl. by eexists.
  - destruct (c =? b)%Z; [by eexists|].
    destruct (IH Hin) as [k ->]. by eexists.
Qed.

Lemma sel_In (da : BandArray) (b : Z) :
  In b (coord_band da) ->
  exists a, sel da b = Ok a
            /\ coord_y a = band_y da /\ coord_x a = band_x da
            /\ chunked a = band_chunked da.
Proof.
  intros Hin. destruct (band_index_In _ _ Hin) as [k Hk].
  unfold sel. rewrite Hk. eexists. repeat split.
Qed.

(** Operands on the same labels are combined cell by cell, without any
    reindexing. *)
Lemma binop_same_labels (f : npfloat -> npfloat -> npfloat) (a b : DataArray) :
  coord_y b = coord_y a -> coord_x b = coord_x a ->
  binop f a b
  = Ok {| coord_y := coord_y a;
          coord_x := coord_x a;
          values := zip_with (zip_with f) (values a) (values b);
          chunked := chunked a || chunked b |}.
Proof.
  intros Hy Hx. unfold binop, align, join_labels.
  rewrite Hy, Hx, !labels_equal_refl. cbn [mbind result_bind].
  unfold reindex_y. rewrite Hy, !labels_equal_refl.
  unfold reindex_x. rewrite Hx, !labels_equal_refl.
  reflexivity.
Qed.

Lemma pixel_zip_with (f : npfloat -> npfloat -> npfloat)
    (ys xs : list Q) (va vb : list (list npfloat)) (c : bool) (i j : nat) :
  pixel {| coord_y := ys; coord_x := xs;
           values := zip_with (zip_with f) va vb; chunked := c |} i j
  = (u ← (row ← va !! i; row !! j); v ← (row ← vb !! i; row !! j); Some (f u v)).
Proof.
  unfold pixel; simpl. rewrite lookup_zip_with.
  destruct (va !! i) as [ra|]; simpl; [|reflexivity].
  destruct (vb !! i) as [rb|]; simpl.
  - rewrite lookup_zip_with.
    destruct (ra !! j); simpl; [|reflexivity].
    destruct (rb !! j); reflexivity.
  - destruct (ra !! j); reflexivity.
Qed.

Lemma normalized_difference_spec (da : BandArray) (b_nir b_red : Z) :
  In b_nir (coord_band da) -> In b_red (coord_band da) ->
  exists out nir red,
    sel da b_nir = Ok nir /\ sel da b_red = Ok red
    /\ normalized_difference da b_nir b_red = Ok out
    /\ coord_y out = band_y da /\ coord_x out = band_x da
    /\ chunked out = band_chunked da
    /\ is_ndvi_of out nir red.
Proof.
  intros Hn Hr.
  destruct (sel_In _ _ Hn) as (nir & Hnir & Hny & Hnx & Hnc).
  destruct (sel_In _ _ Hr) as (red & Hred & Hry & Hrx & Hrc).
  unfold normalized_difference, da_sub, da_add, da_div.
  rewrite Hnir, Hred. cbn [mbind result_bind].
  rewrite (binop_same_labels fsub nir red) by congruence.
  cbn [mbind result_bind].
  rewrite (binop_same_labels fadd nir red) by congruence.
  cbn [mbind result_bind].
  rewrite binop_same_labels by reflexivity.
  eexists _, nir, red. do 3 (split; [reflexivity|]).
  simpl. split; [exact Hny|]. split; [exact Hnx|].
  split; [rewrite Hnc, Hrc; by destruct (band_chunked da)|].
  intros i j. rewrite pixel_zip_with. unfold pixel, ndvi_pixel.
  rewrite !lookup_zip_with.
  destruct (values nir !! i) as [rn|]; simpl; [|reflexivity].
  destruct (values red !! i) as [rr|]; simpl.
  - rewrite !lookup_zip_with.
    destruct (rn !! j); simpl; [|reflexivity].
    destruct (rr !! j); reflexivity.
  - destruct (rn !! j); reflexivity.
Qed.

(** C2: each index array is the per-pixel NDVI of its raster with that
    satellite's band numbering: [NDVI_1988] is (band 4 - band 3) /
    (band 4 + band 3) of [landsat_5_da] and [NDVI_2017] is (band 5 -
    band 4) / (band 5 + band 4) of [landsat_8_da], at every pixel and on the
    raster's own coordinates. *)
Theorem ndvi_is_normalized_difference (landsat_5_da landsat_8_da : BandArray) :
  In 4%Z (coord_band landsat_5_da) -> In 3%Z (coord_band landsat_5_da) ->
  In 5%Z (coord_band landsat_8_da) -> In 4%Z (coord_band landsat_8_da) ->
  (exists out nir red,
     sel landsat_5_da 4 = Ok nir /\ sel landsat_5_da 3 = Ok red
     /\ Notebook.NDVI_1988 landsat_5_da = Ok out
     /\ coord_y out = band_y landsat_5_da /\ coord_x out = band_x landsat_5_da
     /\ is_ndvi_of out nir red)
  /\ (exists out nir red,
        sel landsat_8_da 5 = Ok nir /\ sel landsat_8_da 4 = Ok red
        /\ Notebook.NDVI_2017 landsat_8_da = Ok out
        /\ coord_y out = band_y landsat_8_da /\ coord_x out = band_x landsat_8_da
        /\ is_ndvi_of out nir red).
Proof.
  intros H4 H3 H5 H4'. split.
  - destruct (normalized_difference_spec landsat_5_da 4 3 H4 H3)
      as (out & nir & red & ? & ? & ? & ? & ? & ? & ?).
    by exists out, nir, red.
  - destruct (normalized_difference_spec landsat_8_da 5 4 H5 H4')
      as (out & nir & red & ? & ? & ? & ? & ? & ? & ?).
    by exists out, nir, red.
Qed.

Lemma ndvi_pixel_zero_sum (n r : Q) :
  n + r == 0 ->
  is_finite (ndvi_pixel (Fin n) (Fin r)) = false
  /\ (n == 0 -> ndvi_pixel (Fin n) (Fin r) = NaN).
Proof.
  intros Hs. unfold ndvi_pixel; simpl.
  assert (E : Qeq_bool (n + r) 0 = true) by (by apply Qeq_bool_iff).
  rewrite E. split.
  - destruct (Qeq_bool (n + - r) 0); [reflexivity|].
    unfold signed_inf. by destruct (Qle_bool 0 (n + - r)).
  - intros Hn.
    assert (E' : Qeq_bool (n + - r) 0 = true) by (apply Qeq_bool_iff; lra).
    by rewrite E'.
Qed.

Lemma ndvi_pixel_bounded (n r : Q) :
  0 <= n -> 0 <= r -> 0 < n + r ->
  exists q, ndvi_pixel (Fin n) (Fin r) = Fin q /\ - (1) <= q /\ q <= 1.
Proof.
  intros Hn Hr Hs. unfold ndvi_pixel; simpl.
  destruct (Qeq_bool (n + r) 0) eqn:E.
  { apply Qeq_bool_eq in E. lra. }
  eexists. split; [reflexivity|]. split.
  - apply Qle_shift_div_l; [exact Hs|]. lra.
  - apply Qle_shift_div_r; [exact Hs|]. lra.
Qed.

Lemma is_ndvi_unguarded_and_bounded (out nir red : DataArray) :
  is_ndvi_of out nir red -> unguarded_and_bounded out nir red.
Proof.
  intros Hout i j n r Hn Hr. rewrite Hout, Hn, Hr. simpl. split.
  - intros Hs. destruct (ndvi_pixel_zero_sum n r Hs) as [Hf Hz].
    eexists. split; [reflexivity|]. by split.
  - intros H0n H0r Hs.
    destruct (ndvi_pixel_bounded n r H0n H0r Hs) as (q & -> & Hq).
    by exists q.
Qed.

(** C9: the NDVI division is unguarded.  Whatever the cell values, both
    index expressions return an array and raise nothing; at a pixel whose
    band sum is zero the value is not a finite number; at a pixel whose
    bands are non-negative with a positive sum the value lies in
    [[-1, 1]]. *)
Theorem ndvi_division_unguarded (landsat_5_da landsat_8_da : BandArray) :
  In 4%Z (coord_band landsat_5_da) -> In 3%Z (coord_band landsat_5_da) ->
  In 5%Z (coord_band landsat_8_da) -> In 4%Z (coord_band landsat_8_da) ->
  (exists out nir red,
     sel landsat_5_da 4 = Ok nir /\ sel landsat_5_da 3 = Ok red
     /\ Notebook.NDVI_1988 landsat_5_da = Ok out
     /\ unguarded_and_bounded out nir red)
  /\ (exists out nir red,
        sel landsat_8_da 5 = Ok nir /\ sel landsat_8_da 4 = Ok red
        /\ Notebook.NDVI_2017 landsat_8_da = Ok out
        /\ unguarded_and_bounded out nir red).
Proof.
  intros H4 H3 H5 H4'. split.
  - destruct (normalized_difference_spec landsat_5_da 4 3 H4 H3)
      as (out & nir & red & ? & ? & ? & ? & ? & ? & Hout).
    exists out, nir, red. repeat (split; [assumption|]).
    by apply is_ndvi_unguarded_and_bounded.
  - destruct (normalized_difference_spec landsat_8_da 5 4 H5 H4')
      as (out & nir & red & ? & ? & ? & ? & ? & ? & Hout).
    exists out, nir, red. repeat (split; [assumption|]).
    by apply is_ndvi_unguarded_and_bounded.
Qed.

(** ** Running cells *)

Lemma bind_Ok {A B} (c : result A) (k : A -> result B) (b : B) :
  c ≫= k = Ok b -> exists a, c = Ok a /\ k a = Ok b.
Proof. destruct c as [a|e]; simpl; [|discriminate]. intros H. by exists a. Qed.

Lemma lookup_var_Ok (st : state) (name : string) (o : pyobj) :
  lookup_var st name = Ok o -> globals st !! name = Some o.
Proof. unfold lookup_var. destruct (globals st !! name); by intros [= ->]. Qed.

Lemma get_array_Ok (st : state) (name : string) (a : DataArray) :
  get_array st name = Ok a <-> globals st !! name = Some (PArray a).
Proof.
  unfold get_array, lookup_var. split.
  - destruct (globals st !! name) as [[]|]; simpl; try discriminate.
    by intros [= ->].
  - by intros ->.
Qed.

Lemma get_ndarray_Ok (st : state) (name : string) (l : list Q) :
  get_ndarray st name = Ok l <-> globals st !! name = Some (PNdarray l).
Proof.
  unfold get_ndarray, lookup_var. split.
  - destruct (globals st !! name) as [[]|]; simpl; try discriminate.
    by intros [= ->].
  - by intros ->.
Qed.

Lemma get_bands_Ok (st : state) (name : string) (a : BandArray) :
  get_bands st name = Ok a <-> globals st !! name = Some (PBands a).
Proof.
  unfold get_bands, lookup_var. split.
  - destruct (globals st !! name) as [[]|]; simpl; try discriminate.
    by intros [= ->].
  - by intros ->.
Qed.

Lemma globals_assign (name : string) (o : pyobj) (st : state) :
  globals (assign name o st) = <[name := o]> (globals st).
Proof. reflexivity. Qed.

Lemma globals_emit (ev : event) (st : state) :
  globals (emit ev st) = globals st.
Proof. reflexivity. Qed.

Lemma trace_assign (name : string) (o : pyobj) (st : state) :
  trace (assign name o st) = trace st.
Proof. reflexivity. Qed.

Lemma trace_emit (ev : event) (st : state) :
  trace (emit ev st) = trace st ++ [ev].
Proof. reflexivity. Qed.

(** Splits the hypothesis that a cell returned into one fact per call it
    made. *)
Ltac cell_inv H :=
  cbv beta zeta in H;
  repeat match type of H with
    | _ ≫= _ = Ok _ =>
        let v := fresh "v" in
        let E := fresh "E" in
        apply bind_Ok in H as (v & E & H); cbv beta zeta in H
    end;
  try (injection H as H).

Ltac frame_solve :=
  let n := fresh "n" in
  let Hn := fresh "Hn" in
  intros n Hn;
  repeat (apply not_elem_of_cons in Hn as [? Hn]);
  repeat first
    [ rewrite globals_emit
    | rewrite globals_assign, lookup_insert_ne by congruence ];
  reflexivity.

(** ** Deferred arrays stay deferred until [load] *)

Lemma reindex_y_chunked (a : DataArray) (ys : list Q) :
  chunked (reindex_y a ys) = chunked a.
Proof. unfold reindex_y. by destruct (labels_equal _ _). Qed.

Lemma reindex_x_chunked (a : DataArray) (xs : list Q) :
  chunked (reindex_x a xs) = chunked a.
Proof. unfold reindex_x. by destruct (labels_equal _ _). Qed.

Lemma binop_chunked (f : npfloat -> npfloat -> npfloat) (a b c : DataArray) :
  binop f a b = Ok c -> chunked c = chunked a || chunked b.
Proof.
  unfold binop, align. intros H. cell_inv H. subst c. simpl.
  cell_inv E. subst v. simpl.
  by rewrite !reindex_x_chunked, !reindex_y_chunked.
Qed.

Lemma sel_chunked (da : BandArray) (b : Z) (a : DataArray) :
  sel da b = Ok a -> chunked a = band_chunked da.
Proof.
  unfold sel. destruct (band_index b (coord_band da)); [|discriminate].
  by intros [= <-].
Qed.

Lemma normalized_difference_chunked (da : BandArray) (bn br : Z) (out : DataArray) :
  normalized_difference da bn br = Ok out -> chunked out = band_chunked da.
Proof.
  unfold normalized_difference, da_sub, da_add, da_div. intros H. cell_inv H.
  apply binop_chunked in H. rewrite H.
  match goal with
  | E1 : binop fsub _ _ = Ok _, E2 : binop fadd _ _ = Ok _ |- _ =>
      apply binop_chunked in E1, E2; rewrite E1, E2
  end.
  repeat match goal with
         | E : sel _ _ = Ok _ |- _ => apply sel_chunked in E; rewrite E; clear E
         end.
  by destruct (band_chunked da).
Qed.

Lemma read_chunked_chunked (entry : result BandArray) (a : BandArray) :
  read_chunked entry = Ok a -> band_chunked a = true.
Proof. unfold read_chunked. intros H. cell_inv H. by subst a. Qed.

Lemma interp_Ok (lib : Library) (a r : DataArray) (xs ys : list Q) :
  interp lib a xs ys = Ok r ->
  chunked a = false
  /\ r = {| coord_y := ys;
            coord_x := xs;
            values := map (fun qy => map (fun qx => interp_kernel lib a qx qy) xs) ys;
            chunked := false |}.
Proof.
  unfold interp. destruct (chunked a); [discriminate|].
  destruct (_ || _); [discriminate|]. by intros [= <-].
Qed.

Lemma interp_deferred (lib : Library) (a : DataArray) (xs ys : list Q) :
  chunked a = true ->
  interp lib a xs ys
  = Raise (NotImplementedError "interp is not supported for dask arrays").
Proof. unfold interp. by intros ->. Qed.

(** ** What each cell binds and emits *)

Ltac effect_solve :=
  let st := fresh "st" in
  let st' := fresh "st'" in
  let H := fresh "H" in
  intros st st' H; cell_inv H; subst st';
  split;
  [ frame_solve
  | repeat first [rewrite trace_assign | rewrite trace_emit];
    rewrite <- ?app_assoc, ?app_nil_r; reflexivity ].

Lemma cells_effect (lib : Library) :
  Forall3 cell_effect cell_names cell_events (cells lib).
Proof.
  unfold cell_names, cell_events, cells. simpl.
  repeat apply Forall3_cons; try apply Forall3_nil.
  - unfold cell_imports. effect_solve.
  - unfold cell_load_data. effect_solve.
  - unfold cell_show_landsat_8. effect_solve.
  - unfold cell_NDVI_1988. effect_solve.
  - unfold cell_NDVI_2017. effect_solve.
  - unfold cell_diff. effect_solve.
  - unfold cell_diff_shape. effect_solve.
  - unfold cell_first_x. effect_solve.
  - unfold cell_resolution. effect_solve.
  - unfold cell_show_crs. effect_solve.
  - unfold cell_crs. effect_solve.
  - unfold cell_center. effect_solve.
  - unfold cell_bounding_box. effect_solve.
  - unfold cell_show_box. effect_solve.
  - unfold cell_grid. effect_solve.
  - unfold cell_load. effect_solve.
  - unfold cell_interp, Notebook.NDVI_2017_regridded, Notebook.NDVI_1988_regridded.
    intros st st' H. cell_inv H. subst st'.
    repeat match goal with
           | E : interp _ _ _ _ = Ok _ |- _ =>
               apply interp_Ok in E as [-> _]
           end.
    split; [frame_solve|].
    repeat first [rewrite trace_assign | rewrite trace_emit].
    rewrite <- ?app_assoc. reflexivity.
  - unfold cell_ds_regridded. effect_solve.
  - unfold cell_show_both. effect_solve.
  - unfold cell_diff_regridded. effect_solve.
  - unfold cell_show_diff_regridded. effect_solve.
  - unfold cell_grid_1000. effect_solve.
  - unfold cell_resample. effect_solve.
  - unfold cell_exercise. effect_solve.
Qed.

(** ** Runs *)

Lemma run_cells_app (cs1 cs2 : list cell) (st : state) :
  run_cells (cs1 ++ cs2) st = st' ← run_cells cs1 st; run_cells cs2 st'.
Proof.
  revert st. induction cs1 as [|c cs1 IH]; intros st; simpl; [reflexivity|].
  destruct (c st) as [st1|e]; simpl; [apply IH | reflexivity].
Qed.

Lemma only_binds_refl (st : state) : only_binds [] st st.
Proof. by intros n _. Qed.

Lemma only_binds_trans (ns1 ns2 : list string) (st1 st2 st3 : state) :
  only_binds ns1 st1 st2 -> only_binds ns2 st2 st3 ->
  only_binds (ns1 ++ ns2) st1 st3.
Proof.
  intros H1 H2 n Hn. apply not_elem_of_app in Hn as [Hn1 Hn2].
  by rewrite H2, H1.
Qed.

(** The effects of a run are those of its cells, in order. *)
Lemma run_cells_effect (names : list (list string)) (evs : list (list event))
    (cs : list cell) :
  Forall3 cell_effect names evs cs ->
  cell_effect (concat names) (concat evs) (run_cells cs).
Proof.
  induction 1 as [|ns ev c names evs cs Hc _ IH]; intros st st' Hrun.
  - injection Hrun as <-. split; [apply only_binds_refl|].
    simpl. by rewrite app_nil_r.
  - simpl in Hrun. apply bind_Ok in Hrun as (st1 & H1 & Hrest).
    destruct (Hc _ _ H1) as [Hb1 Ht1].
    destruct (IH _ _ Hrest) as [Hb2 Ht2].
    split.
    + simpl. by eapply only_binds_trans.
    + simpl. by rewrite Ht2, Ht1, app_assoc.
Qed.

Ltac inv_binds :=
  repeat match goal with
    | H : _ ≫= _ = Ok _ |- _ =>
        let v := fresh "v" in
        let E := fresh "E" in
        apply bind_Ok in H as (v & E & H); cbv beta zeta in H
    | H : Ok _ = Ok _ |- _ => injection H as H
    end.

Ltac unfold_getters_in H :=
  unfold get_number, get_ndarray, get_boxes, get_bands, get_array,
    get_dataset, get_crs in H.

(** Resolves the reads of a straight run against the writes before
    them. *)
Ltac resolve_reads :=
  repeat match goal with
    | H : ?s = ?t |- _ =>
        match type of s with state => first [subst t | subst s] end
    | H : context [lookup_var (assign ?n _ _) ?n] |- _ =>
        rewrite lookup_assign_same in H
    | H : context [lookup_var (assign _ _ _) _] |- _ =>
        rewrite lookup_assign_other in H by (intro; discriminate)
    | H : context [lookup_var (emit _ _) _] |- _ =>
        rewrite lookup_emit in H
    | H : Ok _ ≫= _ = _ |- _ => cbn [mbind result_bind] in H
    | H : @Ok ?A ?u = Ok ?v |- _ =>
        injection H as H; first [subst v | subst u]
    | H : get_number _ _ = _ |- _ => unfold_getters_in H
    | H : get_ndarray _ _ = _ |- _ => unfold_getters_in H
    | H : get_boxes _ _ = _ |- _ => unfold_getters_in H
    | H : get_bands _ _ = _ |- _ => unfold_getters_in H
    | H : get_array _ _ = _ |- _ => unfold_getters_in H
    | H : get_dataset _ _ = _ |- _ => unfold_getters_in H
    | H : get_crs _ _ = _ |- _ => unfold_getters_in H
    end.

Ltac unfold_cells_in H :=
  unfold cell_imports, cell_load_data, cell_show_landsat_8, cell_NDVI_1988,
    cell_NDVI_2017, cell_diff, cell_diff_shape, cell_first_x, cell_resolution,
    cell_show_crs, cell_crs, cell_center, cell_bounding_box, cell_show_box,
    cell_grid, cell_load, cell_interp, cell_ds_regridded, cell_show_both,
    cell_diff_regridded, cell_show_diff_regridded, cell_grid_1000,
    cell_resample, cell_exercise in H;
  cbv beta zeta in H.

Ltac unfold_cells :=
  unfold cell_imports, cell_load_data, cell_show_landsat_8, cell_NDVI_1988,
    cell_NDVI_2017, cell_diff, cell_diff_shape, cell_first_x, cell_resolution,
    cell_show_crs, cell_crs, cell_center, cell_bounding_box, cell_show_box,
    cell_grid, cell_load, cell_interp, cell_ds_regridded, cell_show_both,
    cell_diff_regridded, cell_show_diff_regridded, cell_grid_1000,
    cell_resample, cell_exercise;
  cbv beta zeta.

(** Reads a name of an explicit namespace. *)
Ltac read_global :=
  apply lookup_var_Ok; read_vars; reflexivity.

Lemma NDVI_1988_chunked (da : BandArray) (out : DataArray) :
  Notebook.NDVI_1988 da = Ok out -> chunked out = band_chunked da.
Proof. apply (normalized_difference_chunked da 4 3). Qed.

Lemma NDVI_2017_chunked (da : BandArray) (out : DataArray) :
  Notebook.NDVI_2017 da = Ok out -> chunked out = band_chunked da.
Proof. apply (normalized_difference_chunked da 5 4). Qed.

(** When the cells above the [load] cell have run, both index arrays are
    still deferred, and the grid is in place. *)
Lemma before_load (lib : Library) (st : state) :
  run_cells (take 15 (cells lib)) initial = Ok st ->
  exists a b xs ys,
    globals st !! "NDVI_1988" = Some (PArray a) /\ chunked a = true
    /\ globals st !! "NDVI_2017" = Some (PArray b) /\ chunked b = true
    /\ globals st !! "x" = Some (PNdarray xs)
    /\ globals st !! "y" = Some (PNdarray ys).
Proof.
  intros H. cbn [take cells run_cells] in H.
  unfold_cells_in H. inv_binds. resolve_reads.
  repeat match goal with
         | E : read_chunked _ = Ok _ |- _ => apply read_chunked_chunked in E
         end.
  match goal with
  | E1 : Notebook.NDVI_1988 _ = Ok ?a, E2 : Notebook.NDVI_2017 _ = Ok ?b,
    E3 : Notebook.x _ _ _ = Ok ?xs, E4 : Notebook.y _ _ _ = Ok ?ys |- _ =>
      apply NDVI_1988_chunked in E1; apply NDVI_2017_chunked in E2;
      exists a, b, xs, ys
  end.
  split; [read_global|]. split; [congruence|].
  split; [read_global|]. split; [congruence|].
  split; read_global.
Qed.

(** When the [load] cell has run, both are in memory. *)
Lemma after_load (lib : Library) (st : state) :
  run_cells (take 16 (cells lib)) initial = Ok st ->
  exists a b,
    globals st !! "NDVI_1988" = Some (PArray a) /\ chunked a = false
    /\ globals st !! "NDVI_2017" = Some (PArray b) /\ chunked b = false.
Proof.
  intros H. cbn [take cells run_cells] in H.
  unfold_cells_in H. inv_binds. resolve_reads.
  match goal with
  | E1 : Notebook.NDVI_1988 _ = Ok ?a, E2 : Notebook.NDVI_2017 _ = Ok ?b |- _ =>
      exists (load a), (load b)
  end.
  split; [read_global|]. split; [reflexivity|].
  split; [read_global|]. reflexivity.
Qed.

Lemma cell_interp_deferred (lib : Library) (st : state)
    (b : DataArray) (xs ys : list Q) :
  globals st !! "NDVI_2017" = Some (PArray b) -> chunked b = true ->
  globals st !! "x" = Some (PNdarray xs) ->
  globals st !! "y" = Some (PNdarray ys) ->
  cell_interp lib st
  = Raise (NotImplementedError "interp is not supported for dask arrays").
Proof.
  intros Hb Hc Hx Hy.
  apply get_array_Ok in Hb. apply get_ndarray_Ok in Hx, Hy.
  unfold cell_interp. rewrite Hb, Hx, Hy. cbn [mbind result_bind].
  unfold Notebook.NDVI_2017_regridded. by rewrite interp_deferred.
Qed.

(** C8: materialization is the explicit [load] call and it comes before
    the interpolation.  The [load] cell is followed by the [interp] cell;
    until the [load] cell has run both index arrays are deferred (and
    [interp] there would be refused); after it both are in memory; and in
    every run that returns, the events are these, in this order: both loads
    before both interpolations, and each interpolation on an array that is
    not deferred. *)
Theorem load_precedes_interp (lib : Library) :
  cells lib !! 15%nat = Some cell_load
  /\ cells lib !! 16%nat = Some (cell_interp lib)
  /\ (forall st, run_cells (take 15 (cells lib)) initial = Ok st ->
        exists a b,
          globals st !! "NDVI_1988" = Some (PArray a) /\ chunked a = true
          /\ globals st !! "NDVI_2017" = Some (PArray b) /\ chunked b = true
          /\ cell_interp lib st
             = Raise (NotImplementedError "interp is not supported for dask arrays"))
  /\ (forall st, run_cells (take 16 (cells lib)) initial = Ok st ->
        exists a b,
          globals st !! "NDVI_1988" = Some (PArray a) /\ chunked a = false
          /\ globals st !! "NDVI_2017" = Some (PArray b) /\ chunked b = false)
  /\ (forall st, run lib = Ok st ->
        trace st
        = [ EvOpen "../catalog.yml"; EvRender "diff"; EvRender "bounding_box";
            EvLoad "NDVI_1988"; EvLoad "NDVI_2017";
            EvInterp "NDVI_2017" false; EvInterp "NDVI_1988" false;
            EvRender "1988"; EvRender "2017"; EvRender "diff_regridded" ]).
Proof.
  split; [reflexivity|]. split; [reflexivity|]. split; [|split].
  - intros st H.
    destruct (before_load lib st H) as (a & b & xs & ys & Ha & Hca & Hb & Hcb & Hx & Hy).
    exists a, b. repeat (split; [assumption|]).
    by eapply cell_interp_deferred.
  - apply after_load.
  - intros st H.
    destruct (run_cells_effect _ _ _ (cells_effect lib) _ _ H) as [_ Ht].
    exact Ht.
Qed.

(** ** The shared grid *)

Lemma align_same_labels (join : list Q -> list Q -> list Q) (a b : DataArray) :
  coord_y b = coord_y a -> coord_x b = coord_x a ->
  align join a b = Ok (a, b).
Proof.
  intros Hy Hx. unfold align, join_labels.
  rewrite Hy, Hx, !labels_equal_refl. cbn [mbind result_bind].
  unfold reindex_y. rewrite Hy, !labels_equal_refl.
  unfold reindex_x. rewrite Hx, !labels_equal_refl.
  reflexivity.
Qed.

Lemma interp_in_memory (lib : Library) (a : DataArray) (xs ys : list Q) :
  chunked a = false -> (0 < length xs)%nat -> (0 < length ys)%nat ->
  exists r,
    interp lib a xs ys = Ok r
    /\ coord_x r = xs /\ coord_y r = ys /\ chunked r = false
    /\ well_shaped r = true
    /\ (forall i j, (i < length ys)%nat -> (j < length xs)%nat ->
          exists v, pixel r i j = Some v).
Proof.
  intros Hc Hxs Hys. unfold interp. rewrite Hc.
  assert (E : (length xs =? 0)%nat || (length ys =? 0)%nat = false).
  { apply orb_false_iff. split; apply Nat.eqb_neq; lia. }
  rewrite E. eexists. split; [reflexivity|].
  cbn [coord_x coord_y chunked]. do 3 (split; [reflexivity|]). split.
  - unfold well_shaped; cbn [values coord_x coord_y].
    rewrite length_map, Nat.eqb_refl. simpl.
    apply forallb_forall. intros row Hrow.
    apply in_map_iff in Hrow as (qy & <- & _).
    rewrite length_map. apply Nat.eqb_refl.
  - intros i j Hi Hj. unfold pixel; cbn [values].
    destruct (lookup_lt_is_Some_2 ys i Hi) as [qy Hqy].
    destruct (lookup_lt_is_Some_2 xs j Hj) as [qx Hqx].
    rewrite lookup_map, Hqy. simpl. rewrite lookup_map, Hqx. simpl.
    by eexists.
Qed.

Lemma getitem_same (a : DataArray) :
  {| coord_y := coord_y a; coord_x := coord_x a;
     values := values a; chunked := chunked a |} = a.
Proof. by destruct a. Qed.

Lemma ds_regridded_same_labels (a b : DataArray) :
  coord_y b = coord_y a -> coord_x b = coord_x a ->
  exists ds,
    Notebook.ds_regridded a b = Ok ds
    /\ ds_y ds = coord_y a /\ ds_x ds = coord_x a
    /\ getitem ds "NDVI_1988" = Ok a
    /\ getitem ds "NDVI_2017" = Ok b.
Proof.
  intros Hy Hx. unfold Notebook.ds_regridded, xr_Dataset.
  rewrite align_same_labels by assumption. cbn [mbind result_bind fst snd].
  eexists. split; [reflexivity|]. cbn [ds_y ds_x].
  do 2 (split; [reflexivity|]).
  unfold getitem; cbn [data_vars ds_y ds_x]. split.
  - rewrite lookup_insert_ne by discriminate. rewrite lookup_insert_eq.
    cbn [as_variable var_values var_chunked]. by rewrite getitem_same.
  - rewrite lookup_insert_eq. cbn [as_variable var_values var_chunked].
    rewrite <- Hy, <- Hx. by rewrite getitem_same.
Qed.

(** C5: both index arrays are interpolated onto the same grid.  From a
    namespace that holds the two index arrays in memory, each with at
    least two labels per axis in strictly monotonic order, and a grid [x],
    [y] with at least one coordinate on each axis, the [interp] cell, the
    [Dataset] cell and the difference cell all return; both regridded arrays carry exactly the labels [x] and [y] and
    have the same shape (one row per [y], one column per [x]); the dataset
    holds both under these coordinates; and the difference has a value at
    every cell of the grid, the difference of the two arrays there. *)
Theorem regridded_share_grid (lib : Library) (st : state)
    (a b : DataArray) (xs ys : list Q) :
  globals st !! "NDVI_1988" = Some (PArray a) -> chunked a = false ->
  globals st !! "NDVI_2017" = Some (PArray b) -> chunked b = false ->
  monotonic_axis (coord_x a) = true -> monotonic_axis (coord_y a) = true ->
  monotonic_axis (coord_x b) = true -> monotonic_axis (coord_y b) = true ->
  globals st !! "x" = Some (PNdarray xs) ->
  globals st !! "y" = Some (PNdarray ys) ->
  (0 < length xs)%nat -> (0 < length ys)%nat ->
  exists st' ra rb ds d,
    run_cells [cell_interp lib; cell_ds_regridded; cell_diff_regridded] st
    = Ok st'
    /\ Notebook.NDVI_1988_regridded lib a xs ys = Ok ra
    /\ Notebook.NDVI_2017_regridded lib b xs ys = Ok rb
    /\ globals st' !! "NDVI_1988_regridded" = Some (PArray ra)
    /\ globals st' !! "NDVI_2017_regridded" = Some (PArray rb)
    /\ globals st' !! "ds_regridded" = Some (PDataset ds)
    /\ globals st' !! "diff_regridded" = Some (PArray d)
    /\ coord_x ra = xs /\ coord_y ra = ys
    /\ coord_x rb = xs /\ coord_y rb = ys
    /\ shape ra = (length ys, length xs) /\ shape rb = shape ra
    /\ well_shaped ra = true /\ well_shaped rb = true
    /\ ds_x ds = xs /\ ds_y ds = ys
    /\ getitem ds "NDVI_1988" = Ok ra /\ getitem ds "NDVI_2017" = Ok rb
    /\ coord_x d = xs /\ coord_y d = ys
    /\ (forall i j, (i < length ys)%nat -> (j < length xs)%nat ->
          exists u v,
            pixel rb i j = Some u /\ pixel ra i j = Some v
            /\ pixel d i j = Some (fsub u v)).
Proof.
  intros Ha Hca Hb Hcb _ _ _ _ Hx Hy Hnx Hny.
  destruct (interp_in_memory lib a xs ys Hca Hnx Hny)
    as (ra & Hra & Hrax & Hray & Hrac & Hraw & Hrap).
  destruct (interp_in_memory lib b xs ys Hcb Hnx Hny)
    as (rb & Hrb & Hrbx & Hrby & Hrbc & Hrbw & Hrbp).
  destruct (ds_regridded_same_labels ra rb) as (ds & Hds & Hdsy & Hdsx & Hg1 & Hg2);
    [congruence | congruence |].
  assert (Hd : Notebook.diff_regridded ds
               = Ok {| coord_y := ys; coord_x := xs;
                       values := zip_with (zip_with fsub) (values rb) (values ra);
                       chunked := false |}).
  { unfold Notebook.diff_regridded. rewrite Hg2, Hg1. cbn [mbind result_bind].
    unfold da_sub. rewrite binop_same_labels by congruence.
    by rewrite Hrby, Hrbx, Hrbc, Hrac. }
  apply get_array_Ok in Ha, Hb. apply get_ndarray_Ok in Hx, Hy.
  eexists _, ra, rb, ds, _.
  split.
  { cbn [run_cells]. unfold cell_interp, cell_ds_regridded, cell_diff_regridded.
    unfold get_array, get_ndarray, get_dataset in *.
    rewrite Hb, Hx, Hy. cbn [mbind result_bind].
    unfold Notebook.NDVI_2017_regridded, Notebook.NDVI_1988_regridded.
    rewrite Hrb. cbn [mbind result_bind].
    read_vars. rewrite Ha, Hx, Hy. cbn [mbind result_bind].
    rewrite Hra. cbn [mbind result_bind].
    read_vars. cbn [mbind result_bind]. rewrite Hds. cbn [mbind result_bind].
    read_vars. cbn [mbind result_bind]. rewrite Hd. cbn [mbind result_bind].
    reflexivity. }
  split; [exact Hra|]. split; [exact Hrb|].
  do 4 (split; [read_global|]).
  split; [exact Hrax|]. split; [exact Hray|].
  split; [exact Hrbx|]. split; [exact Hrby|].
  split; [unfold shape; by rewrite Hrax, Hray|].
  split; [unfold shape; congruence|].
  split; [exact Hraw|]. split; [exact Hrbw|].
  split; [congruence|]. split; [congruence|].
  split; [exact Hg1|]. split; [exact Hg2|].
  split; [reflexivity|]. split; [reflexivity|].
  intros i j Hi Hj.
  destruct (Hrap i j Hi Hj) as [v Hv]. destruct (Hrbp i j Hi Hj) as [u Hu].
  exists u, v. split; [exact Hu|]. split; [exact Hv|].
  rewrite pixel_zip_with. unfold pixel in Hu, Hv. by rewrite Hu, Hv.
Qed.

(** ** Frame of the dataset and of the difference *)

(** C10: building the dataset and taking the difference leave the operands
    as they were.  For two regridded arrays on the same labels, the array
    read back from [ds_regridded] under ['NDVI_1988'] is
    [NDVI_1988_regridded] itself (labels, values and all), likewise for
    ['NDVI_2017']; and the difference cell binds [diff_regridded] and
    nothing else: every other name, the dataset and both regridded arrays
    among them, is bound to what it was bound to, and no event is
    emitted. *)
Theorem dataset_and_difference_frame (st : state) (ra rb : DataArray) :
  globals st !! "NDVI_1988_regridded" = Some (PArray ra) ->
  globals st !! "NDVI_2017_regridded" = Some (PArray rb) ->
  coord_y rb = coord_y ra -> coord_x rb = coord_x ra ->
  exists st1 st2 ds d,
    cell_ds_regridded st = Ok st1
    /\ globals st1 !! "ds_regridded" = Some (PDataset ds)
    /\ getitem ds "NDVI_1988" = Ok ra
    /\ getitem ds "NDVI_2017" = Ok rb
    /\ cell_diff_regridded st1 = Ok st2
    /\ globals st2 !! "diff_regridded" = Some (PArray d)
    /\ (forall n : string,
          n <> "diff_regridded" -> globals st2 !! n = globals st1 !! n)
    /\ globals st2 !! "ds_regridded" = Some (PDataset ds)
    /\ globals st2 !! "NDVI_1988_regridded" = Some (PArray ra)
    /\ globals st2 !! "NDVI_2017_regridded" = Some (PArray rb)
    /\ trace st2 = trace st.
Proof.
  intros Ha Hb Hy Hx.
  destruct (ds_regridded_same_labels ra rb Hy Hx) as (ds & Hds & _ & _ & Hg1 & Hg2).
  assert (Hd : exists d, Notebook.diff_regridded ds = Ok d).
  { unfold Notebook.diff_regridded. rewrite Hg2, Hg1. cbn [mbind result_bind].
    unfold da_sub. rewrite binop_same_labels by congruence. by eexists. }
  destruct Hd as [d Hd].
  apply get_array_Ok in Ha, Hb.
  exists (assign "ds_regridded" (PDataset ds) st),
    (assign "diff_regridded" (PArray d) (assign "ds_regridded" (PDataset ds) st)),
    ds, d.
  split.
  { unfold cell_ds_regridded. rewrite Ha, Hb. cbn [mbind result_bind].
    rewrite Hds. reflexivity. }
  split; [read_global|]. split; [exact Hg1|]. split; [exact Hg2|].
  split.
  { unfold cell_diff_regridded, get_dataset. read_vars.
    cbn [mbind result_bind]. rewrite Hd. reflexivity. }
  split; [read_global|].
  split.
  { intros n Hn. rewrite (globals_assign "diff_regridded").
    by rewrite lookup_insert_ne. }
  split; [read_global|].
  apply get_array_Ok in Ha, Hb.
  split.
  { rewrite !globals_assign. by rewrite !lookup_insert_ne. }
  split.
  { rewrite !globals_assign. by rewrite !lookup_insert_ne. }
  reflexivity.
Qed.

(** ** Exceptions *)

(** The first cell that raises ends the run with its exception. *)
Lemma run_cells_raise (cs1 cs2 : list cell) (c : cell) (st st1 : state) (e : exn) :
  run_cells cs1 st = Ok st1 -> c st1 = Raise e ->
  run_cells (cs1 ++ c :: cs2) st = Raise e.
Proof.
  intros H1 Hc. rewrite run_cells_app, H1. cbn [mbind result_bind run_cells].
  by rewrite Hc.
Qed.

(** C6: nothing in the notebook catches, translates or recovers from an
    exception.  No statement of any cell is a [try], a [with] or a
    [raise]; the exception of the first failing cell is the outcome of the
    run, unchanged; and within a cell the exception of a library call is
    the outcome of the cell: a missing catalog file or raster, a band that
    is not there, a plot, a projection string or a point that the library
    refuses, an interpolation that is not supported, bins and labels whose
    lengths do not fit. *)
Theorem exceptions_propagate :
  existsb (existsb Syntax.handles) Syntax.notebook = false
  /\ (forall (cs1 cs2 : list cell) (c : cell) (st st1 : state) (e : exn),
        run_cells cs1 st = Ok st1 -> c st1 = Raise e ->
        run_cells (cs1 ++ c :: cs2) st = Raise e)
  /\ (forall (lib : Library) (st : state) (e : exn),
        open_catalog lib "../catalog.yml" = Raise e ->
        cell_load_data lib st = Raise e)
  /\ (forall (lib : Library) (e : exn),
        open_catalog lib "../catalog.yml" = Raise e ->
        run lib = Raise e)
  /\ (forall (lib : Library) (st : state) (cat : Catalog) (e : exn),
        open_catalog lib "../catalog.yml" = Ok cat ->
        landsat_5_small cat = Raise e ->
        cell_load_data lib st = Raise e)
  /\ (forall (st : state) (l5 : BandArray) (e : exn),
        globals st !! "landsat_5_da" = Some (PBands l5) ->
        Notebook.NDVI_1988 l5 = Raise e ->
        cell_NDVI_1988 st = Raise e)
  /\ (forall (lib : Library) (st : state) (a b d : DataArray) (e : exn),
        globals st !! "NDVI_2017" = Some (PArray a) ->
        globals st !! "NDVI_1988" = Some (PArray b) ->
        Notebook.diff a b = Ok d ->
        render lib "diff" = Raise e ->
        cell_diff lib st = Raise e)
  /\ (forall (lib : Library) (st : state) (l8 : BandArray) (e : exn),
        globals st !! "landsat_8_da" = Some (PBands l8) ->
        proj_to_cartopy lib (crs_attr l8) = Raise e ->
        cell_crs lib st = Raise e)
  /\ (forall (lib : Library) (st : state) (c : Crs) (e : exn),
        globals st !! "crs" = Some (PCrs c) ->
        transform_point lib c Notebook.lon Notebook.lat = Raise e ->
        cell_center lib st = Raise e)
  /\ (forall (lib : Library) (st : state) (b : DataArray) (xs ys : list Q) (e : exn),
        globals st !! "NDVI_2017" = Some (PArray b) ->
        globals st !! "x" = Some (PNdarray xs) ->
        globals st !! "y" = Some (PNdarray ys) ->
        interp lib b xs ys = Raise e ->
        cell_interp lib st = Raise e)
  /\ (forall (st : state) (d : DataArray) (xs ys xe ye : list Q) (e : exn),
        globals st !! "diff_regridded" = Some (PArray d) ->
        globals st !! "x" = Some (PNdarray xs) ->
        globals st !! "y" = Some (PNdarray ys) ->
        globals st !! "x_1000" = Some (PNdarray xe) ->
        globals st !! "y_1000" = Some (PNdarray ye) ->
        groupby_bins_mean_x d xe (but_last xs) = Raise e ->
        cell_resample st = Raise e).
Proof.
  split; [reflexivity|]. split; [exact run_cells_raise|].
  split; [|split; [|split; [|split; [|split; [|split; [|split; [|split]]]]]]].
  - intros lib st e He. unfold cell_load_data. by rewrite He.
  - intros lib e He.
    assert (Hc : forall s, cell_load_data lib s = Raise e).
    { intros s. unfold cell_load_data. by rewrite He. }
    unfold run, cells. cbn [run_cells cell_imports mbind result_bind].
    by rewrite Hc.
  - intros lib st cat e Hcat He. unfold cell_load_data, read_chunked.
    rewrite Hcat. cbn [mbind result_bind]. by rewrite He.
  - intros st l5 e Hl He. apply get_bands_Ok in Hl.
    unfold cell_NDVI_1988. rewrite Hl. cbn [mbind result_bind]. by rewrite He.
  - intros lib st a b d e Ha Hb Hd He. apply get_array_Ok in Ha, Hb.
    unfold cell_diff. rewrite Ha, Hb. cbn [mbind result_bind].
    rewrite Hd. cbn [mbind result_bind]. by rewrite He.
  - intros lib st l8 e Hl He. apply get_bands_Ok in Hl.
    unfold cell_crs. rewrite Hl. cbn [mbind result_bind]. by rewrite He.
  - intros lib st c e Hc He. apply lookup_var_Some in Hc.
    unfold cell_center, get_crs. rewrite Hc. cbn [mbind result_bind].
    by rewrite He.
  - intros lib st b xs ys e Hb Hx Hy He.
    apply get_array_Ok in Hb. apply get_ndarray_Ok in Hx, Hy.
    unfold cell_interp. rewrite Hb, Hx, Hy. cbn [mbind result_bind].
    unfold Notebook.NDVI_2017_regridded. by rewrite He.
  - intros st d xs ys xe ye e Hd Hx Hy Hxe Hye He.
    apply get_array_Ok in Hd. apply get_ndarray_Ok in Hx, Hy, Hxe, Hye.
    unfold cell_resample. rewrite Hd, Hxe, Hx, Hye, Hy.
    cbn [mbind result_bind]. unfold Notebook.diff_res_1000. by rewrite He.
Qed.

(** ** Straight-line code *)

(** C7: every step is straight-line code without side effects beyond the
    namespace.  Each statement of each cell is an import, an assignment or
    an expression statement over expressions without conditionals,
    short-circuit operators, lambdas, comprehensions or awaits (so there is
    no branch, no loop, no retry, no definition); no module of threads,
    processes or schedulers is imported; no call writes a file; and a cell
    that returns changes only the names it assigns or loads. *)
Theorem notebook_is_straight_line :
  forallb (forallb Syntax.straight_line) Syntax.notebook = true
  /\ flat_map (flat_map Syntax.imported) Syntax.notebook
     = ["intake"; "numpy"; "xarray"; "holoviews"; "cartopy.crs"; "geoviews";
        "hvplot.xarray"]
  /\ existsb (Syntax.mentions Syntax.concurrency_modules)
       (flat_map (flat_map Syntax.imported) Syntax.notebook) = false
  /\ flat_map (flat_map Syntax.stmt_callees) Syntax.notebook
     = ["extension"; "open_catalog"; "read_chunked"; "read_chunked"; "sel";
        "sel"; "sel"; "sel"; "sel"; "sel"; "sel"; "sel"; "image"; "print";
        "print"; "print"; "print"; "proj_to_cartopy"; "transform_point";
        "PlateCarree"; "Polygons"; "options"; "arange"; "arange"; "load";
        "load"; "interp"; "interp"; "Dataset"; "image"; "relabel"; "image";
        "relabel"; "image"; "arange"; "arange"; "groupby_bins"; "mean";
        "groupby_bins"; "mean"; "rename"]
  /\ existsb (Syntax.mentions Syntax.persisting_calls)
       (flat_map (flat_map Syntax.stmt_callees) Syntax.notebook) = false
  /\ (forall lib : Library,
        Forall3 cell_effect cell_names cell_events (cells lib)).
Proof.
  split; [reflexivity|]. split; [reflexivity|]. split; [reflexivity|].
  split; [reflexivity|]. split; [reflexivity|].
  exact cells_effect.
Qed.

(** ** The resampling side-note *)


(** ** The difference before regridding *)

Lemma has_label_In (q : Q) (l : list Q) : In q l -> has_label q l = true.
Proof.
  intros Hin. unfold has_label. apply existsb_exists. exists q.
  split; [exact Hin|]. apply Qeq_bool_iff. reflexivity.
Qed.

Lemma Qeq_bool_congr (q p p' : Q) :
  Qeq_bool p p' = true -> Qeq_bool q p = Qeq_bool q p'.
Proof.
  intros Hp. apply Qeq_bool_iff in Hp.
  destruct (Qeq_bool q p) eqn:E1, (Qeq_bool q p') eqn:E2; try reflexivity.
  - apply Qeq_bool_iff in E1. apply Qeq_bool_neq in E2.
    exfalso. apply E2. by rewrite E1.
  - apply Qeq_bool_iff in E2. apply Qeq_bool_neq in E1.
    exfalso. apply E1. by rewrite E2.
Qed.

Lemma has_label_equal (q : Q) (l1 l2 : list Q) :
  labels_equal l1 l2 = true -> has_label q l1 = has_label q l2.
Proof.
  revert l2. induction l1 as [|p l1 IH]; intros [|p' l2]; simpl;
    try discriminate; [reflexivity|].
  intros H. apply andb_true_iff in H as [Hp Hl].
  by rewrite (Qeq_bool_congr q p p' Hp), (IH l2 Hl).
Qed.

Lemma has_label_inner (q : Q) (la lb : list Q) :
  has_label q (inner_join la lb) = true ->
  has_label q la = true /\ has_label q lb = true.
Proof.
  unfold has_label at 1. intros H.
  apply existsb_exists in H as (p & Hp & Hqp).
  apply filter_In in Hp as [Hpa Hpb].
  split.
  - apply existsb_exists. by exists p.
  - unfold has_label in *. apply existsb_exists in Hpb as (r & Hr & Hpr).
    apply existsb_exists. exists r. split; [exact Hr|].
    apply Qeq_bool_iff in Hqp, Hpr. apply Qeq_bool_iff. by rewrite Hqp.
Qed.

Lemma join_labels_inner (la lb xs : list Q) :
  join_labels inner_join la lb = Ok xs ->
  (xs = la /\ labels_equal la lb = true) \/ xs = inner_join la lb.
Proof.
  unfold join_labels. destruct (labels_equal la lb).
  - intros [= <-]. by left.
  - destruct (has_dup la || has_dup lb); [discriminate|].
    intros [= <-]. by right.
Qed.

Lemma coord_x_reindex_y (a : DataArray) (ys : list Q) :
  coord_x (reindex_y a ys) = coord_x a.
Proof. unfold reindex_y. by destruct (labels_equal _ _). Qed.

Lemma coord_y_reindex_x (a : DataArray) (xs : list Q) :
  coord_y (reindex_x a xs) = coord_y a.
Proof. unfold reindex_x. by destruct (labels_equal _ _). Qed.

Lemma coord_x_reindex_x (a : DataArray) (xs : list Q) :
  coord_x (reindex_x a xs) = xs
  \/ (coord_x (reindex_x a xs) = coord_x a /\ labels_equal (coord_x a) xs = true).
Proof. unfold reindex_x. destruct (labels_equal _ _) eqn:E; [by right | by left]. Qed.

Lemma coord_y_reindex_y (a : DataArray) (ys : list Q) :
  coord_y (reindex_y a ys) = ys
  \/ (coord_y (reindex_y a ys) = coord_y a /\ labels_equal (coord_y a) ys = true).
Proof. unfold reindex_y. destruct (labels_equal _ _) eqn:E; [by right | by left]. Qed.

Lemma common_labels_joined (la lb xs ld : list Q) :
  join_labels inner_join la lb = Ok xs ->
  ld = xs \/ (ld = la /\ labels_equal la xs = true) ->
  common_labels la lb ld.
Proof.
  intros Hj Hd. apply join_labels_inner in Hj as [[-> Heq] | ->].
  - assert (ld = la) as -> by (destruct Hd as [|[]]; congruence).
    split.
    + intros q Hq. apply has_label_In in Hq.
      by rewrite <- (has_label_equal q la lb Heq).
    + by intros q Hq _.
  - destruct Hd as [-> | [-> Heq]].
    + split.
      * intros q Hq. apply has_label_inner. by apply has_label_In.
      * intros q Hq Hb. apply filter_In. by split.
    + split.
      * intros q Hq. apply has_label_inner.
        rewrite <- (has_label_equal q la _ Heq). by apply has_label_In.
      * by intros q Hq _.
Qed.

(** X1: before regridding, the difference of the two index arrays lives
    on the labels the two grids have in common, on each axis: every label
    of [diff] is a label of both years, and every label of the first
    operand that the second also has is a label of [diff]. *)
Theorem diff_on_common_labels (NDVI_2017 NDVI_1988 d : DataArray) :
  Notebook.diff NDVI_2017 NDVI_1988 = Ok d ->
  common_labels (coord_x NDVI_2017) (coord_x NDVI_1988) (coord_x d)
  /\ common_labels (coord_y NDVI_2017) (coord_y NDVI_1988) (coord_y d).
Proof.
  unfold Notebook.diff, da_sub, binop, align. intros H. cell_inv H. subst d.
  cell_inv E. subst v. cbn [fst snd coord_x coord_y]. split.
  - eapply common_labels_joined; [eassumption|].
    destruct (coord_x_reindex_x (reindex_y NDVI_2017 v0) v1) as [-> | [-> Heq]].
    + by left.
    + right. by rewrite coord_x_reindex_y in *.
  - eapply common_labels_joined; [eassumption|].
    rewrite coord_y_reindex_x.
    destruct (coord_y_reindex_y NDVI_2017 v0) as [-> | [-> Heq]];
      [by left | by right].
Qed.

(** ** The notebook runs to completion *)

Lemma join_labels_returns (join : list Q -> list Q -> list Q) (la lb : list Q) :
  has_dup la = false -> has_dup lb = false ->
  exists xs, join_labels join la lb = Ok xs.
Proof.
  intros Ha Hb. unfold join_labels. rewrite Ha, Hb.
  destruct (labels_equal la lb); by eexists.
Qed.



Lemma length_bins_of (l : list Q) : length (bins_of l) = (length l - 1)%nat.
Proof.
  induction l as [|p l IH]; [reflexivity|].
  destruct l as [|q l]; [reflexivity|].
  cbn [bins_of length] in *. rewrite IH. lia.
Qed.

Lemma length_but_last (l : list Q) : length (but_last l) = (length l - 1)%nat.
Proof. unfold but_last. rewrite length_firstn. lia. Qed.


Lemma nth_lookup_Some_eq {A} (l : list A) (i : nat) (d : A) :
  (i < length l)%nat -> l !! i = Some (nth i l d).
Proof.
  revert i. induction l as [|x l IH]; intros [|i] Hi; simpl in *; try lia;
    [reflexivity|]. apply IH. lia.
Qed.

Lemma increasing_head (p : Q) (l : list Q) (j : nat) (q : Q) :
  increasing (p :: l) = true -> l !! j = Some q -> p < q.
Proof.
  revert p j. induction l as [|p1 l IH]; intros p j H Hj; [discriminate|].
  cbn [increasing] in H. apply andb_true_iff in H as [Hlt Hinc].
  apply negb_true_iff in Hlt.
  assert (Hpp : p < p1).
  { apply Qnot_le_lt. intros Hle. apply Qle_bool_iff in Hle. congruence. }
  destruct j as [|j]; simpl in Hj.
  - by injection Hj as <-.
  - pose proof (IH p1 j Hinc Hj). lra.
Qed.

Lemma increasing_tail (p : Q) (l : list Q) :
  increasing (p :: l) = true -> increasing l = true.
Proof.
  destruct l as [|q l]; [reflexivity|]. cbn [increasing].
  intros H. by apply andb_true_iff in H as [_ H].
Qed.

Lemma increasing_lookup (l : list Q) (i j : nat) (p q : Q) :
  increasing l = true -> l !! i = Some p -> l !! j = Some q ->
  (i < j)%nat -> p < q.
Proof.
  revert i j. induction l as [|p0 l IH]; intros i j H Hi Hj Hlt; [discriminate|].
  destruct j as [|j]; [lia|]. simpl in Hj.
  destruct i as [|i]; simpl in Hi.
  - injection Hi as <-. by eapply increasing_head.
  - apply (IH i j); [by eapply increasing_tail | assumption.. | lia].
Qed.

Lemma bins_of_lookup (l : list Q) (k : nat) (lo hi : Q) :
  l !! k = Some lo -> l !! S k = Some hi -> bins_of l !! k = Some (lo, hi).
Proof.
  revert k. induction l as [|p l IH]; intros k Hk Hk'; [discriminate|].
  destruct l as [|q l]; [discriminate|].
  destruct k as [|k].
  - simpl in *. by injection Hk as <-; injection Hk' as <-.
  - change (bins_of (q :: l) !! k = Some (lo, hi)). by apply IH.
Qed.

Lemma but_last_lookup (l : list Q) (k : nat) (p : Q) :
  l !! k = Some p -> (S k < length l)%nat -> but_last l !! k = Some p.
Proof.
  intros Hk Hlt. unfold but_last.
  change (firstn (length l - 1) l) with (take (length l - 1) l).
  rewrite lookup_take_lt by lia. exact Hk.
Qed.

Lemma filter_seq_none (f : nat -> bool) (s n : nat) :
  (forall j, (s <= j < s + n)%nat -> f j = false) ->
  List.filter f (seq s n) = [].
Proof.
  revert s. induction n as [|n IH]; intros s H; [reflexivity|].
  cbn [seq List.filter]. rewrite (H s) by lia. apply IH.
  intros j Hj. apply H. lia.
Qed.

Lemma filter_seq_one (f : nat -> bool) (s n m : nat) :
  (s <= m < s + n)%nat ->
  (forall j, (s <= j < s + n)%nat -> f j = true <-> j = m) ->
  List.filter f (seq s n) = [m].
Proof.
  revert s. induction n as [|n IH]; intros s Hm H; [lia|].
  cbn [seq List.filter]. destruct (f s) eqn:E.
  - assert (s = m) as -> by (apply H; [lia | exact E]).
    f_equal. apply filter_seq_none. intros j Hj.
    destruct (f j) eqn:Ej; [|reflexivity].
    assert (j = m) by (apply H; [lia | exact Ej]). lia.
  - assert (s <> m).
    { intros ->. assert (f m = true) by (apply H; [lia | reflexivity]). congruence. }
    apply IH; [lia|]. intros j Hj. apply H. lia.
Qed.

(** In an increasing list, the bin between two neighbours holds the right
    neighbour and nothing else. *)
Lemma members_neighbours (l : list Q) (k : nat) (lo hi : Q) :
  increasing l = true -> l !! k = Some lo -> l !! S k = Some hi ->
  members (lo, hi) l = [S k].
Proof.
  intros Hinc Hlo Hhi. unfold members.
  apply filter_seq_one.
  { apply lookup_lt_Some in Hhi. lia. }
  intros j [_ Hj]. simpl in Hj.
  assert (Hq : l !! j = Some (nth j l 0)) by (by apply nth_lookup_Some_eq).
  remember (nth j l 0) as q eqn:Eq. clear Eq.
  unfold in_bin; cbn [fst snd]. split.
  - intros H. apply andb_true_iff in H as [H1 H2].
    apply negb_true_iff in H1. apply Qle_bool_iff in H2.
    assert (Hlt : lo < q).
    { apply Qnot_le_lt. intros Hle. apply Qle_bool_iff in Hle. congruence. }
    destruct (Nat.lt_trichotomy j (S k)) as [Hc | [Hc | Hc]]; [|exact Hc|].
    + destruct (Nat.eq_dec j k) as [->|Hne].
      * rewrite Hlo in Hq. injection Hq as Hq. rewrite Hq in Hlt. lra.
      * assert (q < lo) by (apply (increasing_lookup l j k); [assumption.. | lia]).
        lra.
    + assert (hi < q) by (by apply (increasing_lookup l (S k) j)). lra.
  - intros ->. rewrite Hhi in Hq. injection Hq as Hq. subst q.
    assert (lo < hi) by (apply (increasing_lookup l k (S k)); [assumption.. | lia]).
    apply andb_true_iff. split.
    + apply negb_true_iff. destruct (Qle_bool hi lo) eqn:E; [|reflexivity].
      apply Qle_bool_iff in E. lra.
    + apply Qle_bool_iff. lra.
Qed.

Lemma pixel_transpose (a : DataArray) (i j : nat) (v : npfloat) :
  (j < length (coord_x a))%nat ->
  pixel a i j = Some v -> pixel (transpose a) j i = Some v.
Proof.
  intros Hj Hv. unfold pixel in *. cbn [transpose values].
  rewrite lookup_map, lookup_seq_0. case_decide; [|lia]. simpl.
  rewrite lookup_map.
  destruct (values a !! i) as [row|]; [|discriminate]. simpl in *.
  f_equal. revert Hv. clear. revert j.
  induction row as [|x row IH]; intros [|j] H; simpl in *;
    try discriminate; [by injection H | by apply IH].
Qed.

(** The groups of the binned group-by when the edges are the labels. *)
Lemma groups_of_own_labels (l : list Q) :
  increasing l = true ->
  map (fun bl : Q * Q * Q => (snd bl, members (fst bl) l))
    (combine (bins_of l) (but_last l))
  = map (fun k => (nth k l 0, [S k])) (seq 0 (length l - 1)).
Proof.
  intros Hinc. apply list_eq. intros k.
  rewrite !lookup_map, lookup_seq_0.
  case_decide as Hk.
  - assert (Hlo : l !! k = Some (nth k l 0)) by (apply nth_lookup_Some_eq; lia).
    assert (Hhi : l !! S k = Some (nth (S k) l 0)) by (apply nth_lookup_Some_eq; lia).
    assert (Hc : combine (bins_of l) (but_last l) !! k
                 = Some ((nth k l 0, nth (S k) l 0), nth k l 0)).
    { change (combine (bins_of l) (but_last l)) with (zip (bins_of l) (but_last l)).
      rewrite lookup_zip_with.
      rewrite (bins_of_lookup l k _ _ Hlo Hhi). simpl.
      rewrite (but_last_lookup l k _ Hlo) by lia. reflexivity. }
    rewrite Hc. simpl. by rewrite (members_neighbours l k _ _ Hinc Hlo Hhi).
  - assert (Hn : combine (bins_of l) (but_last l) !! k = None).
    { apply lookup_ge_None. rewrite length_combine, length_bins_of. lia. }
    by rewrite Hn.
Qed.

(** Grouping an array by its own labels: with at least two of them,
    increasing, every bin holds one cell, the one at its right edge. *)
Lemma groupby_own_labels (a : DataArray) :
  increasing (coord_x a) = true -> (2 <= length (coord_x a))%nat ->
  exists g,
    groupby_bins_mean_x a (coord_x a) (but_last (coord_x a)) = Ok g
    /\ coord_y g = coord_y a
    /\ coord_x g = but_last (coord_x a)
    /\ (forall i k v,
          (S k < length (coord_x a))%nat ->
          pixel a i (S k) = Some v ->
          pixel g i k = Some (nanmean [v])).
Proof.
  intros Hinc Hlen. unfold groupby_bins_mean_x.
  rewrite Hinc, length_but_last, length_bins_of, Nat.eqb_refl. cbn [negb].
  rewrite (groups_of_own_labels _ Hinc).
  assert (Hsome : forallb (fun g : Q * list nat => (length (snd g) =? 0)%nat)
                    (map (fun k => (nth k (coord_x a) 0, [S k]))
                       (seq 0 (length (coord_x a) - 1))) = false).
  { destruct (length (coord_x a) - 1)%nat as [|n] eqn:E; [lia|]. reflexivity. }
  rewrite Hsome.
  eexists. split; [reflexivity|]. cbn [coord_y coord_x].
  split; [reflexivity|]. split.
  - rewrite map_map. cbn [fst]. apply list_eq. intros k.
    rewrite lookup_map, lookup_seq_0. case_decide as Hk.
    + simpl. symmetry. apply but_last_lookup; [|lia].
      apply nth_lookup_Some_eq. lia.
    + simpl. symmetry. apply lookup_ge_None. rewrite length_but_last. lia.
  - intros i k v Hk Hv. unfold pixel in *. cbn [values].
    rewrite lookup_map.
    destruct (values a !! i) as [row|]; [|discriminate]. simpl in *.
    rewrite !lookup_map, lookup_seq_0. case_decide; [|lia]. simpl.
    do 3 f_equal.
    revert Hv. generalize (S k). clear. intros m.
    revert m. induction row as [|x row IH]; intros [|m] H; simpl in *;
      try discriminate; [by injection H | by apply IH].
Qed.









(** ** Bands that are not there *)

Lemma band_index_None (b : Z) (l : list Z) :
  ~ In b l -> band_index b l = None.
Proof.
  induction l as [|c l IH]; simpl; [reflexivity|].
  intros Hn. destruct (Z.eqb_spec c b) as [->|Hne].
  - exfalso. apply Hn. by left.
  - rewrite IH; [reflexivity|]. intros Hin. apply Hn. by right.
Qed.

Lemma sel_missing (da : BandArray) (b : Z) :
  ~ In b (coord_band da) -> sel da b = Raise (KeyError "band").
Proof. intros Hn. unfold sel. by rewrite band_index_None. Qed.

Lemma normalized_difference_missing (da : BandArray) (b_nir b_red : Z) :
  ~ (In b_nir (coord_band da) /\ In b_red (coord_band da)) ->
  normalized_difference da b_nir b_red = Raise (KeyError "band").
Proof.
  intros Hn. unfold normalized_difference.
  destruct (in_dec Z.eq_dec b_nir (coord_band da)) as [Hnir|Hnir].
  - destruct (sel_In _ _ Hnir) as (nir & -> & _). cbn [mbind result_bind].
    assert (Hred : ~ In b_red (coord_band da)).
    { intros Hred. apply Hn. by split. }
    rewrite (sel_missing da b_red Hred). reflexivity.
  - rewrite (sel_missing da b_nir Hnir). reflexivity.
Qed.

(** X3: an index cell returns exactly when its raster has both bands the
    expression selects; when one of them is missing the expression, and
    with it the cell, raises [KeyError] for the [band] dimension. *)
Theorem ndvi_needs_both_bands (da : BandArray) (st : state) :
  (In 4%Z (coord_band da) /\ In 3%Z (coord_band da) ->
     exists out, Notebook.NDVI_1988 da = Ok out)
  /\ (~ (In 4%Z (coord_band da) /\ In 3%Z (coord_band da)) ->
        Notebook.NDVI_1988 da = Raise (KeyError "band")
        /\ (globals st !! "landsat_5_da" = Some (PBands da) ->
              cell_NDVI_1988 st = Raise (KeyError "band")))
  /\ (In 5%Z (coord_band da) /\ In 4%Z (coord_band da) ->
        exists out, Notebook.NDVI_2017 da = Ok out)
  /\ (~ (In 5%Z (coord_band da) /\ In 4%Z (coord_band da)) ->
        Notebook.NDVI_2017 da = Raise (KeyError "band")
        /\ (globals st !! "landsat_8_da" = Some (PBands da) ->
              cell_NDVI_2017 st = Raise (KeyError "band"))).
Proof.
  split; [|split; [|split]].
  - intros [H4 H3].
    destruct (normalized_difference_spec da 4 3 H4 H3) as (out & _ & _ & _ & _ & H & _).
    by exists out.
  - intros Hn.
    pose proof (normalized_difference_missing da 4 3 Hn) as He.
    change (Notebook.NDVI_1988 da = Raise (KeyError "band")) in He.
    split; [exact He|]. intros Hl. apply get_bands_Ok in Hl.
    unfold cell_NDVI_1988. rewrite Hl. cbn [mbind result_bind]. by rewrite He.
  - intros [H5 H4].
    destruct (normalized_difference_spec da 5 4 H5 H4) as (out & _ & _ & _ & _ & H & _).
    by exists out.
  - intros Hn.
    pose proof (normalized_difference_missing da 5 4 Hn) as He.
    change (Notebook.NDVI_2017 da = Raise (KeyError "band")) in He.
    split; [exact He|]. intros Hl. apply get_bands_Ok in Hl.
    unfold cell_NDVI_2017. rewrite Hl. cbn [mbind result_bind]. by rewrite He.
Qed.

(** ** Cells run out of order *)

Lemma lookup_var_unbound (st : state) (n : string) :
  globals st !! n = None -> lookup_var st n = Raise (NameError n).
Proof. intros H. unfold lookup_var. by rewrite H. Qed.

Ltac need_solve :=
  let n := fresh "n" in
  let st := fresh "st" in
  let Hn := fresh "Hn" in
  let Hu := fresh "Hu" in
  intros n st Hn Hu; try discriminate Hn;
  injection Hn as <-;
  apply lookup_var_unbound in Hu;
  unfold get_number, get_ndarray, get_boxes, get_bands, get_array,
    get_dataset, get_crs;
  repeat match goal with
         | |- context [lookup_var (assign ?m ?o ?s) ?x] =>
             lazymatch x with
             | m => fail
             | _ => rewrite (lookup_assign_other m x o s) by (intro; discriminate)
             end
         end;
  rewrite Hu; reflexivity.

(** X4: each cell assumes the outputs of the cells before it.  The first
    name a cell reads that it has not assigned itself is, for every cell
    that reads one, assigned by an earlier cell; and run in a namespace
    where that name is not bound, the cell raises [NameError] for it.  The
    import cell, the catalog cell and the last cell need no name. *)
Theorem cells_need_earlier_cells (lib : Library) :
  cell_needs
  = [None; None; Some "landsat_8_da"; Some "landsat_5_da";
     Some "landsat_8_da"; Some "NDVI_2017"; Some "diff"; Some "NDVI_1988";
     Some "NDVI_1988"; Some "landsat_8_da"; Some "landsat_8_da"; Some "crs";
     Some "x_center"; Some "bounding_box"; Some "xmin"; Some "NDVI_1988";
     Some "NDVI_2017"; Some "NDVI_1988_regridded"; Some "ds_regridded";
     Some "ds_regridded"; Some "diff_regridded"; Some "xmin";
     Some "diff_regridded"; None]
  /\ Forall2
       (fun need c =>
          forall (n : string) (st : state),
            need = Some n -> globals st !! n = None ->
            c st = Raise (NameError n))
       cell_needs (cells lib)
  /\ (forall (k : nat) (n : string),
        cell_needs !! k = Some (Some n) ->
        exists k', first_binder n cell_names = Some k' /\ (k' < k)%nat).
Proof.
  split; [reflexivity|]. split.
  - change cell_needs with
      [None; None; Some "landsat_8_da"; Some "landsat_5_da";
       Some "landsat_8_da"; Some "NDVI_2017"; Some "diff"; Some "NDVI_1988";
       Some "NDVI_1988"; Some "landsat_8_da"; Some "landsat_8_da"; Some "crs";
       Some "x_center"; Some "bounding_box"; Some "xmin"; Some "NDVI_1988";
       Some "NDVI_2017"; Some "NDVI_1988_regridded"; Some "ds_regridded";
       Some "ds_regridded"; Some "diff_regridded"; Some "xmin";
       Some "diff_regridded"; None].
    unfold cells.
    repeat match goal with
           | |- Forall2 _ (_ :: _) (_ :: _) => constructor
           | |- Forall2 _ [] [] => constructor
           end;
      unfold_cells; need_solve.
  - intros k n Hk.
    do 24 (destruct k as [|k];
           [vm_compute in Hk;
            first [ discriminate Hk
                  | injection Hk as <-;
                    eexists; split; [vm_compute; reflexivity | lia] ] |]).
    vm_compute in Hk. discriminate Hk.
Qed.

(** ** The difference of any dataset *)

Lemma getitem_Ok (ds : Dataset) (name : string) (a : DataArray) :
  getitem ds name = Ok a ->
  coord_y a = ds_y ds /\ coord_x a = ds_x ds.
Proof.
  unfold getitem. destruct (data_vars ds !! name); [|discriminate].
  by intros [= <-].
Qed.

Lemma fsub_finite (u v : npfloat) :
  is_finite (fsub u v) = true -> is_finite u = true /\ is_finite v = true.
Proof. by destruct u, v. Qed.

Lemma fsub_nan (u v : npfloat) :
  is_nan u || is_nan v = true -> is_nan (fsub u v) = true.
Proof. by destruct u, v. Qed.

(** X6: the difference cell on any dataset.  Without the variable
    ['NDVI_2017'], or with it but without ['NDVI_1988'], the expression
    raises [KeyError] for the missing name (the left operand first).  With
    both it always returns: the two arrays come out of the dataset on its
    own coordinates, so no alignment can fail; the result carries these
    coordinates, each of its pixels is the difference of the two pixels
    there; it is a finite number only where both are, and [nan] wherever
    one of them is. *)
Theorem diff_regridded_of_any_dataset (ds : Dataset) :
  (data_vars ds !! "NDVI_2017" = None ->
     Notebook.diff_regridded ds = Raise (KeyError "NDVI_2017"))
  /\ (forall rb, getitem ds "NDVI_2017" = Ok rb ->
        data_vars ds !! "NDVI_1988" = None ->
        Notebook.diff_regridded ds = Raise (KeyError "NDVI_1988"))
  /\ (forall rb ra,
        getitem ds "NDVI_2017" = Ok rb -> getitem ds "NDVI_1988" = Ok ra ->
        exists d,
          Notebook.diff_regridded ds = Ok d
          /\ coord_x d = ds_x ds /\ coord_y d = ds_y ds
          /\ (forall i j,
                pixel d i j
                = (u ← pixel rb i j; v ← pixel ra i j; Some (fsub u v)))
          /\ (forall i j u v,
                pixel rb i j = Some u -> pixel ra i j = Some v ->
                exists w,
                  pixel d i j = Some w
                  /\ (is_finite w = true ->
                        is_finite u = true /\ is_finite v = true)
                  /\ (is_nan u || is_nan v = true -> is_nan w = true))).
Proof.
  split; [|split].
  - intros Hn. unfold Notebook.diff_regridded, getitem. by rewrite Hn.
  - intros rb Hb Hn. unfold Notebook.diff_regridded. rewrite Hb.
    cbn [mbind result_bind]. unfold getitem. by rewrite Hn.
  - intros rb ra Hb Ha.
    destruct (getitem_Ok _ _ _ Hb) as [Hby Hbx].
    destruct (getitem_Ok _ _ _ Ha) as [Hay Hax].
    unfold Notebook.diff_regridded. rewrite Hb, Ha. cbn [mbind result_bind].
    unfold da_sub. rewrite binop_same_labels by congruence.
    eexists. split; [reflexivity|]. cbn [coord_x coord_y].
    split; [exact Hbx|]. split; [exact Hby|].
    assert (Hpix : forall i j,
               pixel {| coord_y := coord_y rb; coord_x := coord_x rb;
                        values := zip_with (zip_with fsub) (values rb) (values ra);
                        chunked := chunked rb || chunked ra |} i j
               = (u ← pixel rb i j; v ← pixel ra i j; Some (fsub u v))).
    { intros i j. by rewrite pixel_zip_with. }
    split; [exact Hpix|].
    intros i j u v Hu Hv. rewrite Hpix, Hu, Hv. simpl.
    eexists. split; [reflexivity|]. split; [apply fsub_finite | apply fsub_nan].
Qed.

(** ** What the index says about the bands *)

Lemma ndvi_pixel_reads_bands (n r : Q) :
  0 <= n -> 0 <= r -> 0 < n + r ->
  exists q, ndvi_pixel (Fin n) (Fin r) = Fin q /\ reads_bands q n r.
Proof.
  intros Hn Hr Hs. unfold ndvi_pixel; simpl.
  destruct (Qeq_bool (n + r) 0) eqn:E.
  { apply Qeq_bool_eq in E. lra. }
  eexists. split; [reflexivity|].
  set (q := (n + - r) / (n + r)).
  assert (Hq : q * (n + r) == n - r) by (unfold q; field; lra).
  unfold reads_bands. repeat split; intros H; nra.
Qed.

Lemma is_ndvi_reads_bands (out nir red : DataArray) :
  is_ndvi_of out nir red -> index_reads_bands out nir red.
Proof.
  intros Hout i j n r Hn Hr H0n H0r Hs. rewrite Hout, Hn, Hr. simpl.
  destruct (ndvi_pixel_reads_bands n r H0n H0r Hs) as (q & -> & Hq).
  by exists q.
Qed.

(** X8: what the index tells.  At every pixel whose two bands are
    non-negative and not both zero, the value of [NDVI_1988] (bands 4 and
    3) and of [NDVI_2017] (bands 5 and 4) is a finite number: zero where
    the bands are equal, 1 where Red is zero, -1 where NIR is zero,
    positive only where NIR exceeds Red and negative only where Red
    exceeds NIR. *)
Theorem ndvi_reads_the_bands (landsat_5_da landsat_8_da : BandArray) :
  In 4%Z (coord_band landsat_5_da) -> In 3%Z (coord_band landsat_5_da) ->
  In 5%Z (coord_band landsat_8_da) -> In 4%Z (coord_band landsat_8_da) ->
  (exists out nir red,
     sel landsat_5_da 4 = Ok nir /\ sel landsat_5_da 3 = Ok red
     /\ Notebook.NDVI_1988 landsat_5_da = Ok out
     /\ index_reads_bands out nir red)
  /\ (exists out nir red,
        sel landsat_8_da 5 = Ok nir /\ sel landsat_8_da 4 = Ok red
        /\ Notebook.NDVI_2017 landsat_8_da = Ok out
        /\ index_reads_bands out nir red).
Proof.
  intros H4 H3 H5 H4'. split.
  - destruct (normalized_difference_spec landsat_5_da 4 3 H4 H3)
      as (out & nir & red & ? & ? & ? & ? & ? & ? & Hout).
    exists out, nir, red. repeat (split; [assumption|]).
    by apply is_ndvi_reads_bands.
  - destruct (normalized_difference_spec landsat_8_da 5 4 H5 H4')
      as (out & nir & red & ? & ? & ? & ? & ? & ? & Hout).
    exists out, nir, red. repeat (split; [assumption|]).
    by apply is_ndvi_reads_bands.
Qed.

(** ** The difference before regridding, label by label *)

Lemma Qeq_bool_sym (p q : Q) : Qeq_bool p q = Qeq_bool q p.
Proof.
  destruct (Qeq_bool p q) eqn:E1, (Qeq_bool q p) eqn:E2; try reflexivity.
  - apply Qeq_bool_iff in E1. apply Qeq_bool_neq in E2. exfalso. by apply E2.
  - apply Qeq_bool_iff in E2. apply Qeq_bool_neq in E1. exfalso. by apply E1.
Qed.

Lemma index_of_congr (q q' : Q) (l : list Q) :
  Qeq_bool q q' = true -> index_of q l = index_of q' l.
Proof.
  intros H. induction l as [|p l IH]; simpl; [reflexivity|].
  by rewrite (Qeq_bool_congr p q q' H), IH.
Qed.

Lemma has_label_false (q p : Q) (l : list Q) :
  has_label q l = false -> In p l -> Qeq_bool q p = false.
Proof.
  unfold has_label. intros H Hin.
  destruct (Qeq_bool q p) eqn:E; [|reflexivity].
  assert (existsb (Qeq_bool q) l = true) by (apply existsb_exists; eauto).
  congruence.
Qed.

Lemma index_of_lookup (l : list Q) (i : nat) (p : Q) :
  has_dup l = false -> l !! i = Some p -> index_of p l = Some i.
Proof.
  revert i. induction l as [|p0 l IH]; intros i Hd Hi; [discriminate|].
  simpl in Hd. apply orb_false_iff in Hd as [Hl Hd].
  destruct i as [|i]; simpl in *.
  - injection Hi as ->.
    assert (E : Qeq_bool p p = true) by (apply Qeq_bool_iff; reflexivity).
    by rewrite E.
  - assert (Hin : In p l) by (apply list_elem_of_In; by eapply list_elem_of_lookup_2).
    rewrite (has_label_false p0 p l Hl Hin). by rewrite (IH i Hd Hi).
Qed.

Lemma has_label_index_of (q : Q) (l : list Q) :
  has_label q l = true -> exists i, index_of q l = Some i /\ (i < length l)%nat.
Proof.
  induction l as [|p l IH]; simpl; [discriminate|].
  rewrite (Qeq_bool_sym q p). destruct (Qeq_bool p q).
  - intros _. exists 0%nat. split; [reflexivity | lia].
  - simpl. intros H. destruct (IH H) as (i & -> & Hi).
    exists (S i). split; [reflexivity | lia].
Qed.

Lemma labels_equal_lookup (l1 l2 : list Q) (i : nat) (q : Q) :
  labels_equal l1 l2 = true -> l2 !! i = Some q ->
  exists p, l1 !! i = Some p /\ Qeq_bool p q = true.
Proof.
  revert l2 i. induction l1 as [|p1 l1 IH]; intros [|p2 l2] i H Hi;
    simpl in H; try discriminate.
  apply andb_true_iff in H as [Hp Hl].
  destruct i as [|i]; simpl in *.
  - injection Hi as <-. by exists p1.
  - by apply (IH l2).
Qed.

Lemma labels_equal_sym (l1 l2 : list Q) :
  labels_equal l1 l2 = labels_equal l2 l1.
Proof.
  revert l2. induction l1 as [|p l1 IH]; intros [|q l2]; simpl; try reflexivity.
  by rewrite Qeq_bool_sym, IH.
Qed.

Lemma well_shaped_rows (a : DataArray) :
  well_shaped a = true ->
  length (values a) = length (coord_y a)
  /\ (forall row, In row (values a) -> length row = length (coord_x a)).
Proof.
  unfold well_shaped. intros H. apply andb_true_iff in H as [Hl Hr].
  split; [by apply Nat.eqb_eq|].
  intros row Hin. rewrite forallb_forall in Hr. apply Nat.eqb_eq. by apply Hr.
Qed.

Lemma lookup_In {A} (l : list A) (i : nat) (x : A) : l !! i = Some x -> In x l.
Proof. intros H. apply list_elem_of_In. by eapply list_elem_of_lookup_2. Qed.

(** Reindexing the rows of a well-shaped array to labels it has. *)
Lemma reindex_y_rows (a : DataArray) (ys : list Q) :
  well_shaped a = true -> has_dup (coord_y a) = false ->
  (forall q, In q ys -> has_label q (coord_y a) = true) ->
  coord_x (reindex_y a ys) = coord_x a
  /\ labels_equal (coord_y (reindex_y a ys)) ys = true
  /\ well_shaped (reindex_y a ys) = true
  /\ (forall i qy, ys !! i = Some qy ->
        exists i0 row,
          index_of qy (coord_y a) = Some i0
          /\ values a !! i0 = Some row
          /\ values (reindex_y a ys) !! i = Some row).
Proof.
  intros Hw Hd Hin. destruct (well_shaped_rows a Hw) as [Hlen Hrows].
  unfold reindex_y. destruct (labels_equal (coord_y a) ys) eqn:E.
  - split; [reflexivity|]. split; [exact E|]. split; [exact Hw|].
    intros i qy Hi.
    destruct (labels_equal_lookup _ _ _ _ E Hi) as (p & Hp & Hpq).
    assert (Hlt : (i < length (values a))%nat).
    { rewrite Hlen. by eapply lookup_lt_Some. }
    exists i, (nth i (values a) []).
    split; [|split; by apply nth_lookup_Some_eq].
    rewrite <- (index_of_congr p qy _ Hpq). by apply index_of_lookup.
  - cbn [coord_x coord_y values]. split; [reflexivity|].
    split; [apply labels_equal_refl|]. split.
    + unfold well_shaped; cbn [values coord_x coord_y].
      rewrite length_map, Nat.eqb_refl. simpl.
      apply forallb_forall. intros row Hrow.
      apply in_map_iff in Hrow as (q & <- & Hq). apply Nat.eqb_eq.
      destruct (index_of q (coord_y a)) as [i0|]; [|apply repeat_length].
      destruct (Nat.lt_ge_cases i0 (length (values a))) as [Hlt|Hge].
      * apply Hrows. by apply nth_In.
      * rewrite nth_overflow by exact Hge. apply repeat_length.
    + intros i qy Hi. rewrite lookup_map, Hi. simpl.
      destruct (has_label_index_of qy (coord_y a)) as (i0 & Hi0 & Hlt).
      { apply Hin. by eapply lookup_In. }
      rewrite Hi0. rewrite <- Hlen in Hlt.
      exists i0, (nth i0 (values a) (repeat NaN (length (coord_x a)))).
      split; [reflexivity|]. split; [by apply nth_lookup_Some_eq | reflexivity].
Qed.

(** Reindexing the columns of a well-shaped array to labels it has. *)
Lemma reindex_x_cols (a : DataArray) (xs : list Q) :
  well_shaped a = true -> has_dup (coord_x a) = false ->
  (forall q, In q xs -> has_label q (coord_x a) = true) ->
  coord_y (reindex_x a xs) = coord_y a
  /\ labels_equal (coord_x (reindex_x a xs)) xs = true
  /\ (forall i row, values a !! i = Some row ->
        exists row',
          values (reindex_x a xs) !! i = Some row'
          /\ forall j qx, xs !! j = Some qx ->
               exists j0 v,
                 index_of qx (coord_x a) = Some j0
                 /\ row !! j0 = Some v /\ row' !! j = Some v).
Proof.
  intros Hw Hd Hin. destruct (well_shaped_rows a Hw) as [Hlen Hrows].
  unfold reindex_x. destruct (labels_equal (coord_x a) xs) eqn:E.
  - split; [reflexivity|]. split; [exact E|].
    intros i row Hrow. exists row. split; [exact Hrow|].
    intros j qx Hj.
    destruct (labels_equal_lookup _ _ _ _ E Hj) as (p & Hp & Hpq).
    assert (Hlt : (j < length row)%nat).
    { rewrite (Hrows row) by (by eapply lookup_In). by eapply lookup_lt_Some. }
    exists j, (nth j row NaN).
    split; [|split; by apply nth_lookup_Some_eq].
    rewrite <- (index_of_congr p qx _ Hpq). by apply index_of_lookup.
  - cbn [coord_x coord_y values]. split; [reflexivity|].
    split; [apply labels_equal_refl|].
    intros i row Hrow. rewrite lookup_map, Hrow. simpl.
    eexists. split; [reflexivity|].
    intros j qx Hj. rewrite lookup_map, Hj. simpl.
    destruct (has_label_index_of qx (coord_x a)) as (j0 & Hj0 & Hlt).
    { apply Hin. by eapply lookup_In. }
    rewrite Hj0. rewrite <- (Hrows row) in Hlt by (by eapply lookup_In).
    exists j0, (nth j0 row NaN).
    split; [reflexivity|]. split; [by apply nth_lookup_Some_eq | reflexivity].
Qed.

Lemma reindex_pixel (a : DataArray) (ys xs : list Q) :
  well_shaped a = true ->
  has_dup (coord_y a) = false -> has_dup (coord_x a) = false ->
  (forall q, In q ys -> has_label q (coord_y a) = true) ->
  (forall q, In q xs -> has_label q (coord_x a) = true) ->
  labels_equal (coord_y (reindex_x (reindex_y a ys) xs)) ys = true
  /\ labels_equal (coord_x (reindex_x (reindex_y a ys) xs)) xs = true
  /\ (forall i j qy qx, ys !! i = Some qy -> xs !! j = Some qx ->
        exists v, at_label a qy qx = Some v
                  /\ pixel (reindex_x (reindex_y a ys) xs) i j = Some v).
Proof.
  intros Hw Hdy Hdx Hy Hx.
  destruct (reindex_y_rows a ys Hw Hdy Hy) as (Hcx & Hly & Hw1 & Hrows).
  destruct (reindex_x_cols (reindex_y a ys) xs Hw1) as (Hcy & Hlx & Hcols).
  { by rewrite Hcx. }
  { by rewrite Hcx. }
  split; [by rewrite Hcy|]. split; [exact Hlx|].
  intros i j qy qx Hi Hj.
  destruct (Hrows i qy Hi) as (i0 & row & Hi0 & Hrow & Hrow1).
  destruct (Hcols i row Hrow1) as (row' & Hrow' & Hcol).
  destruct (Hcol j qx Hj) as (j0 & v & Hj0 & Hv & Hv').
  rewrite Hcx in Hj0.
  exists v. split.
  - unfold at_label, pixel. rewrite Hi0, Hj0. simpl. rewrite Hrow. simpl. exact Hv.
  - unfold pixel. rewrite Hrow'. simpl. exact Hv'.
Qed.

Lemma join_labels_has (la lb xs : list Q) :
  join_labels inner_join la lb = Ok xs ->
  forall q, In q xs -> has_label q la = true /\ has_label q lb = true.
Proof.
  intros Hj q Hq. apply join_labels_inner in Hj as [[-> Heq] | ->].
  - apply has_label_In in Hq. split; [exact Hq|].
    by rewrite <- (has_label_equal q la lb Heq).
  - apply has_label_inner. by apply has_label_In.
Qed.

Lemma at_label_congr (a : DataArray) (qy qy' qx qx' : Q) :
  Qeq_bool qy qy' = true -> Qeq_bool qx qx' = true ->
  at_label a qy qx = at_label a qy' qx'.
Proof.
  intros Hy Hx. unfold at_label.
  by rewrite (index_of_congr qy qy' _ Hy), (index_of_congr qx qx' _ Hx).
Qed.

(** X9: before regridding the difference is taken label by label, not
    position by position.  For two well-shaped index arrays without
    repeated labels the difference cell returns, and each pixel of [diff]
    is the difference of the two pixels that carry its pair of labels in
    [NDVI_2017] and in [NDVI_1988], wherever these sit in the two
    arrays. *)
Theorem diff_is_by_label (NDVI_2017 NDVI_1988 : DataArray) :
  well_shaped NDVI_2017 = true -> well_shaped NDVI_1988 = true ->
  has_dup (coord_x NDVI_2017) = false -> has_dup (coord_y NDVI_2017) = false ->
  has_dup (coord_x NDVI_1988) = false -> has_dup (coord_y NDVI_1988) = false ->
  exists d,
    Notebook.diff NDVI_2017 NDVI_1988 = Ok d
    /\ forall i j qy qx,
         coord_y d !! i = Some qy -> coord_x d !! j = Some qx ->
         exists u v,
           at_label NDVI_2017 qy qx = Some u
           /\ at_label NDVI_1988 qy qx = Some v
           /\ pixel d i j = Some (fsub u v).
Proof.
  intros Hwa Hwb Hax Hay Hbx Hby.
  unfold Notebook.diff, da_sub, binop, align.
  destruct (join_labels_returns inner_join _ _ Hay Hby) as [ys Hys].
  destruct (join_labels_returns inner_join _ _ Hax Hbx) as [xs Hxs].
  rewrite Hys, Hxs. cbn [mbind result_bind fst snd].
  eexists. split; [reflexivity|]. cbn [coord_x coord_y].
  pose proof (join_labels_has _ _ _ Hys) as Hyin.
  pose proof (join_labels_has _ _ _ Hxs) as Hxin.
  destruct (reindex_pixel NDVI_2017 ys xs Hwa Hay Hax) as (Hly & Hlx & Hpa).
  { intros q Hq. by apply Hyin. }
  { intros q Hq. by apply Hxin. }
  destruct (reindex_pixel NDVI_1988 ys xs Hwb Hby Hbx) as (_ & _ & Hpb).
  { intros q Hq. by apply Hyin. }
  { intros q Hq. by apply Hxin. }
  intros i j qy qx Hi Hj.
  rewrite labels_equal_sym in Hly, Hlx.
  destruct (labels_equal_lookup _ _ _ _ Hly Hi) as (py & Hpy & Hqy).
  destruct (labels_equal_lookup _ _ _ _ Hlx Hj) as (px & Hpx & Hqx).
  destruct (Hpa i j py px Hpy Hpx) as (u & Hu & Hu').
  destruct (Hpb i j py px Hpy Hpx) as (v & Hv & Hv').
  exists u, v.
  rewrite <- (at_label_congr NDVI_2017 py qy px qx Hqy Hqx).
  rewrite <- (at_label_congr NDVI_1988 py qy px qx Hqy Hqx).
  split; [exact Hu|]. split; [exact Hv|].
  rewrite pixel_zip_with. unfold pixel in Hu', Hv'. by rewrite Hu', Hv'.
Qed.

(** ** The resampling cell moves the array by one cell *)

Lemma same_value_refl (v : npfloat) : same_value v v.
Proof. destruct v; simpl; [reflexivity | exact I..]. Qed.

Lemma same_value_trans (u v w : npfloat) :
  same_value u v -> same_value v w -> same_value u w.
Proof.
  destruct u, v, w; simpl; try tauto. intros H1 H2. by rewrite H1.
Qed.

(** The mean of one value is that value. *)
Lemma nanmean_one (v : npfloat) : same_value (nanmean [v]) v.
Proof.
  destruct v as [q| | |]; unfold nanmean; simpl; try exact I.
  field.
Qed.

(** X10: on its own grid the resampling cell averages nothing.  When the
    edges are the labels of the array itself, as [x_1000] and [y_1000] are,
    the labels increase and each axis has at least two of them, the two
    binned group-bys return; the result is labelled by all labels but the
    last on each axis; and its pixel (i, k) is the pixel (i + 1, k + 1) of
    the input: every bin holds exactly one cell, the one at its right edge,
    and takes the name of its left edge. *)
Theorem resample_moves_by_one_cell (d : DataArray) :
  increasing (coord_x d) = true -> increasing (coord_y d) = true ->
  (2 <= length (coord_x d))%nat -> (2 <= length (coord_y d))%nat ->
  exists r,
    Notebook.diff_res_1000 d (coord_x d) (coord_y d) (coord_x d) (coord_y d)
    = Ok r
    /\ coord_x r = but_last (coord_x d)
    /\ coord_y r = but_last (coord_y d)
    /\ (forall i k v,
          (S i < length (coord_y d))%nat -> (S k < length (coord_x d))%nat ->
          pixel d (S i) (S k) = Some v ->
          exists w, pixel r i k = Some w /\ same_value w v).
Proof.
  intros Hx Hy Hlx Hly. unfold Notebook.diff_res_1000.
  destruct (groupby_own_labels d Hx Hlx) as (g & Hg & Hgy & Hgx & Hgp).
  rewrite Hg. cbn [mbind result_bind]. unfold groupby_bins_mean_y.
  assert (Htx : coord_x (transpose g) = coord_y d) by (by rewrite <- Hgy).
  destruct (groupby_own_labels (transpose g)) as (t & Ht & Hty & Htx' & Htp);
    [by rewrite Htx | by rewrite Htx |].
  rewrite Htx in Ht, Htx', Htp. rewrite Ht. cbn [mbind result_bind].
  eexists. split; [reflexivity|]. cbn [transpose coord_x coord_y].
  split; [by rewrite Hty; cbn [transpose coord_y]|].
  split; [exact Htx'|].
  intros i k v Hi Hk Hv.
  exists (nanmean [nanmean [v]]). split.
  - apply pixel_transpose.
    { rewrite Htx', length_but_last. lia. }
    apply Htp; [exact Hi|].
    apply pixel_transpose.
    { rewrite Hgx, length_but_last. lia. }
    by apply Hgp.
  - eapply same_value_trans; apply nanmean_one.
Qed.

Lemma groupby_too_few (a : DataArray) :
  (length (coord_x a) < 2)%nat ->
  groupby_bins_mean_x a (coord_x a) (but_last (coord_x a))
  = Raise (ValueError "None of the data falls within bins with edges").
Proof.
  intros Hl. unfold groupby_bins_mean_x.
  destruct (coord_x a) as [|x0 [|x1 l]]; [reflexivity | reflexivity |].
  simpl in Hl. lia.
Qed.

(** X13: the resampling cell needs two labels on each axis.  When the
    edges are the labels of the array itself and an axis has fewer than
    two of them, no label falls in any bin and the expression raises
    [ValueError]: on the x axis in the first group-by, on the y axis in
    the second. *)
Theorem resample_needs_two_labels (d : DataArray) :
  increasing (coord_x d) = true ->
  (length (coord_x d) < 2)%nat \/ (length (coord_y d) < 2)%nat ->
  exists what : string,
    Notebook.diff_res_1000 d (coord_x d) (coord_y d) (coord_x d) (coord_y d)
    = Raise (ValueError what).
Proof.
  intros Hx Hl. eexists. unfold Notebook.diff_res_1000.
  destruct (Nat.lt_ge_cases (length (coord_x d)) 2) as [Hlx | Hlx].
  { by rewrite groupby_too_few. }
  destruct Hl as [Hl | Hly]; [lia|].
  destruct (groupby_own_labels d Hx Hlx) as (g & Hg & Hgy & _). rewrite Hg.
  cbn [mbind result_bind]. unfold groupby_bins_mean_y.
  assert (Htx : coord_x (transpose g) = coord_y d) by (by rewrite <- Hgy).
  rewrite <- Htx. rewrite groupby_too_few; [reflexivity | by rewrite Htx].
Qed.

(** ** The cells that print coordinates *)

(** X11: the two printing cells index the x axis without a check.  With
    the two index arrays bound, the cell that prints the first x label of
    each returns exactly when neither axis is empty, and the cell that
    prints the spacing of the first two labels returns exactly when each
    axis has two labels; otherwise they raise [IndexError].  When they
    return they leave the namespace as it was. *)
Theorem printing_cells_index_unchecked (st : state) (a b : DataArray) :
  globals st !! "NDVI_1988" = Some (PArray a) ->
  globals st !! "NDVI_2017" = Some (PArray b) ->
  cell_first_x st
  = (if (1 <=? length (coord_x a))%nat && (1 <=? length (coord_x b))%nat
     then Ok st else Raise IndexError)
  /\ cell_resolution st
     = (if (2 <=? length (coord_x a))%nat && (2 <=? length (coord_x b))%nat
        then Ok st else Raise IndexError).
Proof.
  intros Ha Hb. apply get_array_Ok in Ha, Hb.
  unfold cell_first_x, cell_resolution. rewrite Ha, Hb.
  cbn [mbind result_bind]. unfold item.
  destruct (coord_x a) as [|a0 [|a1 la]], (coord_x b) as [|b0 [|b1 lb]];
    by split.
Qed.

(** ** The theorems at sample inputs *)

Lemma ndvi_is_normalized_difference_witness :
  (In 4%Z (coord_band Sample.landsat_5) /\ In 3%Z (coord_band Sample.landsat_5)
   /\ In 5%Z (coord_band Sample.landsat_8) /\ In 4%Z (coord_band Sample.landsat_8))
  /\ (exists out nir red,
        sel Sample.landsat_5 4 = Ok nir /\ sel Sample.landsat_5 3 = Ok red
        /\ Notebook.NDVI_1988 Sample.landsat_5 = Ok out
        /\ coord_y out = band_y Sample.landsat_5
        /\ coord_x out = band_x Sample.landsat_5
        /\ is_ndvi_of out nir red)
  /\ (exists out nir red,
        sel Sample.landsat_8 5 = Ok nir /\ sel Sample.landsat_8 4 = Ok red
        /\ Notebook.NDVI_2017 Sample.landsat_8 = Ok out
        /\ coord_y out = band_y Sample.landsat_8
        /\ coord_x out = band_x Sample.landsat_8
        /\ is_ndvi_of out nir red).
Proof.
  split.
  - simpl. tauto.
  - apply (ndvi_is_normalized_difference Sample.landsat_5 Sample.landsat_8);
      simpl; tauto.
Defined.

Lemma ndvi_division_unguarded_witness :
  (In 4%Z (coord_band Sample.landsat_5) /\ In 3%Z (coord_band Sample.landsat_5)
   /\ In 5%Z (coord_band Sample.landsat_8) /\ In 4%Z (coord_band Sample.landsat_8))
  /\ (exists out nir red,
        sel Sample.landsat_5 4 = Ok nir /\ sel Sample.landsat_5 3 = Ok red
        /\ Notebook.NDVI_1988 Sample.landsat_5 = Ok out
        /\ unguarded_and_bounded out nir red)
  /\ (exists out nir red,
        sel Sample.landsat_8 5 = Ok nir /\ sel Sample.landsat_8 4 = Ok red
        /\ Notebook.NDVI_2017 Sample.landsat_8 = Ok out
        /\ unguarded_and_bounded out nir red).
Proof.
  split.
  - simpl. tauto.
  - apply (ndvi_division_unguarded Sample.landsat_5 Sample.landsat_8);
      simpl; tauto.
Defined.

(** On the sample raster the first pixel has a zero band sum and is [nan];
    its neighbour is 1/7. *)
Example sample_ndvi_pixels :
  (out ← Notebook.NDVI_1988 Sample.landsat_5;
   Ok (pixel out 0 0, pixel out 0 1))
  = Ok (Some NaN, Some (Fin (1 # 7))).
Proof. reflexivity. Qed.

Lemma regridded_share_grid_witness :
  (globals Sample.loaded !! "NDVI_1988" = Some (PArray Sample.ndvi_88)
   /\ chunked Sample.ndvi_88 = false
   /\ globals Sample.loaded !! "NDVI_2017" = Some (PArray Sample.ndvi_17)
   /\ chunked Sample.ndvi_17 = false
   /\ monotonic_axis (coord_x Sample.ndvi_88) = true
   /\ monotonic_axis (coord_y Sample.ndvi_88) = true
   /\ monotonic_axis (coord_x Sample.ndvi_17) = true
   /\ monotonic_axis (coord_y Sample.ndvi_17) = true
   /\ globals Sample.loaded !! "x" = Some (PNdarray [0; 5; 10])
   /\ globals Sample.loaded !! "y" = Some (PNdarray [0; 5])
   /\ (0 < length [0; 5; 10])%nat /\ (0 < length [0; 5])%nat)
  /\ exists st' ra rb d,
       run_cells [cell_interp Sample.library; cell_ds_regridded;
                  cell_diff_regridded] Sample.loaded = Ok st'
       /\ globals st' !! "NDVI_1988_regridded" = Some (PArray ra)
       /\ globals st' !! "NDVI_2017_regridded" = Some (PArray rb)
       /\ globals st' !! "diff_regridded" = Some (PArray d)
       /\ shape ra = (2, 3)%nat /\ shape rb = shape ra
       /\ coord_x d = [0; 5; 10] /\ coord_y d = [0; 5].
Proof.
  assert (H1 : globals Sample.loaded !! "NDVI_1988" = Some (PArray Sample.ndvi_88))
    by (vm_compute; reflexivity).
  assert (H2 : globals Sample.loaded !! "NDVI_2017" = Some (PArray Sample.ndvi_17))
    by (vm_compute; reflexivity).
  assert (H3 : globals Sample.loaded !! "x" = Some (PNdarray [0; 5; 10]))
    by (vm_compute; reflexivity).
  assert (H4 : globals Sample.loaded !! "y" = Some (PNdarray [0; 5]))
    by (vm_compute; reflexivity).
  assert (H5 : (0 < length [0; 5; 10])%nat) by (simpl; lia).
  assert (H6 : (0 < length [0; 5])%nat) by (simpl; lia).
  split; [by repeat split|].
  destruct (regridded_share_grid Sample.library Sample.loaded
              Sample.ndvi_88 Sample.ndvi_17 [0; 5; 10] [0; 5]
              H1 eq_refl H2 eq_refl eq_refl eq_refl eq_refl eq_refl
              H3 H4 H5 H6)
    as (st' & ra & rb & ds & d & Hrun & _ & _ & Hra & Hrb & _ & Hd
        & _ & _ & _ & _ & Hsa & Hsb & _ & _ & _ & _ & _ & _ & Hdx & Hdy & _).
  exists st', ra, rb, d. by repeat split.
Defined.

Lemma dataset_and_difference_frame_witness :
  (globals Sample.regridded !! "NDVI_1988_regridded"
   = Some (PArray Sample.regridded_88)
   /\ globals Sample.regridded !! "NDVI_2017_regridded"
      = Some (PArray Sample.regridded_17)
   /\ coord_y Sample.regridded_17 = coord_y Sample.regridded_88
   /\ coord_x Sample.regridded_17 = coord_x Sample.regridded_88)
  /\ exists st1 st2 ds,
       cell_ds_regridded Sample.regridded = Ok st1
       /\ getitem ds "NDVI_1988" = Ok Sample.regridded_88
       /\ getitem ds "NDVI_2017" = Ok Sample.regridded_17
       /\ cell_diff_regridded st1 = Ok st2
       /\ globals st2 !! "ds_regridded" = Some (PDataset ds)
       /\ globals st2 !! "NDVI_1988_regridded" = Some (PArray Sample.regridded_88)
       /\ globals st2 !! "NDVI_2017_regridded" = Some (PArray Sample.regridded_17).
Proof.
  assert (H1 : globals Sample.regridded !! "NDVI_1988_regridded"
               = Some (PArray Sample.regridded_88)) by (vm_compute; reflexivity).
  assert (H2 : globals Sample.regridded !! "NDVI_2017_regridded"
               = Some (PArray Sample.regridded_17)) by (vm_compute; reflexivity).
  split; [by repeat split|].
  destruct (dataset_and_difference_frame Sample.regridded
              Sample.regridded_88 Sample.regridded_17 H1 H2 eq_refl eq_refl)
    as (st1 & st2 & ds & d & Hc1 & _ & Hg1 & Hg2 & Hc2 & _ & _ & Hds & Ha & Hb & _).
  exists st1, st2, ds. by repeat split.
Defined.

(** The difference on the sample grid, cell by cell; a [nan] operand
    gives [nan]. *)
Example sample_difference :
  (st ← run_cells [cell_ds_regridded; cell_diff_regridded] Sample.regridded;
   d ← get_array st "diff_regridded";
   Ok (values d))
  = Ok [[Fin (-2 # 8); Fin (-4 # 32); Fin (4 # 192)];
        [Fin (-48 # 512); Fin (-3 # 160); NaN]].
Proof. vm_compute. reflexivity. Qed.

(** Without the catalog file the run ends with the library's exception. *)
Example missing_catalog_propagates :
  run Sample.library_without_catalog = Raise (FileNotFoundError "../catalog.yml").
Proof. reflexivity. Qed.

(** With the edges of the resampling cell every bin holds exactly one
    label of the grid, the one at its right edge. *)
Example resample_bins_hold_one_label :
  (edges ← Notebook.x_1000 (Notebook.xmin 351453) (Notebook.xmax 351453)
             Notebook.res;
   Ok (length edges, map (fun b => members b edges) (bins_of edges)))
  = Ok (150%nat, map (fun k => [S k]) (seq 0 149)).
Proof. vm_compute. reflexivity. Qed.

Lemma diff_on_common_labels_witness :
  Notebook.diff Sample.ndvi_17 Sample.ndvi_88
  = Ok {| coord_y := [0]; coord_x := [0];
          values := [[Fin (-2 # 8)]]; chunked := false |}
  /\ common_labels (coord_x Sample.ndvi_17) (coord_x Sample.ndvi_88) [0]
  /\ common_labels (coord_y Sample.ndvi_17) (coord_y Sample.ndvi_88) [0].
Proof.
  split; [vm_compute; reflexivity|].
  apply (diff_on_common_labels Sample.ndvi_17 Sample.ndvi_88
           {| coord_y := [0]; coord_x := [0];
              values := [[Fin (-2 # 8)]]; chunked := false |}).
  vm_compute. reflexivity.
Defined.


(** With edges that are the grid itself nothing is averaged: the result
    is the input moved by one cell, the first row and column dropped. *)
Example sample_resample :
  (st ← run_cells [cell_ds_regridded; cell_diff_regridded] Sample.regridded;
   d ← get_array st "diff_regridded";
   r ← Notebook.diff_res_1000 d [0; 5; 10] [0; 5] [0; 5; 10] [0; 5];
   Ok (values d, r))
  = Ok ([[Fin (-2 # 8); Fin (-4 # 32); Fin (4 # 192)];
         [Fin (-48 # 512); Fin (-3 # 160); NaN]],
        {| coord_y := [0];
           coord_x := [0; 5];
           values := [[Fin (-3 # 160); NaN]];
           chunked := false |}).
Proof. vm_compute. reflexivity. Qed.

Lemma ndvi_reads_the_bands_witness :
  (In 4%Z (coord_band Sample.landsat_5) /\ In 3%Z (coord_band Sample.landsat_5)
   /\ In 5%Z (coord_band Sample.landsat_8) /\ In 4%Z (coord_band Sample.landsat_8))
  /\ (exists out nir red,
        sel Sample.landsat_5 4 = Ok nir /\ sel Sample.landsat_5 3 = Ok red
        /\ Notebook.NDVI_1988 Sample.landsat_5 = Ok out
        /\ index_reads_bands out nir red)
  /\ (exists out nir red,
        sel Sample.landsat_8 5 = Ok nir /\ sel Sample.landsat_8 4 = Ok red
        /\ Notebook.NDVI_2017 Sample.landsat_8 = Ok out
        /\ index_reads_bands out nir red).
Proof.
  assert (H : In 4%Z (coord_band Sample.landsat_5)
              /\ In 3%Z (coord_band Sample.landsat_5)
              /\ In 5%Z (coord_band Sample.landsat_8)
              /\ In 4%Z (coord_band Sample.landsat_8)).
  { simpl. tauto. }
  split; [exact H|].
  destruct H as (H4 & H3 & H5 & H4').
  exact (ndvi_reads_the_bands Sample.landsat_5 Sample.landsat_8 H4 H3 H5 H4').
Defined.

Lemma diff_is_by_label_witness :
  (well_shaped Sample.ndvi_17 = true /\ well_shaped Sample.ndvi_88 = true
   /\ has_dup (coord_x Sample.ndvi_17) = false
   /\ has_dup (coord_y Sample.ndvi_17) = false
   /\ has_dup (coord_x Sample.ndvi_88) = false
   /\ has_dup (coord_y Sample.ndvi_88) = false)
  /\ exists d,
       Notebook.diff Sample.ndvi_17 Sample.ndvi_88 = Ok d
       /\ forall i j qy qx,
            coord_y d !! i = Some qy -> coord_x d !! j = Some qx ->
            exists u v,
              at_label Sample.ndvi_17 qy qx = Some u
              /\ at_label Sample.ndvi_88 qy qx = Some v
              /\ pixel d i j = Some (fsub u v).
Proof.
  split.
  - repeat split; reflexivity.
  - apply (diff_is_by_label Sample.ndvi_17 Sample.ndvi_88); reflexivity.
Defined.

Lemma resample_moves_by_one_cell_witness :
  (increasing (coord_x Sample.regridded_17) = true
   /\ increasing (coord_y Sample.regridded_17) = true
   /\ (2 <= length (coord_x Sample.regridded_17))%nat
   /\ (2 <= length (coord_y Sample.regridded_17))%nat)
  /\ exists r,
       Notebook.diff_res_1000 Sample.regridded_17
         (coord_x Sample.regridded_17) (coord_y Sample.regridded_17)
         (coord_x Sample.regridded_17) (coord_y Sample.regridded_17)
       = Ok r
       /\ coord_x r = but_last (coord_x Sample.regridded_17)
       /\ coord_y r = but_last (coord_y Sample.regridded_17)
       /\ (forall i k v,
             (S i < length (coord_y Sample.regridded_17))%nat ->
             (S k < length (coord_x Sample.regridded_17))%nat ->
             pixel Sample.regridded_17 (S i) (S k) = Some v ->
             exists w, pixel r i k = Some w /\ same_value w v).
Proof.
  split.
  - repeat split; simpl; lia.
  - apply (resample_moves_by_one_cell Sample.regridded_17);
      [reflexivity | reflexivity | simpl; lia | simpl; lia].
Defined.

Lemma resample_needs_two_labels_witness :
  (increasing (coord_x Sample.one_row) = true
   /\ ((length (coord_x Sample.one_row) < 2)%nat
       \/ (length (coord_y Sample.one_row) < 2)%nat))
  /\ exists what : string,
       Notebook.diff_res_1000 Sample.one_row
         (coord_x Sample.one_row) (coord_y Sample.one_row)
         (coord_x Sample.one_row) (coord_y Sample.one_row)
       = Raise (ValueError what).
Proof.
  assert (H : (length (coord_x Sample.one_row) < 2)%nat
              \/ (length (coord_y Sample.one_row) < 2)%nat)
    by (right; simpl; lia).
  split.
  - split; [reflexivity | exact H].
  - apply (resample_needs_two_labels Sample.one_row); [reflexivity | exact H].
Defined.

Lemma printing_cells_index_unchecked_witness :
  (globals Sample.loaded !! "NDVI_1988" = Some (PArray Sample.ndvi_88)
   /\ globals Sample.loaded !! "NDVI_2017" = Some (PArray Sample.ndvi_17))
  /\ cell_first_x Sample.loaded = Ok Sample.loaded
  /\ cell_resolution Sample.loaded = Ok Sample.loaded.
Proof.
  split.
  - split; vm_compute; reflexivity.
  - apply (printing_cells_index_unchecked Sample.loaded
             Sample.ndvi_88 Sample.ndvi_17); vm_compute; reflexivity.
Defined.

(** C3 fails as stated at the center 116542.2: the bounds come out
    3e4 + 2^-36 apart and their midpoint is off the center by 2^-37. *)
Lemma bounding_box_not_square :
  Binary64.xmin (Fin center_116542_2) = Fin (6977926850622259 # 68719476736)
  /\ Binary64.xmax (Fin center_116542_2) = Fin (2259877788175565 # 17179869184)
  /\ (2259877788175565 # 17179869184) - (6977926850622259 # 68719476736)
     == 30000 + (1 # 68719476736)
  /\ ((6977926850622259 # 68719476736) + (2259877788175565 # 17179869184)) / 2
     == center_116542_2 + (1 # 137438953472).
Proof. repeat split; vm_compute; reflexivity. Qed.

(** At the center 351453.25 the box is the exact square. *)
Example sample_box_is_square :
  centered_side (Binary64.xmin (Fin 351453.25)) (Binary64.xmax (Fin 351453.25))
    351453.25.
Proof.
  apply (bounding_box_square_iff_exact 351453.25 0). split.
  - exists 1345813%Z, (- 2)%Z. split; [reflexivity|]. split; lia.
  - exists 1465813%Z, (- 2)%Z. split; [reflexivity|]. split; lia.
Qed.

(** C4 fails as stated between the bounds of the box at the center
    116542.2: the grid has 151 coordinates and the last one is [xmax]. *)
Lemma grid_reaches_xmax :
  exists xs : list npfloat,
    Binary64.x (Binary64.xmin (Fin center_116542_2))
      (Binary64.xmax (Fin center_116542_2)) Binary64.res
    = Ok xs
    /\ length xs = 151%nat
    /\ last xs = Some (Binary64.xmax (Fin center_116542_2)).
Proof. eexists. split; [vm_compute; reflexivity|]. split; reflexivity. Qed.

Lemma grid_regular_when_exact_witness :
  (exact_span (1345813 # 4) (1465813 # 4) /\ exact_span 4269177 4299177
   /\ (1345813 # 4) < (1465813 # 4) /\ 4269177 < 4299177)
  /\ exists xs ys : list npfloat,
       Binary64.x (Fin (1345813 # 4)) (Fin (1465813 # 4)) Binary64.res = Ok xs
       /\ Binary64.y (Fin 4269177) (Fin 4299177) Binary64.res = Ok ys
       /\ on_grid (1345813 # 4) (1465813 # 4) xs
       /\ on_grid 4269177 4299177 ys
       /\ (Qfloor (((1465813 # 4) - (1345813 # 4)) / 200)
           <= Z.of_nat (length xs)
           <= Qceiling (((1465813 # 4) - (1345813 # 4)) / 200))%Z
       /\ (Qfloor ((4299177 - 4269177) / 200) <= Z.of_nat (length ys)
           <= Qceiling ((4299177 - 4269177) / 200))%Z
       /\ (representable (((1465813 # 4) - (1345813 # 4)) / 200) ->
             Z.of_nat (length xs)
             = Qceiling (((1465813 # 4) - (1345813 # 4)) / 200))
       /\ (representable ((4299177 - 4269177) / 200) ->
             Z.of_nat (length ys) = Qceiling ((4299177 - 4269177) / 200)).
Proof.
  assert (Hx : exact_span (1345813 # 4) (1465813 # 4)).
  { exists 1345813%Z, 1465813%Z, (- 2)%Z. repeat split; try reflexivity; lia. }
  assert (Hy : exact_span 4269177 4299177).
  { exists 4269177%Z, 4299177%Z, 0%Z. repeat split; try reflexivity; lia. }
  split.
  - split; [exact Hx|]. split; [exact Hy|]. split; reflexivity.
  - apply (grid_regular_when_exact (1345813 # 4) (1465813 # 4) 4269177 4299177
             Hx Hy); reflexivity.
Defined.

Lemma grid_of_exact_center_witness :
  (351453.25 == inject_Z 1405813 * pow2 (- 2)
   /\ (- 1074 <= - 2 <= 3)%Z
   /\ (Z.abs 1405813 + 3750 * 2 ^ (3 - - 2) <= 2 ^ 53)%Z)
  /\ exists xs : list npfloat,
       Binary64.x (Binary64.xmin (Fin 351453.25)) (Binary64.xmax (Fin 351453.25))
         Binary64.res
       = Ok xs
       /\ length xs = 150%nat
       /\ on_grid (Notebook.xmin 351453.25) (Notebook.xmax 351453.25) xs.
Proof.
  split.
  - split; [reflexivity|]. split; lia.
  - apply (grid_of_exact_center 351453.25 1405813 (- 2)); [reflexivity | lia | lia].
Defined.

Lemma grid_of_empty_box_witness :
  (100 <= 300 /\ 300 - 100 <= inject_Z (2 ^ 52))
  /\ Binary64.x (Fin 300) (Fin 100) Binary64.res = Ok []
  /\ Binary64.y (Fin 300) (Fin 100) Binary64.res = Ok [].
Proof.
  split.
  - split; vm_compute; discriminate.
  - apply (grid_of_empty_box 300 100); vm_compute; discriminate.
Defined.

(** The length of a grid whose quotient underflows, and of one whose
    bound is not a number. *)
Example sample_arange_edges :
  Binary64.arange (Fin 0) (Fin (pow2 (- 1074))) Binary64.res = Ok [Fin 0]
  /\ Binary64.arange (Fin (pow2 (- 1074))) (Fin 0) Binary64.res = Ok []
  /\ Binary64.arange NaN (Fin 1) Binary64.res
     = Raise (ValueError "arange: cannot compute length")
  /\ Binary64.arange (Fin 0) PInf Binary64.res
     = Raise (OverflowError "arange: overflow while computing length")
  /\ Binary64.arange (Fin 0) (Fin 1) (Fin 0) = Raise ZeroDivisionError.
Proof. repeat split; vm_compute; reflexivity. Qed.
